(** * KPI-VN30 dashboard: the official-source scraper

    A shallow embedding of [scripts/scrape-official.js] (the revision with
    OCR fallback, candidate ranking and [dedupeEntries]) and the properties
    of its numeric parser, unit normaliser, period-proximity check, document
    cache, OCR rotation choice, candidate ranking and series hydration,
    then of its text extraction, period inference, discovery of entries,
    crawl and main loop.

    Conventions of the embedding.
    - Text is an ASCII [string]: on ASCII, [String.prototype.normalize("NFD")]
      and the strip of combining marks U+0300..U+036F are the identity, so
      [foldAscii] is lower-casing.
    - A JavaScript number is a [number]: a finite value carried as an exact
      rational, [NaN], or an infinity.  Binary rounding of doubles and the
      sign of zero are not represented.
    - [null] and [undefined] are [None].
    - [async] functions run to completion one after the other, as the
      script awaits every call; a function that reads or writes the
      document cache is a state transformer over [World].
    - The network, the PDF text layer, the page renderer, the OCR engines
      and the regular-expression engine for configured pattern strings are
      the fields of one record, [Env].  The regular expressions that the
      source writes out are matched by the definitions of module [Rx]. *)

From stdpp Require Import gmap strings list pretty.
From Stdlib Require Import Ascii QArith Qabs Sorted Permutation.

Open Scope string_scope.
Open Scope nat_scope.

(* ===================================================================== *)
(** ** Characters and strings *)
(* ===================================================================== *)

Module Str.

Definition code (c : ascii) : nat := nat_of_ascii c.

Definition isDigit (c : ascii) : bool :=
  (48 <=? code c) && (code c <=? 57).

(** [\s] of a JavaScript regular expression, on ASCII: TAB, LF, VT, FF,
    CR and SPACE. *)
Definition isSpace (c : ascii) : bool :=
  ((9 <=? code c) && (code c <=? 13)) || (code c =? 32).

(** [\w]: letters, digits and underscore. *)
Definition isWord (c : ascii) : bool :=
  isDigit c
  || ((65 <=? code c) && (code c <=? 90))
  || ((97 <=? code c) && (code c <=? 122))
  || (code c =? 95).

Definition isUpper (c : ascii) : bool :=
  (65 <=? code c) && (code c <=? 90).

Definition lowerChar (c : ascii) : ascii :=
  if isUpper c then ascii_of_nat (code c + 32) else c.

Definition eqc (a b : ascii) : bool := Ascii.eqb a b.

(** Equality of characters under the [i] flag. *)
Definition eqci (a b : ascii) : bool := Ascii.eqb (lowerChar a) (lowerChar b).

Fixpoint map (f : ascii -> ascii) (s : string) : string :=
  match s with
  | EmptyString => EmptyString
  | String c r => String (f c) (map f r)
  end.

Fixpoint filter (f : ascii -> bool) (s : string) : string :=
  match s with
  | EmptyString => EmptyString
  | String c r => if f c then String c (filter f r) else filter f r
  end.

Fixpoint count (f : ascii -> bool) (s : string) : nat :=
  match s with
  | EmptyString => 0
  | String c r => (if f c then 1 else 0) + count f r
  end.

Fixpoint all (f : ascii -> bool) (s : string) : bool :=
  match s with
  | EmptyString => true
  | String c r => f c && all f r
  end.

Definition toLowerCase (s : string) : string := map lowerChar s.

Definition isEmpty (s : string) : bool :=
  match s with EmptyString => true | _ => false end.

(** [prefixBy eq p s]: [s] starts with [p], characters compared by [eq]. *)
Fixpoint prefixBy (eq : ascii -> ascii -> bool) (p s : string) : bool :=
  match p, s with
  | EmptyString, _ => true
  | String a p', String b s' => eq a b && prefixBy eq p' s'
  | String _ _, EmptyString => false
  end.

(** [existsSuffix f s]: some suffix of [s] (the empty one included)
    satisfies [f]; the search of an unanchored regular expression. *)
Fixpoint existsSuffix (f : string -> bool) (s : string) : bool :=
  f s || match s with
         | EmptyString => false
         | String _ r => existsSuffix f r
         end.

(** [String.prototype.includes]. *)
Definition includes (hay needle : string) : bool :=
  existsSuffix (prefixBy eqc needle) hay.

Fixpoint drop (n : nat) (s : string) : string :=
  match n, s with
  | O, _ => s
  | S n', String _ r => drop n' r
  | S _, EmptyString => EmptyString
  end.

Fixpoint take (n : nat) (s : string) : string :=
  match n, s with
  | O, _ => EmptyString
  | S n', String c r => String c (take n' r)
  | S _, EmptyString => EmptyString
  end.

(** [String.prototype.slice(start, end)] with the relative-index rule for
    negative arguments and clamping to the length. *)
Definition relIndex (len : nat) (i : Z) : nat :=
  if (i <? 0)%Z then Z.to_nat (Z.max 0 (Z.of_nat len + i))
  else Nat.min (Z.to_nat i) len.

Definition slice (s : string) (from to : Z) : string :=
  let len := String.length s in
  let a := relIndex len from in
  let b := relIndex len to in
  take (b - a) (drop a s).

(** [String.prototype.slice(start)]. *)
Definition sliceFrom (s : string) (from : Z) : string :=
  drop (relIndex (String.length s) from) s.

(** [String.prototype.trim], on ASCII white space. *)
Fixpoint trimStart (s : string) : string :=
  match s with
  | String c r => if isSpace c then trimStart r else s
  | EmptyString => EmptyString
  end.

Fixpoint rev_onto (s acc : string) : string :=
  match s with
  | EmptyString => acc
  | String c r => rev_onto r (String c acc)
  end.

Definition rev (s : string) : string := rev_onto s EmptyString.

Definition trim (s : string) : string := rev (trimStart (rev (trimStart s))).

(** The words of [s]: maximal runs of non-space characters. *)
Fixpoint wordsFrom (s : string) (cur : option string) : list string :=
  match s with
  | EmptyString => match cur with Some w => [w] | None => [] end
  | String c r =>
      if isSpace c
      then match cur with Some w => w :: wordsFrom r None | None => wordsFrom r None end
      else match cur with
           | Some w => wordsFrom r (Some (w ++ String c EmptyString))
           | None => wordsFrom r (Some (String c EmptyString))
           end
  end.

Definition words (s : string) : list string := wordsFrom s None.

End Str.

(** [foldAscii]: NFD, strip combining marks, lower-case.  On the ASCII
    text of this development, characters of code below 128, NFD changes
    nothing and no character is a combining mark: what is left of the fold
    is the lower-casing. *)
Definition foldAscii (input : option string) : string :=
  Str.toLowerCase (default "" input).

(* ===================================================================== *)
(** ** Numbers *)
(* ===================================================================== *)

Inductive number : Type :=
| Fin (q : Q)
| NaN
| PosInf
| NegInf.

Definition isFinite (n : number) : bool :=
  match n with Fin _ => true | _ => false end.

Module Num.

Definition digitVal (c : ascii) : Z := Z.of_nat (Str.code c - 48).

(** Value of a run of decimal digits, most significant first. *)
Fixpoint digitsValue (acc : Z) (s : string) : Z :=
  match s with
  | EmptyString => acc
  | String c r => digitsValue (10 * acc + digitVal c)%Z r
  end.

(** Split at the first dot: the part before, and the part after when
    there is a dot. *)
Fixpoint splitDot (s : string) : string * option string :=
  match s with
  | EmptyString => (EmptyString, None)
  | String c r =>
      if Str.eqc c "."
      then (EmptyString, Some r)
      else let '(a, b) := splitDot r in (String c a, b)
  end.

Definition decimal (ip fp : string) : Q :=
  let k := String.length fp in
  Qred (Qmake (digitsValue 0 (ip ++ fp)) (Z.to_pos (10 ^ Z.of_nat k))).

(** An unsigned [StrDecimalLiteral] without exponent: [d+], [d+.d*] or
    [.d+]. *)
Definition unsignedLiteral (s : string) : option Q :=
  match splitDot s with
  | (ip, None) =>
      if Str.isEmpty ip || negb (Str.all Str.isDigit ip) then None
      else Some (decimal ip "")
  | (ip, Some fp) =>
      if (Str.isEmpty ip && Str.isEmpty fp)
         || negb (Str.all Str.isDigit ip) || negb (Str.all Str.isDigit fp)
      then None
      else Some (decimal ip fp)
  end.

(** [Number(s)] for a string [s] over the alphabet of digits, comma, dot
    and minus (what [normalizeNumber] leaves after scrubbing): the empty
    string is [0], an optionally negated decimal literal is its value,
    anything else is [NaN]. *)
Definition ofString (s : string) : number :=
  match s with
  | EmptyString => Fin 0
  | String c r =>
      if Str.eqc c "-"
      then match unsignedLiteral r with
           | Some q => Fin (Qred (- q))
           | None => NaN
           end
      else match unsignedLiteral s with
           | Some q => Fin q
           | None => NaN
           end
  end.

End Num.

(* ===================================================================== *)
(** ** Numeric parser *)
(* ===================================================================== *)

Definition isComma (c : ascii) : bool := Str.eqc c ",".
Definition isDot (c : ascii) : bool := Str.eqc c ".".

(** The scrub [/[^\d,.\-]/g -> ""]. *)
Definition keptByScrub (c : ascii) : bool :=
  Str.isDigit c || isComma c || isDot c || Str.eqc c "-".

Definition commaToDot (c : ascii) : ascii := if isComma c then "."%char else c.

Definition normalizeNumber (str : option string) : option number :=
  match str with
  | None => None
  | Some "" => None
  | Some s =>
      let cleaned := Str.filter keptByScrub s in
      let dotCount := Str.count isDot cleaned in
      let commaCount := Str.count isComma cleaned in
      if (1 <? dotCount) && (commaCount =? 0)
      then Some (Num.ofString (Str.filter (fun c => negb (isDot c)) cleaned))
      else if (1 <? commaCount) && (dotCount =? 0)
      then Some (Num.ofString (Str.filter (fun c => negb (isComma c)) cleaned))
      else if (commaCount =? 1) && (dotCount =? 0)
      then Some (Num.ofString (Str.map commaToDot cleaned))
      else if (1 <=? commaCount) && (1 <=? dotCount)
      then Some (Num.ofString (Str.filter (fun c => negb (isComma c)) cleaned))
      else Some (Num.ofString cleaned)
  end.

(** The matches of [/[0-9][0-9.,]*/g]: maximal runs that start at a digit
    and go on through digits, dots and commas. *)
Definition isTokenChar (c : ascii) : bool := Str.isDigit c || isDot c || isComma c.

Fixpoint scanTokens (s : string) (cur : option string) : list string :=
  match s with
  | EmptyString => match cur with Some t => [t] | None => [] end
  | String c r =>
      match cur with
      | Some t =>
          if isTokenChar c then scanTokens r (Some (t ++ String c EmptyString))
          else t :: scanTokens r None
      | None =>
          if Str.isDigit c then scanTokens r (Some (String c EmptyString))
          else scanTokens r None
      end
  end.

Definition numberTokens (s : string) : list string := scanTokens s None.

Definition minDigits (unitKind : string) : nat :=
  if String.eqb unitKind "currency" then 6
  else if String.eqb unitKind "volume" then 2
  else if String.eqb unitKind "percent" then 1
  else if String.eqb unitKind "count" then 1
  else 1.

(** [token.replace(/[.,]/g, "").length]. *)
Definition digitCount (token : string) : nat :=
  String.length (Str.filter (fun c => negb (isDot c || isComma c)) token).

Definition pickNumberToken (raw : option string) (unitKind : string) : option string :=
  match numberTokens (default "" raw) with
  | [] => raw
  | first :: rest =>
      Some (default first
              (List.find (fun token => minDigits unitKind <=? digitCount token)
                         (first :: rest)))
  end.

(* ===================================================================== *)
(** ** Unit normaliser *)
(* ===================================================================== *)

Definition Qlt_bool (a b : Q) : bool := negb (Qle_bool b a).

Definition normalizeByUnit (value : option number) (unitToken context : option string)
    (unitKind : string) : option Q :=
  match value with
  | Some (Fin v) =>
      let token := foldAscii unitToken in
      let ctx := foldAscii context in
      if String.eqb unitKind "percent" then
        let hasPercent := Str.includes ctx "%" || Str.includes token "%" in
        if hasPercent || Qlt_bool (3 # 2) (Qabs v) then Some (v / 100)%Q else Some v
      else if String.eqb unitKind "currency" then
        if Str.includes token "billion" || Str.includes token "ty" then Some v
        else if Str.includes token "million" || Str.includes token "trieu" then Some (v / 1000)%Q
        else if Str.includes token "usd" then None
        else if Str.includes ctx "trieu" || Str.includes ctx "million" then Some (v / 1000)%Q
        else if Str.includes ctx "ty" || Str.includes ctx "billion" then Some v
        else if Qle_bool 1000000 (Qabs v) then Some (v / 1000000000)%Q
        else if Qle_bool 1000 (Qabs v) then Some (v / 1000)%Q
        else Some v
      else if String.eqb unitKind "volume" then
        if Str.includes token "million" || Str.includes token "trieu" then Some v
        else if Str.includes token "thousand" || Str.includes token "nghin" then Some (v / 1000)%Q
        else if Qlt_bool 100 (Qabs v) then Some (v / 1000)%Q
        else Some v
      else Some v
  | _ => None
  end.

(* ===================================================================== *)
(** ** Periods and the proximity check *)
(* ===================================================================== *)

Definition PERIODS_Q : list string :=
  [ "2021Q1"; "2021Q2"; "2021Q3"; "2021Q4";
    "2022Q1"; "2022Q2"; "2022Q3"; "2022Q4";
    "2023Q1"; "2023Q2"; "2023Q3"; "2023Q4";
    "2024Q1"; "2024Q2"; "2024Q3"; "2024Q4";
    "2025Q1"; "2025Q2"; "2025Q3"; "2025Q4" ].

Definition isPeriod (p : string) : bool :=
  existsb (String.eqb p) PERIODS_Q.

Definition quarterToRoman (q : string) : string :=
  if String.eqb q "1" then "i"
  else if String.eqb q "2" then "ii"
  else if String.eqb q "3" then "iii"
  else if String.eqb q "4" then "iv"
  else "".

(** [\s*] followed by [f], with the engine's backtracking: [f] holds after
    some number of leading white-space characters. *)
Fixpoint afterSpaces (f : string -> bool) (s : string) : bool :=
  f s || match s with
         | String c r => Str.isSpace c && afterSpaces f r
         | EmptyString => false
         end.

(** One alternative [kw\s*lit] of the quarter expression, anchored at the
    start of [s], under the [i] flag. *)
Definition markerAt (kw lit : string) (s : string) : bool :=
  Str.prefixBy Str.eqci kw s
  && afterSpaces (Str.prefixBy Str.eqci lit) (Str.drop (String.length kw) s).

(** [new RegExp(`(q\s*${q}|quy\s*${q}|quy\s*${roman})`, "i").test(window)],
    for [q] and [roman] free of regular-expression metacharacters (the
    quarter digit and the Roman numeral of every member of [PERIODS_Q]). *)
Definition quarterRegexTest (q roman window : string) : bool :=
  Str.existsSuffix
    (fun s => markerAt "q" q s || markerAt "quy" q s || markerAt "quy" roman s)
    window.

(** [new RegExp(year).test(window)] for a [year] of digits. *)
Definition yearRegexTest (year window : string) : bool :=
  Str.includes window year.

Definition periodWindow (text : string) (index : Z) : string :=
  Str.slice text (Z.max 0 (index - 180)) (index + 260).

Definition hasPeriodNearMatch (text : string) (index : Z) (period : option string) : bool :=
  match period with
  | None => true
  | Some "" => true
  | Some p =>
      let year := Str.slice p 0 4 in
      let q := Str.sliceFrom p 5 in
      let roman := quarterToRoman q in
      let window := periodWindow text index in
      quarterRegexTest q roman window && yearRegexTest year window
  end.

(* ===================================================================== *)
(** ** Results of fallible calls *)
(* ===================================================================== *)

Inductive result (A : Type) : Type :=
| Ok (a : A)
| Throw (msg : string).
Arguments Ok {A} a.
Arguments Throw {A} msg.

(* ===================================================================== *)
(** ** Pattern extraction *)
(* ===================================================================== *)

(** One result of [regex.exec]: where it starts and its groups, the whole
    match first; a group that did not take part is [None]. *)
Record RegexMatch : Type := {
  m_index : nat;
  m_groups : list (option string)
}.

Definition group (m : RegexMatch) (i : nat) : option string :=
  match nth_error (m_groups m) i with
  | Some g => g
  | None => None
  end.

(** [x || ""] for a string or [undefined]. *)
Definition orEmpty (x : option string) : string := default "" x.

(** The body of the [while] loop of [extractValueFromText] for one match:
    the accepted value, or [None] for [continue]. *)
Definition acceptMatch (foldedText unitKind : string) (minValue maxValue : option Q)
    (period : option string) (strictPeriod : bool) (m : RegexMatch) : option Q :=
  let token := pickNumberToken (group m 1) unitKind in
  let raw := normalizeNumber token in
  let unitToken := orEmpty (group m 2) in
  match normalizeByUnit raw (Some unitToken) (group m 0) unitKind with
  | None => None
  | Some normalized =>
      if match minValue with Some lo => Qlt_bool normalized lo | None => false end then None
      else if match maxValue with Some hi => Qlt_bool hi normalized | None => false end then None
      else if strictPeriod
              && negb (hasPeriodNearMatch foldedText (Z.of_nat (m_index m)) period)
      then None
      else Some normalized
  end.

Fixpoint firstAccepted {A B : Type} (f : A -> option B) (l : list A) : option B :=
  match l with
  | [] => None
  | x :: r => match f x with Some y => Some y | None => firstAccepted f r end
  end.

(* ===================================================================== *)
(** ** The fixed regular expressions of the source *)
(* ===================================================================== *)

Module Rx.

(** The fragment the source's literal expressions need.  [Star], [Upto]
    (a class repeated at most [n] times) and [Opt] are greedy; [Grp n] is
    capture group [n]. *)
Inductive rx : Type :=
| Chr (f : ascii -> bool)
| Lit (ci : bool) (s : string)
| Seq (a b : rx)
| Alt (a b : rx)
| Star (f : ascii -> bool)
| Upto (n : nat) (f : ascii -> bool)
| Opt (a : rx)
| WordB
| Grp (n : nat) (a : rx).

Definition caps : Type := list (nat * string).

Definition wordBefore (prev : option ascii) : bool :=
  match prev with Some c => Str.isWord c | None => false end.

Definition wordAt (s : string) : bool :=
  match s with String c _ => Str.isWord c | EmptyString => false end.

(** The last character of [prev :: consumed]. *)
Fixpoint lastChar (prev : option ascii) (consumed : string) : option ascii :=
  match consumed with
  | EmptyString => prev
  | String c r => lastChar (Some c) r
  end.

(** Backtracking matcher in continuation-passing style: [k] receives the
    character before the current position, the rest of the input and the
    captures so far. *)
Fixpoint run {R : Type} (r : rx) (prev : option ascii) (s : string) (cs : caps)
    (k : option ascii -> string -> caps -> option R) : option R :=
  match r with
  | Chr f =>
      match s with
      | String c s' => if f c then k (Some c) s' cs else None
      | EmptyString => None
      end
  | Lit ci l =>
      if Str.prefixBy (if ci then Str.eqci else Str.eqc) l s
      then k (lastChar prev (Str.take (String.length l) s)) (Str.drop (String.length l) s) cs
      else None
  | Seq a b => run a prev s cs (fun prev' s' cs' => run b prev' s' cs' k)
  | Alt a b =>
      match run a prev s cs k with
      | Some res => Some res
      | None => run b prev s cs k
      end
  | Star f =>
      (fix loop (prev0 : option ascii) (s0 : string) {struct s0} : option R :=
         match s0 with
         | String c s' =>
             if f c then
               match loop (Some c) s' with
               | Some res => Some res
               | None => k prev0 s0 cs
               end
             else k prev0 s0 cs
         | EmptyString => k prev0 s0 cs
         end) prev s
  | Upto n f =>
      (fix loop (n0 : nat) (prev0 : option ascii) (s0 : string) {struct n0} : option R :=
         match n0, s0 with
         | S n', String c s' =>
             if f c then
               match loop n' (Some c) s' with
               | Some res => Some res
               | None => k prev0 s0 cs
               end
             else k prev0 s0 cs
         | _, _ => k prev0 s0 cs
         end) n prev s
  | Opt a =>
      match run a prev s cs k with
      | Some res => Some res
      | None => k prev s cs
      end
  | WordB => if xorb (wordBefore prev) (wordAt s) then k prev s cs else None
  | Grp n a =>
      run a prev s cs
          (fun prev' s' cs' =>
             k prev' s' ((n, Str.take (String.length s - String.length s') s) :: cs'))
  end.

(** A match anchored at the current position: the captures, the
    character before the end, and the rest of the input. *)
Definition matchHere (r : rx) (prev : option ascii) (s : string)
    : option (caps * option ascii * string) :=
  run r prev s [] (fun prev' s' cs => Some (cs, prev', s')).

(** [text.match(r)] without the [g] flag: the captures of the leftmost
    match. *)
Fixpoint search (r : rx) (prev : option ascii) (s : string) : option caps :=
  match matchHere r prev s with
  | Some (cs, _, _) => Some cs
  | None =>
      match s with
      | String c s' => search r (Some c) s'
      | EmptyString => None
      end
  end.

(** The [exec] loop of a [g] expression none of whose matches is empty:
    the captures of the successive matches. *)
Fixpoint searchAll (fuel : nat) (r : rx) (prev : option ascii) (s : string) : list caps :=
  match fuel with
  | O => []
  | S fuel' =>
      match matchHere r prev s with
      | Some (cs, prev', s') =>
          if String.length s' <? String.length s
          then cs :: searchAll fuel' r prev' s'
          else [cs]
      | None =>
          match s with
          | String c s' => searchAll fuel' r (Some c) s'
          | EmptyString => []
          end
      end
  end.

(** The [exec] loop with the index and the groups of each match, for an
    expression with [ngroups] capture groups. *)
Fixpoint execAll (fuel ngroups : nat) (r : rx) (prev : option ascii) (pos : nat)
    (s : string) : list RegexMatch :=
  match fuel with
  | O => []
  | S fuel' =>
      match matchHere r prev s with
      | Some (cs, prev', s') =>
          let len := String.length s - String.length s' in
          let m := {| m_index := pos;
                      m_groups :=
                        Some (Str.take len s)
                        :: List.map (fun i => option_map snd
                                                (List.find (fun p => Nat.eqb (fst p) i) cs))
                                    (List.seq 1 ngroups) |} in
          if Nat.eqb len 0 then [m]
          else m :: execAll fuel' ngroups r prev' (pos + len) s'
      | None =>
          match s with
          | String c s' => execAll fuel' ngroups r (Some c) (S pos) s'
          | EmptyString => []
          end
      end
  end.

Definition plus (f : ascii -> bool) : rx := Seq (Chr f) (Star f).

Definition cap (cs : caps) (n : nat) : string :=
  match List.find (fun p => Nat.eqb (fst p) n) cs with
  | Some p => snd p
  | None => ""
  end.

Definition test (r : rx) (s : string) : bool :=
  match search r None s with Some _ => true | None => false end.

Definition oneOf (l : string) : ascii -> bool :=
  fun c => negb (Str.isEmpty (Str.filter (Str.eqc c) l)).

(** [(20\d{2})] as group [n]. *)
Definition year (n : nat) : rx :=
  Grp n (Seq (Lit false "20") (Seq (Chr Str.isDigit) (Chr Str.isDigit))).

(** [([1-4])] as group [n]. *)
Definition quarterDigit (n : nat) : rx := Grp n (Chr (oneOf "1234")).

(** [(1|2|3|4|i{1,3}|iv)] as group [n]. *)
Definition quarterToken (ci : bool) (n : nat) : rx :=
  Grp n (Alt (Lit false "1") (Alt (Lit false "2") (Alt (Lit false "3") (Alt (Lit false "4")
        (Alt (Seq (Lit ci "i") (Opt (Seq (Lit ci "i") (Opt (Lit ci "i")))))
             (Lit ci "iv")))))).

(** [[-_\s]*]. *)
Definition seps : rx := Star (fun c => oneOf "-_" c || Str.isSpace c).

Definition spaces : rx := Star Str.isSpace.

Fixpoint seq (l : list rx) : rx :=
  match l with
  | [] => Lit false ""
  | [r] => r
  | r :: l' => Seq r (seq l')
  end.

End Rx.

Definition romanToQuarter (token : string) : option string :=
  let t := Str.toLowerCase token in
  if String.eqb t "i" then Some "1"
  else if String.eqb t "ii" then Some "2"
  else if String.eqb t "iii" then Some "3"
  else if String.eqb t "iv" then Some "4"
  else if existsb (String.eqb t) ["1"; "2"; "3"; "4"] then Some t
  else None.

(** The four expressions of [inferPeriodFromString], with the group that
    holds the year and the one that holds the quarter. *)
Definition stringScans : list (Rx.rx * nat * nat) :=
  [ (Rx.seq [Rx.WordB; Rx.year 1; Rx.seps; Rx.Lit false "q"; Rx.quarterDigit 2; Rx.WordB], 1, 2);
    (Rx.seq [Rx.WordB; Rx.Lit false "q"; Rx.quarterDigit 1; Rx.seps; Rx.year 2; Rx.WordB], 2, 1);
    (Rx.seq [Rx.WordB; Rx.year 1; Rx.seps;
             Rx.Opt (Rx.Seq (Rx.Lit false "nam") Rx.seps);
             Rx.Lit false "quy"; Rx.seps; Rx.quarterToken false 2; Rx.WordB], 1, 2);
    (Rx.seq [Rx.WordB; Rx.Lit false "quy"; Rx.seps; Rx.quarterToken false 1; Rx.seps;
             Rx.Opt (Rx.Seq (Rx.Lit false "nam") Rx.seps);
             Rx.year 2; Rx.WordB], 2, 1) ].

Fixpoint inferFromScans (scans : list (Rx.rx * nat * nat)) (t : string) : option string :=
  match scans with
  | [] => None
  | (r, y, q) :: rest =>
      match Rx.search r None t with
      | Some cs =>
          match romanToQuarter (Rx.cap cs q) with
          | Some n => Some (Rx.cap cs y ++ "Q" ++ n)
          | None => None
          end
      | None => inferFromScans rest t
      end
  end.

Definition inferPeriodFromString (input : option string) : option string :=
  inferFromScans stringScans (foldAscii input).

(** [\s*[-_/]?\s*]. *)
Definition looseSep : Rx.rx :=
  Rx.seq [Rx.spaces; Rx.Opt (Rx.Chr (Rx.oneOf "-_/")); Rx.spaces].

(** [\s*(?:nam)?\s*]. *)
Definition namSep : Rx.rx :=
  Rx.seq [Rx.spaces; Rx.Opt (Rx.Lit true "nam"); Rx.spaces].

(** The four scans of [inferPeriodFromText], all under the [gi] flags. *)
Definition textScans : list (Rx.rx * nat * nat) :=
  [ (Rx.seq [Rx.WordB; Rx.year 1; looseSep; Rx.Lit true "q"; Rx.quarterDigit 2; Rx.WordB], 1, 2);
    (Rx.seq [Rx.WordB; Rx.Lit true "q"; Rx.quarterDigit 1; looseSep; Rx.year 2; Rx.WordB], 2, 1);
    (Rx.seq [Rx.WordB; Rx.year 1; namSep; Rx.Lit true "quy"; Rx.spaces;
             Rx.quarterToken true 2; Rx.WordB], 1, 2);
    (Rx.seq [Rx.WordB; Rx.Lit true "quy"; Rx.spaces; Rx.quarterToken true 1; namSep;
             Rx.year 2; Rx.WordB], 2, 1) ].

Definition scanCandidates (foldedText : string) (scan : Rx.rx * nat * nat) : list string :=
  let '(r, y, q) := scan in
  omap (fun cs =>
          match romanToQuarter (Rx.cap cs q) with
          | Some n =>
              let period := Rx.cap cs y ++ "Q" ++ n in
              if isPeriod period then Some period else None
          | None => None
          end)
       (Rx.searchAll (S (String.length foldedText)) r None foldedText).

Definition inferPeriodFromText (foldedText : string) : option string :=
  head (concat (List.map (scanCandidates foldedText) textScans)).

(* ===================================================================== *)
(** ** HTML to text *)
(* ===================================================================== *)

(** The rest of [s] after the first occurrence of [close], compared under
    the [i] flag. *)
Fixpoint dropThrough (close : string) (s : string) : option string :=
  if Str.prefixBy Str.eqci close s then Some (Str.drop (String.length close) s)
  else match s with
       | EmptyString => None
       | String _ r => dropThrough close r
       end.

(** [s.replace(/<open[\s\S]*?<\/close>/gi, " ")]: each block from an
    opening marker to the nearest closing marker becomes one space. *)
Fixpoint removeBlocks (fuel : nat) (open close : string) (s : string) : string :=
  match fuel with
  | O => s
  | S fuel' =>
      match s with
      | EmptyString => EmptyString
      | String c r =>
          if Str.prefixBy Str.eqci open s then
            match dropThrough close (Str.drop (String.length open) s) with
            | Some rest => String " " (removeBlocks fuel' open close rest)
            | None => String c (removeBlocks fuel' open close r)
            end
          else String c (removeBlocks fuel' open close r)
      end
  end.

(** The rest of [s] after its first [>]. *)
Fixpoint afterGt (s : string) : option string :=
  match s with
  | EmptyString => None
  | String c r => if Str.eqc c ">" then Some r else afterGt r
  end.

(** [s.replace(/<[^>]+>/g, " ")]. *)
Fixpoint removeTags (fuel : nat) (s : string) : string :=
  match fuel with
  | O => s
  | S fuel' =>
      match s with
      | EmptyString => EmptyString
      | String c r =>
          if Str.eqc c "<" then
            match r with
            | String d r' =>
                if Str.eqc d ">" then String c (removeTags fuel' r)
                else match afterGt r' with
                     | Some rest => String " " (removeTags fuel' rest)
                     | None => String c (removeTags fuel' r)
                     end
            | EmptyString => String c EmptyString
            end
          else String c (removeTags fuel' r)
      end
  end.

Definition stripHtml (html : string) : string :=
  let n := S (String.length html) in
  removeTags n (removeBlocks n "<style" "</style>" (removeBlocks n "<script" "</script>" html)).

(** [s.replace(/\s+/g, " ")]. *)
Fixpoint collapseSpaces (inRun : bool) (s : string) : string :=
  match s with
  | EmptyString => EmptyString
  | String c r =>
      if Str.isSpace c
      then if inRun then collapseSpaces true r else String " " (collapseSpaces true r)
      else String c (collapseSpaces false r)
  end.

Definition foldText (text : string) : string :=
  collapseSpaces false (foldAscii (Some text)).

(* ===================================================================== *)
(** ** Documents *)
(* ===================================================================== *)

Definition isPdf (u : string) : bool := Str.includes (Str.toLowerCase u) ".pdf".

Definition Buffer : Type := string.
Definition Image : Type := string.

(** The payload [fetchDocument] caches; [isPdfDoc] is its [isPdf] field. *)
Record Document : Type := {
  text : string;
  folded : string;
  buffer : Buffer;
  isPdfDoc : bool;
  html : string
}.

Record Response : Type := {
  res_ok : bool;
  res_status : nat;
  res_statusText : string;
  res_body : Buffer
}.

Record SpawnResult : Type := {
  sp_status : option Z;
  sp_stdout : string;
  sp_stderr : string
}.

Record Page : Type := {
  pageNum : nat;
  image : Image
}.

(** A link found by the crawl; [anchor] is its [text] field. *)
Record Candidate : Type := {
  url : string;
  anchor : string
}.

(* ===================================================================== *)
(** ** KPI definitions *)
(* ===================================================================== *)

Record KpiMeta : Type := {
  patterns : option (list string);
  primaryPatterns : option (list string);
  fallbackPatterns : option (list string);
  rowPatterns : list string;
  unitKind : string;
  minValue : option Q;
  maxValue : option Q;
  urlKeywords : list string;
  requiresPdf : bool;
  ocrKeywords : list string
}.

Definition meta_stores : KpiMeta := {|
  patterns := Some
      [ "so\s*cua\s*hang[^0-9]{0,20}([0-9][0-9.,\s]+)";
        "tong\s*so\s*cua\s*hang[^0-9]{0,20}([0-9][0-9.,\s]+)";
        "mang\s*luoi\s*cua\s*hang[^0-9]{0,20}([0-9][0-9.,\s]+)";
        "store\s*network[^0-9]{0,20}([0-9][0-9.,\s]+)";
        "number\s*of\s*stores[^0-9]{0,20}([0-9][0-9.,\s]+)" ];
  primaryPatterns := None;
  fallbackPatterns := None;
  rowPatterns :=
      [ "so\s*cua\s*hang";
        "tong\s*so\s*cua\s*hang";
        "mang\s*luoi\s*cua\s*hang";
        "number\s*of\s*stores";
        "store\s*network" ];
  unitKind := "count";
  minValue := Some 50%Q;
  maxValue := None;
  urlKeywords := [ "cua-hang";
        "store";
        "store-network";
        "mang-luoi";
        "he-thong" ];
  requiresPdf := false;
  ocrKeywords := [ "cua hang";
        "store";
        "hang" ]
|}.

Definition meta_rev : KpiMeta := {|
  patterns := None;
  primaryPatterns := Some
      [ "doanh\s*thu\s*thuan[^0-9]{0,120}([0-9][0-9.,\s]+)\s*(ty|trieu|dong|vnd|usd|billion|million)?";
        "tong\s*thu\s*nhap\s*hoat\s*dong[^0-9]{0,120}([0-9][0-9.,\s]+)\s*(ty|trieu|dong|vnd|usd|billion|million)?";
        "net\s*revenue[^0-9]{0,120}([0-9][0-9.,\s]+)\s*(billion|million|vnd|usd)?";
        "total\s*operating\s*income[^0-9]{0,120}([0-9][0-9.,\s]+)\s*(billion|million|vnd|usd)?" ];
  fallbackPatterns := Some
      [ "doanh\s*thu\s*ban\s*hang[^0-9]{0,120}([0-9][0-9.,\s]+)\s*(ty|trieu|dong|vnd|usd|billion|million)?";
        "operating\s*income[^0-9]{0,120}([0-9][0-9.,\s]+)\s*(billion|million|vnd|usd)?" ];
  rowPatterns :=
      [ "doanh\s*thu\s*thuan";
        "tong\s*thu\s*nhap\s*hoat\s*dong";
        "net\s*revenue";
        "total\s*operating\s*income";
        "doanh\s*thu\s*ban\s*hang" ];
  unitKind := "currency";
  minValue := Some 100%Q;
  maxValue := Some 60000%Q;
  urlKeywords := [ "bctc";
        "bao-cao-tai-chinh";
        "financial";
        "report";
        "kqkd" ];
  requiresPdf := true;
  ocrKeywords := [ "doanh thu";
        "doanh thu thuan";
        "revenue";
        "thu nhap" ]
|}.

Definition meta_steel_volume : KpiMeta := {|
  patterns := Some
      [ "san\s*luong\s*ban\s*hang\s*thep[^0-9]{0,40}([0-9][0-9.,\s]+)\s*(trieu|nghin|tan|ton|tons|million|thousand)?";
        "san\s*luong\s*thep[^0-9]{0,40}([0-9][0-9.,\s]+)\s*(trieu|nghin|tan|ton|tons|million|thousand)?";
        "steel\s*sales\s*volume[^0-9]{0,40}([0-9][0-9.,\s]+)\s*(million|thousand|ton|tons)?" ];
  primaryPatterns := None;
  fallbackPatterns := None;
  rowPatterns :=
      [ "san\s*luong\s*thep\s*ban";
        "san\s*luong\s*thep";
        "steel\s*sales\s*volume" ];
  unitKind := "volume";
  minValue := Some (1 # 10)%Q;
  maxValue := None;
  urlKeywords := [ "san-luong";
        "steel";
        "volume" ];
  requiresPdf := false;
  ocrKeywords := [ "san luong";
        "thep";
        "steel";
        "tan" ]
|}.

Definition meta_credit_yoy : KpiMeta := {|
  patterns := Some
      [ "tang\s*truong\s*tin\s*dung[^0-9%]{0,20}([0-9][0-9.,\s]+)\s*%?";
        "tang\s*truong\s*du\s*no[^0-9%]{0,20}([0-9][0-9.,\s]+)\s*%?";
        "tang\s*truong\s*cho\s*vay[^0-9%]{0,20}([0-9][0-9.,\s]+)\s*%?";
        "credit\s*growth[^0-9%]{0,20}([0-9][0-9.,\s]+)\s*%?";
        "loan\s*growth[^0-9%]{0,20}([0-9][0-9.,\s]+)\s*%?" ];
  primaryPatterns := None;
  fallbackPatterns := None;
  rowPatterns :=
      [ "tang\s*truong\s*tin\s*dung";
        "tang\s*truong\s*du\s*no";
        "tang\s*truong\s*cho\s*vay";
        "credit\s*growth";
        "loan\s*growth" ];
  unitKind := "percent";
  minValue := Some (-1 # 5)%Q;
  maxValue := None;
  urlKeywords := [ "bao-cao";
        "kqkd";
        "tai-chinh";
        "ket-qua-kinh-doanh";
        "tin-dung";
        "credit";
        "loan" ];
  requiresPdf := false;
  ocrKeywords := [ "tin dung";
        "credit";
        "loan" ]
|}.

Definition KPI_PATTERNS (key : string) : option KpiMeta :=
  if String.eqb key "stores" then Some meta_stores
  else if String.eqb key "rev" then Some meta_rev
  else if String.eqb key "steel_volume" then Some meta_steel_volume
  else if String.eqb key "credit_yoy" then Some meta_credit_yoy
  else None.

(* ===================================================================== *)
(** ** OCR scoring *)
(* ===================================================================== *)

(** [s.split(/\s+/)]. *)
Fixpoint splitRuns (s : string) (cur : string) (inRun : bool) : list string :=
  match s with
  | EmptyString => [cur]
  | String c r =>
      if Str.isSpace c
      then if inRun then splitRuns r "" true else cur :: splitRuns r "" true
      else splitRuns r (cur ++ String c EmptyString) false
  end.

Definition splitSpaces (s : string) : list string := splitRuns s "" false.

Definition keywordWeight (kw : string) : nat :=
  Nat.max 1 (length (splitSpaces (Str.trim kw))).

Fixpoint keywordScore (foldedText : string) (keywords : list string) : nat :=
  match keywords with
  | [] => 0
  | kw :: rest =>
      (if Str.includes foldedText kw then keywordWeight kw else 0)
      + keywordScore foldedText rest
  end.

Definition scoreOcrText (t : string) (keywords : list string) : nat :=
  let foldedText := foldAscii (Some t) in
  let digitScore := Nat.min 500 (Str.count Str.isDigit foldedText) in
  keywordScore foldedText keywords * 1000 + digitScore.

Record OcrOpts : Type := {
  o_maxPages : option nat;
  o_scale : option Q;
  o_langs : option string;
  o_engine : option string;
  o_rotateAngles : option (list Z);
  o_ocrKeywords : option (list string);
  o_requireKeywords : bool;
  o_debug : bool
}.

(** [x || d] for a string option. *)
Definition strOr (x : option string) (d : string) : string :=
  match x with
  | Some "" => d
  | Some v => v
  | None => d
  end.

Definition natOr (x : option nat) (d : nat) : nat :=
  match x with
  | Some O => d
  | Some v => v
  | None => d
  end.

Definition qOr (x : option Q) (d : Q) : Q :=
  match x with
  | Some v => if Qeq_bool v 0 then d else v
  | None => d
  end.

Definition rotateAnglesOf (opts : OcrOpts) : list Z :=
  let raw := match o_rotateAngles opts with
             | Some (a :: l) => a :: l
             | _ => [0%Z]
             end in
  if existsb (Z.eqb 0) raw then raw else 0%Z :: raw.

Definition keywordsOf (opts : OcrOpts) : list string := default [] (o_ocrKeywords opts).

Definition requireKeywordsOf (opts : OcrOpts) : bool :=
  o_requireKeywords opts && negb (Nat.eqb (length (keywordsOf opts)) 0).

(* ===================================================================== *)
(** ** Candidate scoring and ranking *)
(* ===================================================================== *)

Definition countIncluded (hay : string) (keywords : list string) : nat :=
  length (List.filter (Str.includes hay) keywords).

(** [s.match(/20(21|22|23|24|25)/)]. *)
Definition hasYearToken (s : string) : bool :=
  existsb (Str.includes s) ["2021"; "2022"; "2023"; "2024"; "2025"].

Definition baseUrlKeywords : list string :=
  [ "bao-cao"; "bctc"; "financial"; "report"; "kqkd"; "ket-qua-kinh-doanh";
    "quan-he-co-dong"; "investor"; "ir"; "quarter"; "quy" ].

Definition kpiUrlKeywords (kpiKey : string) : list string :=
  if String.eqb kpiKey "stores" then ["cua-hang"; "store"]
  else if String.eqb kpiKey "rev" then ["doanh-thu"; "revenue"]
  else if String.eqb kpiKey "steel_volume" then ["san-luong"; "thep"; "steel"]
  else if String.eqb kpiKey "credit_yoy" then ["tin-dung"; "credit"]
  else [].

Definition scoreUrl (u kpiKey : string) : nat :=
  let lower := Str.toLowerCase u in
  (if Str.includes lower ".pdf" then 4 else 0)
  + (if hasYearToken lower then 2 else 0)
  + 2 * countIncluded lower baseUrlKeywords
  + 2 * countIncluded lower (kpiUrlKeywords kpiKey)
  + (if Str.includes lower "q1" || Str.includes lower "q2"
        || Str.includes lower "q3" || Str.includes lower "q4" then 2 else 0).

Definition baseTextKeywords : list string :=
  [ "bao cao"; "bctc"; "financial"; "report"; "kqkd"; "ket qua kinh doanh";
    "quan he co dong"; "investor"; "ir"; "quarter"; "quy" ].

Definition kpiTextKeywords (kpiKey : string) : list string :=
  if String.eqb kpiKey "stores" then ["cua hang"; "store"]
  else if String.eqb kpiKey "rev" then ["doanh thu"; "revenue"; "thu nhap"]
  else if String.eqb kpiKey "steel_volume" then ["san luong"; "thep"; "steel"]
  else if String.eqb kpiKey "credit_yoy" then ["tin dung"; "credit"; "loan"]
  else [].

(** [/\bq[1-4]\b/]. *)
Definition quarterWord : Rx.rx :=
  Rx.seq [Rx.WordB; Rx.Lit false "q"; Rx.Chr (Rx.oneOf "1234"); Rx.WordB].

Definition scoreCandidate (item : Candidate) (kpiKey : string) : nat :=
  let score := scoreUrl (url item) kpiKey in
  let t := foldAscii (Some (anchor item)) in
  if Str.isEmpty t then score
  else
    score
    + (if hasYearToken t then 2 else 0)
    + (if Rx.test quarterWord t || Str.includes t "quy" then 2 else 0)
    + 2 * countIncluded t baseTextKeywords
    + 2 * countIncluded t (kpiTextKeywords kpiKey).

(** [dedupeEntries]: the first entry of each URL, entries without a URL
    dropped. *)
Fixpoint dedupeFrom (seen : gset string) (l : list Candidate) : list Candidate :=
  match l with
  | [] => []
  | item :: rest =>
      if Str.isEmpty (url item) then dedupeFrom seen rest
      else if bool_decide (url item ∈ seen) then dedupeFrom seen rest
      else item :: dedupeFrom ({[url item]} ∪ seen) rest
  end.

Definition dedupeEntries (l : list Candidate) : list Candidate := dedupeFrom ∅ l.

(** [Array.prototype.sort((a, b) => b.score - a.score)], which is stable:
    an entry goes in front of the first entry that does not score more. *)
Fixpoint insertByScore (x : Candidate * nat) (l : list (Candidate * nat))
    : list (Candidate * nat) :=
  match l with
  | [] => [x]
  | y :: r => if snd x <? snd y then y :: insertByScore x r else x :: y :: r
  end.

Fixpoint sortByScore (l : list (Candidate * nat)) : list (Candidate * nat) :=
  match l with
  | [] => []
  | x :: r => insertByScore x (sortByScore r)
  end.

Definition matchesKeyword (keywordList : list string) (item : Candidate) : bool :=
  let lower := foldAscii (Some (url item)) in
  let t := foldAscii (Some (anchor item)) in
  existsb (fun k => Str.includes lower k || Str.includes t k) keywordList.

Definition hasPdfSuffix (item : Candidate) : bool :=
  Str.includes (Str.toLowerCase (url item)) ".pdf".

Definition hasInferablePeriod (item : Candidate) : bool :=
  bool_decide (is_Some (inferPeriodFromString (Some (url item))))
  || bool_decide (is_Some (inferPeriodFromString (Some (anchor item)))).

Definition isNil {A : Type} (l : list A) : bool :=
  match l with [] => true | _ => false end.

(** Lines 938 to 961 of [autoFillSeries]: from the raw pool to the ranked
    list. *)
Definition rankCandidates (kpiMeta : KpiMeta) (kpiKey : string) (maxDocs : nat)
    (candidates : list Candidate) : list Candidate :=
  let keywordList := List.map (fun k => foldAscii (Some k)) (urlKeywords kpiMeta) in
  let candidates1 :=
    if negb (isNil keywordList) then
      let filtered := List.filter (matchesKeyword keywordList) candidates in
      if negb (isNil filtered) then filtered else candidates
    else candidates in
  let candidates2 :=
    if requiresPdf kpiMeta then
      let filtered := List.filter hasPdfSuffix candidates1 in
      if negb (isNil filtered) then filtered else candidates1
    else candidates1 in
  let withPeriod := List.filter hasInferablePeriod candidates2 in
  let candidates3 := if negb (isNil withPeriod) then withPeriod else candidates2 in
  List.map fst
    (take maxDocs
       (sortByScore
          (List.filter (fun item => 3 <=? snd item)
             (List.map (fun item => (item, scoreCandidate item kpiKey))
                (dedupeEntries candidates3))))).

(* ===================================================================== *)
(** ** Series and configuration *)
(* ===================================================================== *)

Record Point : Type := {
  period : string;
  value : option Q
}.

Definition Series : Type := list Point.

Definition blankSeries : Series :=
  List.map (fun p => {| period := p; value := None |}) PERIODS_Q.

(** [target = series.find(x => x.period === p); if (target) target.value = v]. *)
Fixpoint setValue (p : string) (v : option Q) (series : Series) : Series :=
  match series with
  | [] => []
  | x :: r =>
      if String.eqb (period x) p then {| period := period x; value := v |} :: r
      else x :: setValue p v r
  end.

Definition hasPoint (p : string) (series : Series) : bool :=
  existsb (fun x => String.eqb (period x) p) series.

(** The periods whose value is [null]. *)
Definition missingPeriods (series : Series) : list string :=
  List.map period (List.filter (fun x => bool_decide (value x = None)) series).

(** An explicit entry; an absent field is the empty string. *)
Record Entry : Type := {
  e_period : string;
  e_url : string;
  e_pattern : string
}.

Record DiscoverCfg : Type := {
  listUrl : string;
  linkPattern : string;
  periodGroup : option nat;
  max : option nat;
  valuePattern : string
}.

Record AutoCfg : Type := {
  enabled : option bool;
  maxDocs : option nat;
  maxSitemapUrls : option nat;
  maxListLinks : option nat;
  sitemaps : list string;
  listPages : list string;
  expandPdfFromHtml : option bool;
  expandFromFirst : option nat;
  expandMax : option nat;
  ocr : bool;
  ocrEnabled : bool;
  ocrEngine : option string;
  ocrMaxDocs : option Z;
  ocrMaxPages : option nat;
  ocrScale : option Q;
  ocrLangs : option string;
  ocrRequireKeywords : option bool;
  ocrRotate : bool;
  debug : bool
}.

Record Kpi : Type := {
  key : string;
  isRate : bool;
  series : Series;
  _cfg : list Entry;
  _discover : list DiscoverCfg;
  _auto : AutoCfg;
  _ticker : string
}.

(** The body of the loop of [buildCompany] for one KPI of the template.
    [auto] is the company's [auto] block overlaid with the KPI's. *)
Definition buildKpi (kpiKey : string) (rate : bool) (explicit : list Entry)
    (discover : list DiscoverCfg) (auto : AutoCfg) (ticker : string) : Kpi :=
  {| key := kpiKey; isRate := rate; series := blankSeries; _cfg := explicit;
     _discover := discover; _auto := auto; _ticker := ticker |}.

(** [x !== false]. *)
Definition notFalse (x : option bool) : bool := default true x.

Definition toAbsoluteWith (resolve : string -> string -> option string)
    (href baseUrl : string) : string :=
  default href (resolve href baseUrl).

Definition upperChar (c : ascii) : ascii :=
  if (97 <=? Str.code c) && (Str.code c <=? 122) then ascii_of_nat (Str.code c - 32) else c.

(** [/[^0-9Q]/g -> ""]. *)
Definition periodChar (c : ascii) : bool := Str.isDigit c || Str.eqc c "Q".

(** [text.split(/\r?\n/)]. *)
Fixpoint splitLines (s : string) (cur : string) : list string :=
  match s with
  | EmptyString => [cur]
  | String c r =>
      if Str.eqc c "010" then cur :: splitLines r ""
      else if Str.eqc c "013" then
        match r with
        | String d r' =>
            if Str.eqc d "010" then cur :: splitLines r' ""
            else splitLines r (cur ++ String c EmptyString)
        | EmptyString => [cur ++ String c EmptyString]
        end
      else splitLines r (cur ++ String c EmptyString)
  end.

Definition splitTextLines (t : string) : list string :=
  List.filter (fun line => negb (Str.isEmpty line)) (List.map Str.trim (splitLines t "")).

(** The loop over the tokens after a row label in [extractValueFromLines]. *)
Definition acceptToken (after uk : string) (lo hi : option Q) (token : string) : option Q :=
  match normalizeByUnit (normalizeNumber (Some token)) (Some "") (Some after) uk with
  | None => None
  | Some normalized =>
      if match lo with Some l => Qlt_bool normalized l | None => false end then None
      else if match hi with Some h => Qlt_bool h normalized | None => false end then None
      else Some normalized
  end.

(* ===================================================================== *)
(** ** The outside world and the run state *)
(* ===================================================================== *)

(** The state of one run: [DOCUMENT_CACHE], and the requests sent so far,
    most recent first. *)
Record World : Type := {
  cache : gmap string Document;
  requests : list string
}.

(** Everything the script reads from outside itself. *)
Record Env : Type := {
  (** [fetch(url)]: the response, or a network error. *)
  fetch : string -> result Response;
  (** [new PDFParse({data}).getText()]: the [text] field of the result. *)
  pdfGetText : Buffer -> result (option string);
  (** [new RegExp(pattern, flags)] does not throw. *)
  regexValid : string -> bool;
  (** The successive results of [new RegExp(pattern, "ig").exec(text)] up
      to the first [null].  A pattern that matches the empty string makes
      the source loop for ever and has no image here. *)
  regexExecAll : string -> string -> list RegexMatch;
  (** [new URL(href, base).toString()], [None] when it throws. *)
  resolveUrl : string -> string -> option string;
  (** The path [findTesseractBinary] settles on. *)
  tesseractBinary : option string;
  (** The canvas rotation of [rotateImageBuffer] for a non-zero angle. *)
  rotateCanvas : Image -> Z -> result Image;
  (** [spawnSync(bin, [imgPath, "stdout", "-l", langs, "--psm", "6"])]. *)
  spawnTesseract : string -> Image -> string -> SpawnResult;
  (** [renderPdfPages(buffer, {maxPages, scale})]. *)
  renderPdfPages : Buffer -> nat -> Q -> result (list Page);
  (** [createWorker(langs)] of the in-process engine. *)
  createWorker : string -> result unit;
  (** [worker.recognize(image)]: the [data.text] field. *)
  recognize : string -> Image -> result (option string);
  (** The sitemap and listing-page crawl at the head of [autoFillSeries],
      for a ticker and its [auto] block: the raw pool of candidates.  It
      reads the network and may add documents to the cache; it catches its
      own failures. *)
  crawl : string -> AutoCfg -> World -> World * list Candidate
}.

Definition M (A : Type) : Type := World -> World * result A.

Definition ret {A : Type} (a : A) : M A := fun w => (w, Ok a).

Definition throw {A : Type} (msg : string) : M A := fun w => (w, Throw msg).

Definition bind {A B : Type} (m : M A) (k : A -> M B) : M B :=
  fun w =>
    match m w with
    | (w', Ok a) => k a w'
    | (w', Throw e) => (w', Throw e)
    end.

(** [try { m } catch (e) { h e }]. *)
Definition tryCatch {A : Type} (m : M A) (h : string -> M A) : M A :=
  fun w =>
    match m w with
    | (w', Ok a) => (w', Ok a)
    | (w', Throw e) => h e w'
    end.

Definition lift {A : Type} (r : result A) : M A := fun w => (w, r).

Declare Scope scraper_scope.
Delimit Scope scraper_scope with scraper.
Notation "x <- m ;; k" := (bind m (fun x => k))
  (at level 100, m at next level, right associativity) : scraper_scope.
Notation "m ;;; k" := (bind m (fun _ => k))
  (at level 100, right associativity) : scraper_scope.

(* ===================================================================== *)
(** ** Vocabulary of the statements *)
(* ===================================================================== *)

Definition dots (s : string) : nat := Str.count isDot s.
Definition commas (s : string) : nat := Str.count isComma s.



Definition startsWithDigit (w : string) : bool :=
  match w with
  | String c _ => Str.isDigit c
  | EmptyString => false
  end.

(** A capture made of digits, dots, commas and white space, each of whose
    words starts with a digit. *)
Definition numericCapture (raw : string) : Prop :=
  Str.all (fun c => isTokenChar c || Str.isSpace c) raw = true
  /\ Forall (fun w => startsWithDigit w = true) (Str.words raw).

Definition startsWithTokenChar (s : string) : bool :=
  match s with
  | String c _ => isTokenChar c
  | EmptyString => false
  end.

(** [toks] are, from left to right, the runs of [raw] that start at a digit
    and go on with digits, dots and commas as far as they can: what lies
    before and between them holds no digit, and what follows a run does not
    start with a digit, a dot or a comma. *)
Inductive tokenRuns : string -> list string -> Prop :=
| runs_none (gap : string) :
    Str.count Str.isDigit gap = 0 -> tokenRuns gap []
| runs_token (gap t rest : string) (toks : list string) :
    Str.count Str.isDigit gap = 0 ->
    startsWithDigit t = true -> Str.all isTokenChar t = true ->
    startsWithTokenChar rest = false ->
    tokenRuns rest toks ->
    tokenRuns (gap ++ t ++ rest) (t :: toks).

(** The minimum the claim gives for each unit kind. *)
Definition threshold (kind : string) : nat :=
  if String.eqb kind "currency" then 6
  else if String.eqb kind "volume" then 2
  else 1.

Definition has (s word : string) : bool := Str.includes s word.

(** None of the unit words the currency branch reads. *)
Definition noScaleWord (s : string) : Prop :=
  has s "billion" = false /\ has s "ty" = false
  /\ has s "million" = false /\ has s "trieu" = false.

(** Equality up to the case of ASCII letters. *)
Definition sameFolded (a b : string) : Prop := Str.toLowerCase a = Str.toLowerCase b.

(** [kw], white space, [lit] at the start of [s], letters in any case. *)
Definition markerPrefix (kw lit s : string) : Prop :=
  exists kw' ws lit' post,
    s = kw' ++ ws ++ lit' ++ post
    /\ sameFolded kw' kw /\ Str.all Str.isSpace ws = true /\ sameFolded lit' lit.

(** The Roman form of a quarter: i, ii, iii and iv for the quarters 1
    to 4. *)
Definition romanForm (q r : string) : Prop :=
  (q = "1" /\ r = "i") \/ (q = "2" /\ r = "ii")
  \/ (q = "3" /\ r = "iii") \/ (q = "4" /\ r = "iv").

(** The window holds a quarter marker for quarter digit [q]: [q n],
    [quy n] or [quy] with the Roman form of the quarter, white space
    allowed before the number. *)
Definition holdsQuarterMarker (q window : string) : Prop :=
  exists pre suf,
    window = pre ++ suf
    /\ (markerPrefix "q" q suf \/ markerPrefix "quy" q suf
        \/ exists r, romanForm q r /\ markerPrefix "quy" r suf).

Definition holds (word window : string) : Prop :=
  exists pre post, window = pre ++ word ++ post.

(** The characters of [t] from 180 before position [index] to 260 after
    it. *)
Definition windowChars (t : string) (index : nat) : string :=
  Str.take (index + 260 - (index - 180)) (Str.drop (index - 180) t).

(** A filter that is applied only when something passes it. *)
Definition stage {A : Type} (passes : A -> bool) (pool : list A) : list A :=
  if existsb passes pool then List.filter passes pool else pool.

Definition scoresAtLeast (kpiKey : string) (a b : Candidate) : Prop :=
  scoreCandidate b kpiKey <= scoreCandidate a kpiKey.

Definition sndAtLeast (a b : Candidate * nat) : Prop := snd b <= snd a.

(** Every point of [s] that holds a value is the same point of [s']. *)
Definition kept (s s' : Series) : Prop :=
  forall i pt, s !! i = Some pt -> value pt <> None -> s' !! i = Some pt.

(* ===================================================================== *)
(** ** A sample run *)
(* ===================================================================== *)

(** A small investor-relations site, the expressions its pages are
    matched against, and an OCR binary, used to run the definitions. *)
Module Sample.

Definition site : list (string * string) :=
  [ ("https://ir.example.vn/2025q4-stores.html",
     "<html><body><p>So cua hang: 412</p></body></html>");
    ("https://ir.example.vn/2025q4-restated.html",
     "<p>So cua hang: 398</p>");
    ("https://ir.example.vn/2025q4-notice.html",
     "<p>Thong bao lich nghi le</p>");
    ("https://ir.example.vn/bao-cao-2025q3-cua-hang.html",
     "<h1>Bao cao quy 3 nam 2025</h1><p>So cua hang: 405</p>") ].

Fixpoint assoc {A : Type} (k : string) (l : list (string * A)) : option A :=
  match l with
  | [] => None
  | (k', v) :: r => if String.eqb k k' then Some v else assoc k r
  end.

Definition fetchSite (u : string) : result Response :=
  match assoc u site with
  | Some body => Ok {| res_ok := true; res_status := 200; res_statusText := "OK";
                       res_body := body |}
  | None => Ok {| res_ok := false; res_status := 404; res_statusText := "Not Found";
                  res_body := "" |}
  end.

Definition notDigit (c : ascii) : bool := negb (Str.isDigit c).

(** [so\s*cua\s*hang\D+(\d+)], the shape of pattern the header of the
    script shows for an explicit entry. *)
Definition entryPattern : string := "so\s*cua\s*hang\D+(\d+)".

Definition entryRx : Rx.rx :=
  Rx.seq [Rx.Lit true "so"; Rx.spaces; Rx.Lit true "cua"; Rx.spaces; Rx.Lit true "hang";
          Rx.plus notDigit; Rx.Grp 1 (Rx.plus Str.isDigit)].

(** [so\s*cua\s*hang[^0-9]{0,20}([0-9][0-9.,\s]+)], the first pattern of
    the [stores] bank. *)
Definition storesPattern : string := "so\s*cua\s*hang[^0-9]{0,20}([0-9][0-9.,\s]+)".

Definition storesRx : Rx.rx :=
  Rx.seq [Rx.Lit true "so"; Rx.spaces; Rx.Lit true "cua"; Rx.spaces; Rx.Lit true "hang";
          Rx.Upto 20 notDigit;
          Rx.Grp 1 (Rx.Seq (Rx.Chr Str.isDigit)
                       (Rx.plus (fun c => Str.isDigit c || Rx.oneOf ".," c || Str.isSpace c)))].

Definition compiled : list (string * Rx.rx) :=
  [ (entryPattern, entryRx); (storesPattern, storesRx) ].

(** Every pattern string is taken as well formed; the ones that are not
    in [compiled] find nothing in the pages of [site]. *)
Definition execSite (pattern t : string) : list RegexMatch :=
  match assoc pattern compiled with
  | Some r => Rx.execAll (S (String.length t)) 1 r None 0 t
  | None => []
  end.

(** The page images are named; a rotation appends the angle to the name. *)
Definition rotateNamed (img : Image) (angle : Z) : result Image :=
  Ok (img ++ "@" ++ pretty angle).

(** What the binary reads on each image: the upright scan of [page-7]
    holds only a page number and a figure, its rotations are blank. *)
Definition scans : list (string * string) :=
  [ ("page-7", "Trang 7   12 345");
    ("page-7@90", "");
    ("page-7@180", "");
    ("page-7@270", "");
    ("page-8", "x");
    ("page-8@90", "Doanh thu thuan 8.235.606 ty");
    ("page-8@180", "8 235 606");
    ("page-8@270", "") ].

Definition readScan (bin : string) (img : Image) (langs : string) : SpawnResult :=
  match assoc img scans with
  | Some out => {| sp_status := Some 0%Z; sp_stdout := out; sp_stderr := "" |}
  | None => {| sp_status := Some 1%Z; sp_stdout := ""; sp_stderr := "cannot read image" |}
  end.

Definition crawlSite (ticker : string) (autoCfg : AutoCfg) (w : World)
    : World * list Candidate :=
  (w, [ {| url := "https://ir.example.vn/bao-cao-2025q3-cua-hang.html";
           anchor := "Bao cao quy 3 nam 2025" |};
        {| url := "https://ir.example.vn/2025q4-stores.html"; anchor := "" |};
        {| url := "https://ir.example.vn/lien-he.html"; anchor := "Lien he" |} ]).

Definition env : Env := {|
  fetch := fetchSite;
  pdfGetText := fun _ => Throw "not a PDF";
  regexValid := fun _ => true;
  regexExecAll := execSite;
  resolveUrl := fun href _ => Some href;
  tesseractBinary := Some "/usr/bin/tesseract";
  rotateCanvas := rotateNamed;
  spawnTesseract := readScan;
  renderPdfPages := fun _ _ _ => Ok [];
  createWorker := fun _ => Ok tt;
  recognize := fun _ _ => Ok None;
  crawl := crawlSite
|}.

(** [n] characters of running text with no digit and no letter [q]. *)
Fixpoint filler (n : nat) : string :=
  match n with
  | O => EmptyString
  | S n' => String "." (filler n')
  end.

Definition emptyWorld : World := {| cache := ∅; requests := [] |}.

Definition autoOff : AutoCfg := {|
  enabled := Some false; maxDocs := None; maxSitemapUrls := None; maxListLinks := None;
  sitemaps := []; listPages := []; expandPdfFromHtml := None; expandFromFirst := None;
  expandMax := None; ocr := false; ocrEnabled := false; ocrEngine := None;
  ocrMaxDocs := None; ocrMaxPages := None; ocrScale := None; ocrLangs := None;
  ocrRequireKeywords := None; ocrRotate := false; debug := false
|}.

Definition autoOn : AutoCfg := {|
  enabled := None; maxDocs := None; maxSitemapUrls := None; maxListLinks := None;
  sitemaps := []; listPages := []; expandPdfFromHtml := None; expandFromFirst := None;
  expandMax := None; ocr := false; ocrEnabled := false; ocrEngine := None;
  ocrMaxDocs := None; ocrMaxPages := None; ocrScale := None; ocrLangs := None;
  ocrRequireKeywords := None; ocrRotate := false; debug := false
|}.

Definition entry (u : string) : Entry :=
  {| e_period := "2025Q4"; e_url := u; e_pattern := entryPattern |}.

Definition stores (s : Series) (entries : list Entry) (autoCfg : AutoCfg) : Kpi := {|
  key := "stores"; isRate := false; series := s; _cfg := entries; _discover := [];
  _auto := autoCfg; _ticker := "PNJ"
|}.

End Sample.

Section Scraper.

Variable E : Env.

Local Open Scope scraper_scope.

(* ------------------------------------------------------------------- *)
(** *** Pattern extraction *)

Fixpoint extractValueFromText (foldedText : string) (patterns : list string)
    (unitKind : string) (minValue maxValue : option Q) (period : option string)
    (strictPeriod : bool) : result (option Q) :=
  match patterns with
  | [] => Ok None
  | pattern :: rest =>
      if negb (regexValid E pattern) then Throw "Invalid regular expression"
      else
        match firstAccepted
                (acceptMatch foldedText unitKind minValue maxValue period strictPeriod)
                (regexExecAll E pattern foldedText) with
        | Some v => Ok (Some v)
        | None =>
            extractValueFromText foldedText rest unitKind minValue maxValue period
                                 strictPeriod
        end
  end.

(* ------------------------------------------------------------------- *)
(** *** Document acquisition and cache *)

Definition fetchBuffer (u : string) : M Buffer :=
  fun w =>
    let w' := {| cache := cache w; requests := u :: requests w |} in
    match fetch E u with
    | Throw e => (w', Throw e)
    | Ok res =>
        if res_ok res then (w', Ok (res_body res))
        else (w', Throw ("Fetch failed " ++ pretty (res_status res) ++ " "
                           ++ res_statusText res))
    end.

Definition cacheSet (u : string) (d : Document) : M unit :=
  fun w => ({| cache := <[u := d]> (cache w); requests := requests w |}, Ok tt).

(** The part of [fetchDocument] after the download. *)
Definition parseDocument (u : string) (buf : Buffer) : result Document :=
  if isPdf u then
    match pdfGetText E buf with
    | Throw e => Throw e
    | Ok parsed =>
        let t := orEmpty parsed in
        Ok {| text := t; folded := foldText t; buffer := buf; isPdfDoc := true; html := "" |}
    end
  else
    let t := stripHtml buf in
    Ok {| text := t; folded := foldText t; buffer := buf; isPdfDoc := false; html := buf |}.

Definition fetchDocument (u : string) : M Document :=
  fun w =>
    match cache w !! u with
    | Some d => (w, Ok d)
    | None =>
        (buf <- fetchBuffer u ;;
         payload <- lift (parseDocument u buf) ;;
         cacheSet u payload ;;;
         ret payload) w
    end.

(* ------------------------------------------------------------------- *)
(** *** OCR fallback chain *)

Definition rotateImageBuffer (img : Image) (angle : Z) : result Image :=
  if (angle =? 0)%Z then Ok img else rotateCanvas E img angle.

(** The loop over the rotation angles of one page in [ocrWithCli]:
    the [bestText] it ends with. *)
Fixpoint rotationLoop (bin langs : string) (keywords : list string)
    (requireKeywords : bool) (page : Page) (angles : list Z)
    (bestText : string) (bestScore : Z) : result string :=
  match angles with
  | [] => Ok bestText
  | angle :: rest =>
      match rotateImageBuffer (image page) angle with
      | Throw e => Throw e
      | Ok rotated =>
          let r := spawnTesseract E bin rotated langs in
          if negb (bool_decide (sp_status r = Some 0%Z))
          then Throw (strOr (Some (Str.trim (sp_stderr r))) "tesseract failed")
          else
            let outText := sp_stdout r in
            let score := Z.of_nat (scoreOcrText outText keywords) in
            if requireKeywords && (score <? 1000)%Z && (angle =? 0)%Z
            then rotationLoop bin langs keywords requireKeywords page rest bestText bestScore
            else
              let better := (bestScore <? score)%Z in
              let bestText' := if better then outText else bestText in
              let bestScore' := if better then score else bestScore in
              if (angle =? 0)%Z && (1000 <=? score)%Z then Ok bestText'
              else rotationLoop bin langs keywords requireKeywords page rest
                                bestText' bestScore'
      end
  end.

(** The text one page adds: [bestText] of the loop started at [""] and
    [-1]. *)
Definition pageText (bin langs : string) (keywords : list string)
    (requireKeywords : bool) (angles : list Z) (page : Page) : result string :=
  rotationLoop bin langs keywords requireKeywords page angles "" (-1)%Z.

Fixpoint cliPages (bin langs : string) (keywords : list string)
    (requireKeywords : bool) (angles : list Z) (pages : list Page) (acc : string)
    : result string :=
  match pages with
  | [] => Ok acc
  | page :: rest =>
      match pageText bin langs keywords requireKeywords angles page with
      | Throw e => Throw e
      | Ok bestText =>
          cliPages bin langs keywords requireKeywords angles rest
                   (acc ++ String "010" bestText)
      end
  end.

Definition ocrWithCli (pages : list Page) (opts : OcrOpts) : result (option string) :=
  match tesseractBinary E with
  | None => Ok None
  | Some bin =>
      let langs := strOr (o_langs opts) "eng" in
      match cliPages bin langs (keywordsOf opts) (requireKeywordsOf opts)
                     (rotateAnglesOf opts) pages "" with
      | Throw e => Throw e
      | Ok t => Ok (Some t)
      end
  end.

Fixpoint jsPages (langs : string) (pages : list Page) (acc : string) : result string :=
  match pages with
  | [] => Ok acc
  | page :: rest =>
      match recognize E langs (image page) with
      | Throw e => Throw e
      | Ok t => jsPages langs rest (acc ++ String "010" (orEmpty t))
      end
  end.

Definition ocrWithJs (pages : list Page) (opts : OcrOpts) : result string :=
  let langs := strOr (o_langs opts) "eng+vie" in
  match createWorker E langs with
  | Throw e => Throw e
  | Ok _ => jsPages langs pages ""
  end.

Definition cliOrThrow (pages : list Page) (opts : OcrOpts) : result string :=
  match ocrWithCli pages opts with
  | Throw e => Throw e
  | Ok None => Throw "Tesseract CLI not available."
  | Ok (Some t) => Ok t
  end.

Definition ocrPdfBuffer (buf : Buffer) (opts : OcrOpts) : result string :=
  let engine := strOr (o_engine opts) "auto" in
  match renderPdfPages E buf (natOr (o_maxPages opts) 2)
                       (qOr (o_scale opts) (8 # 5)) with
  | Throw e => Throw e
  | Ok pages =>
      if Nat.eqb (length pages) 0 then Ok ""
      else
        let canUseCli := tesseractBinary E in
        if String.eqb engine "js" then ocrWithJs pages opts
        else if String.eqb engine "cli" then
          match canUseCli with
          | None => ocrWithJs pages opts
          | Some _ => cliOrThrow pages opts
          end
        else
          match canUseCli with
          | Some _ => cliOrThrow pages opts
          | None => ocrWithJs pages opts
          end
  end.

(* ------------------------------------------------------------------- *)
(** *** Row-anchored extraction *)

(** The body of the loop over the row expressions for one folded line. *)
Definition rowValue (foldedLine uk : string) (lo hi : option Q) (p : string) : option Q :=
  match head (regexExecAll E p foldedLine) with
  | None => None
  | Some m =>
      let after :=
        Str.sliceFrom foldedLine
          (Z.of_nat (m_index m + String.length (orEmpty (group m 0)))) in
      firstAccepted (acceptToken after uk lo hi) (numberTokens after)
  end.

Definition extractValueFromLines (lines : list string) (rows : list string)
    (uk : string) (lo hi : option Q) : result (option Q) :=
  if isNil lines || isNil rows then Ok None
  else if negb (forallb (regexValid E) rows) then Throw "Invalid regular expression"
  else
    Ok (firstAccepted
          (fun line => firstAccepted (rowValue (foldText line) uk lo hi) rows)
          lines).

(* ------------------------------------------------------------------- *)
(** *** Discovery of entries from a listing page *)

Definition toAbsolute (href baseUrl : string) : string :=
  toAbsoluteWith (resolveUrl E) href baseUrl.

(** The [while] loop of [discoverEntries] over the matches of one
    listing page. *)
Fixpoint discoverMatches (d : DiscoverCfg) (limit : nat) (ms : list RegexMatch)
    (seen : gset string) (entries : list Entry) : list Entry :=
  match ms with
  | [] => entries
  | m :: rest =>
      let href := orEmpty (group m 0) in
      let abs := toAbsolute href (listUrl d) in
      let periodToken := Str.map upperChar (orEmpty (group m (default 1 (periodGroup d)))) in
      let normalized := Str.filter periodChar periodToken in
      let fresh := isPeriod normalized && negb (bool_decide (normalized ∈ seen)) in
      let entries' :=
        if fresh
        then (entries ++ [ {| e_period := normalized; e_url := abs;
                              e_pattern := valuePattern d |} ])%list
        else entries in
      let seen' := if fresh then {[normalized]} ∪ seen else seen in
      if limit <=? length entries' then entries'
      else discoverMatches d limit rest seen' entries'
  end.

Fixpoint discoverEntriesFrom (discoverCfg : list DiscoverCfg) (entries : list Entry)
    : M (list Entry) :=
  match discoverCfg with
  | [] => ret entries
  | d :: rest =>
      if Str.isEmpty (listUrl d) || Str.isEmpty (linkPattern d)
         || Str.isEmpty (valuePattern d)
      then discoverEntriesFrom rest entries
      else
        entries' <-
          tryCatch
            (htmlBuf <- fetchBuffer (listUrl d) ;;
             if negb (regexValid E (linkPattern d)) then throw "Invalid regular expression"
             else ret (discoverMatches d (default 6 (max d))
                         (regexExecAll E (linkPattern d) htmlBuf) ∅ entries))
            (fun _ => ret entries) ;;
        discoverEntriesFrom rest entries'
  end.

Definition discoverEntries (discoverCfg : list DiscoverCfg) : M (list Entry) :=
  discoverEntriesFrom discoverCfg [].

(* ------------------------------------------------------------------- *)
(** *** Automatic search *)

Definition ocrOptsOf (kpiMeta : KpiMeta) (autoCfg : AutoCfg) : OcrOpts :=
  {| o_maxPages := Some (natOr (ocrMaxPages autoCfg) 2);
     o_scale := Some (qOr (ocrScale autoCfg) (8 # 5));
     o_langs := Some (strOr (ocrLangs autoCfg) "eng+vie");
     o_engine := Some (strOr (ocrEngine autoCfg) "auto");
     o_rotateAngles := Some (if ocrRotate autoCfg then [0; 90; 180; 270]%Z else [0%Z]);
     o_ocrKeywords := Some (ocrKeywords kpiMeta);
     o_requireKeywords := notFalse (ocrRequireKeywords autoCfg);
     o_debug := debug autoCfg |}.

Definition ocrEnabledOf (autoCfg : AutoCfg) : bool := ocr autoCfg || ocrEnabled autoCfg.

(** What the OCR of one candidate has produced so far ([ocrText]) and how
    many OCR runs are left ([ocrRemaining]). *)
Definition OcrState : Type := (option string * Z)%type.

Definition ensureOcr (kpiMeta : KpiMeta) (autoCfg : AutoCfg) (doc : Document)
    (st : OcrState) : result OcrState :=
  let '(ocrText, ocrRemaining) := st in
  if negb (ocrEnabledOf autoCfg) || negb (isPdfDoc doc) || (ocrRemaining <=? 0)%Z
  then Ok st
  else
    match ocrText with
    | Some _ => Ok st
    | None =>
        match ocrPdfBuffer (buffer doc) (ocrOptsOf kpiMeta autoCfg) with
        | Throw e => Throw e
        | Ok t => Ok (Some t, (ocrRemaining - 1)%Z)
        end
    end.

(** [ocrFolded], when it is a non-empty string. *)
Definition ocrFoldedOf (st : OcrState) : option string :=
  match fst st with
  | Some t => let f := foldText t in if Str.isEmpty f then None else Some f
  | None => None
  end.

Definition primaryOf (kpiMeta : KpiMeta) : list string :=
  match primaryPatterns kpiMeta with
  | Some l => l
  | None => default [] (patterns kpiMeta)
  end.

Definition fallbackOf (kpiMeta : KpiMeta) : list string :=
  default [] (fallbackPatterns kpiMeta).

(** Primary patterns, then the fallback patterns when they gave nothing
    and there are some. *)
Definition extractBoth (kpiMeta : KpiMeta) (foldedText : string) (p : string)
    (strict : bool) : result (option Q) :=
  match extractValueFromText foldedText (primaryOf kpiMeta) (unitKind kpiMeta)
          (minValue kpiMeta) (maxValue kpiMeta) (Some p) strict with
  | Throw e => Throw e
  | Ok (Some v) => Ok (Some v)
  | Ok None =>
      if isNil (fallbackOf kpiMeta) then Ok None
      else extractValueFromText foldedText (fallbackOf kpiMeta) (unitKind kpiMeta)
             (minValue kpiMeta) (maxValue kpiMeta) (Some p) strict
  end.

(** The inner [try] of the OCR retry: the state of the OCR afterwards and
    the value, [None] when something in it threw. *)
Definition ocrRetry (kpiMeta : KpiMeta) (autoCfg : AutoCfg) (doc : Document)
    (p : string) (st : OcrState) : OcrState * option Q :=
  match ensureOcr kpiMeta autoCfg doc st with
  | Throw _ => (st, None)
  | Ok st' =>
      let fromText :=
        match ocrFoldedOf st' with
        | Some f => extractBoth kpiMeta f p false
        | None => Ok None
        end in
      match fromText with
      | Throw _ => (st', None)
      | Ok (Some v) => (st', Some v)
      | Ok None =>
          match fst st' with
          | Some t =>
              if Str.isEmpty t then (st', None)
              else
                match extractValueFromLines (splitTextLines t) (rowPatterns kpiMeta)
                        (unitKind kpiMeta) (minValue kpiMeta) (maxValue kpiMeta) with
                | Throw _ => (st', None)
                | Ok v => (st', v)
                end
          | None => (st', None)
          end
      end
  end.

(** The extraction attempts of one candidate once its period is known,
    in the order of the source. *)
Definition extractForPeriod (kpiMeta : KpiMeta) (autoCfg : AutoCfg) (doc : Document)
    (periodFromUrl : option string) (p : string) (st : OcrState)
    : OcrState * result (option Q) :=
  match extractBoth kpiMeta (folded doc) p true with
  | Throw e => (st, Throw e)
  | Ok strictValue =>
      let relaxed :=
        match strictValue, periodFromUrl with
        | None, Some _ => extractBoth kpiMeta (folded doc) p false
        | _, _ => Ok strictValue
        end in
      match relaxed with
      | Throw e => (st, Throw e)
      | Ok (Some v) => (st, Ok (Some v))
      | Ok None =>
          if ocrEnabledOf autoCfg && isPdfDoc doc && (0 <? snd st)%Z
          then let '(st', v) := ocrRetry kpiMeta autoCfg doc p st in (st', Ok v)
          else (st, Ok None)
      end
  end.

(** The state the candidate loop carries. *)
Record AutoState : Type := {
  a_series : Series;
  a_missing : gset string;
  a_ocrRemaining : Z
}.

Definition orElse {A : Type} (x y : option A) : option A :=
  match x with Some _ => x | None => y end.

(** The [try] block for one candidate: the state after it.  An exception
    leaves the series and the missing set as they were. *)
Definition autoItem (kpiMeta : KpiMeta) (autoCfg : AutoCfg) (item : Candidate)
    (a : AutoState) : M AutoState :=
  fun w =>
    let periodFromUrl := inferPeriodFromString (Some (url item)) in
    let periodFromText := inferPeriodFromString (Some (anchor item)) in
    if match periodFromUrl with
       | Some p => negb (bool_decide (p ∈ a_missing a))
       | None => false
       end
    then (w, Ok a)
    else
      match fetchDocument (url item) w with
      | (w1, Throw e) => (w1, Ok a)
      | (w1, Ok doc) =>
          let period0 :=
            orElse periodFromUrl (orElse periodFromText (inferPeriodFromText (folded doc))) in
          let st0 : OcrState := (None, a_ocrRemaining a) in
          let early :=
            match period0 with
            | None =>
                if ocrEnabledOf autoCfg && isPdfDoc doc
                then match ensureOcr kpiMeta autoCfg doc st0 with
                     | Throw e => Throw e
                     | Ok st1 =>
                         Ok (st1, match ocrFoldedOf st1 with
                                  | Some f => inferPeriodFromText f
                                  | None => None
                                  end)
                     end
                else Ok (st0, None)
            | Some _ => Ok (st0, period0)
            end in
          match early with
          | Throw _ => (w1, Ok a)
          | Ok (st1, None) =>
              (w1, Ok {| a_series := a_series a; a_missing := a_missing a;
                         a_ocrRemaining := snd st1 |})
          | Ok (st1, Some p) =>
              if negb (bool_decide (p ∈ a_missing a))
              then (w1, Ok {| a_series := a_series a; a_missing := a_missing a;
                              a_ocrRemaining := snd st1 |})
              else
                match extractForPeriod kpiMeta autoCfg doc periodFromUrl p st1 with
                | (st2, Ok (Some v)) =>
                    if hasPoint p (a_series a)
                    then (w1, Ok {| a_series := setValue p (Some v) (a_series a);
                                    a_missing := a_missing a ∖ {[p]};
                                    a_ocrRemaining := snd st2 |})
                    else (w1, Ok {| a_series := a_series a; a_missing := a_missing a;
                                    a_ocrRemaining := snd st2 |})
                | (st2, _) =>
                    (w1, Ok {| a_series := a_series a; a_missing := a_missing a;
                               a_ocrRemaining := snd st2 |})
                end
          end
      end.

(** The [for] loop over the ranked candidates, left as soon as nothing
    is missing. *)
Fixpoint autoLoop (kpiMeta : KpiMeta) (autoCfg : AutoCfg) (candidates : list Candidate)
    (a : AutoState) : M AutoState :=
  match candidates with
  | [] => ret a
  | item :: rest =>
      if bool_decide (a_missing a = ∅) then ret a
      else a' <- autoItem kpiMeta autoCfg item a ;; autoLoop kpiMeta autoCfg rest a'
  end.

Definition autoFillSeries (kpi : Kpi) : M Series :=
  match KPI_PATTERNS (key kpi) with
  | None => ret (series kpi)
  | Some kpiMeta =>
      let autoCfg := _auto kpi in
      raw <- (fun w => let '(w', pool) := crawl E (_ticker kpi) autoCfg w in (w', Ok pool)) ;;
      let candidates := rankCandidates kpiMeta (key kpi) (natOr (maxDocs autoCfg) 80) raw in
      a <- autoLoop kpiMeta autoCfg candidates
             {| a_series := series kpi;
                a_missing := list_to_set (missingPeriods (series kpi));
                a_ocrRemaining := default 8%Z (ocrMaxDocs autoCfg) |} ;;
      ret (a_series a)
  end.

(* ------------------------------------------------------------------- *)
(** *** Hydration *)

Definition unitKindOf (kpi : Kpi) : string :=
  match KPI_PATTERNS (key kpi) with
  | Some meta => strOr (Some (unitKind meta)) (if isRate kpi then "percent" else "count")
  | None => if isRate kpi then "percent" else "count"
  end.

Definition minValueOf (kpi : Kpi) : option Q :=
  match KPI_PATTERNS (key kpi) with Some meta => minValue meta | None => None end.

Definition maxValueOf (kpi : Kpi) : option Q :=
  match KPI_PATTERNS (key kpi) with Some meta => maxValue meta | None => None end.

(** The body of the loop over the explicit entries.  [extractValueFromText]
    is called without [opts], so [strictPeriod] is [true], and with
    [null] for the period. *)
Definition hydrateEntry (kpi : Kpi) (entry : Entry) (s : Series) : M Series :=
  if negb (isPeriod (e_period entry)) then ret s
  else if Str.isEmpty (e_url entry) || Str.isEmpty (e_pattern entry) then ret s
  else
    tryCatch
      (doc <- fetchDocument (e_url entry) ;;
       v <- lift (extractValueFromText (folded doc) [e_pattern entry] (unitKindOf kpi)
                    (minValueOf kpi) (maxValueOf kpi) None true) ;;
       ret (setValue (e_period entry) v s))
      (fun _ => ret s).

Fixpoint hydrateEntries (kpi : Kpi) (entries : list Entry) (s : Series) : M Series :=
  match entries with
  | [] => ret s
  | entry :: rest => s' <- hydrateEntry kpi entry s ;; hydrateEntries kpi rest s'
  end.

Definition withSeries (kpi : Kpi) (s : Series) : Kpi :=
  {| key := key kpi; isRate := isRate kpi; series := s; _cfg := _cfg kpi;
     _discover := _discover kpi; _auto := _auto kpi; _ticker := _ticker kpi |}.

Definition hydrateSeries (kpi : Kpi) : M Series :=
  cfg <- (if isNil (_cfg kpi) && negb (isNil (_discover kpi))
          then discovered <- discoverEntries (_discover kpi) ;; ret (_cfg kpi ++ discovered)%list
          else ret (_cfg kpi)) ;;
  s <- hydrateEntries kpi cfg (series kpi) ;;
  if notFalse (enabled (_auto kpi)) && negb (isNil (missingPeriods s))
  then autoFillSeries (withSeries kpi s)
  else ret s.

(* ------------------------------------------------------------------- *)
(** *** Vocabulary of the statements *)

(** What a download of [u] gives: the parsed document or the error. *)
Definition download (u : string) : result Document :=
  match fetch E u with
  | Throw e => Throw e
  | Ok res =>
      if res_ok res then parseDocument u (res_body res)
      else Throw ("Fetch failed " ++ pretty (res_status res) ++ " " ++ res_statusText res)
  end.

(** A run of calls to [fetchDocument], results dropped. *)
Fixpoint fetchMany (us : list string) (w : World) : World :=
  match us with
  | [] => w
  | u :: rest => fetchMany rest (fst (fetchDocument u w))
  end.

(** The number of requests sent for [u]. *)
Definition requestsFor (u : string) (w : World) : nat :=
  length (List.filter (String.eqb u) (requests w)).

(** What the binary reads on the page turned by [angle]. *)
Definition ocrAt (bin langs : string) (page : Page) (angle : Z) : result string :=
  match rotateImageBuffer (image page) angle with
  | Throw e => Throw e
  | Ok rotated =>
      let r := spawnTesseract E bin rotated langs in
      if bool_decide (sp_status r = Some 0%Z) then Ok (sp_stdout r)
      else Throw (strOr (Some (Str.trim (sp_stderr r))) "tesseract failed")
  end.

Definition score (keywords : list string) (t : string) : Z :=
  Z.of_nat (scoreOcrText t keywords).

(** The points of a period in the missing set hold no value. *)
Definition missingAreNull (a : AutoState) : Prop :=
  forall pt, pt ∈ a_series a -> period pt ∈ a_missing a -> value pt = None.

(** What one candidate can do to the state of the loop: nothing to the
    series and the missing set, or fill one missing period. *)
Definition fillsAtMostOne (a a' : AutoState) : Prop :=
  (a_series a' = a_series a /\ a_missing a' = a_missing a)
  \/ exists p v, p ∈ a_missing a
                 /\ a_series a' = setValue p (Some v) (a_series a)
                 /\ a_missing a' = a_missing a ∖ {[p]}.

(** What the whole loop does. *)
Definition onlyFills (a a' : AutoState) : Prop :=
  List.map period (a_series a') = List.map period (a_series a)
  /\ (missingAreNull a -> missingAreNull a' /\ kept (a_series a) (a_series a')).

(** What [fetchDocument] returns for [u] in world [w]. *)
Definition docOf (w : World) (u : string) : result Document :=
  match cache w !! u with
  | Some d => Ok d
  | None => download u
  end.

(** The assignment an explicit entry makes, if it makes one, given what
    each URL fetches. *)
Definition entryUpdate (docs : string -> result Document) (kpi : Kpi) (entry : Entry)
    : option (string * option Q) :=
  if negb (isPeriod (e_period entry)) then None
  else if Str.isEmpty (e_url entry) || Str.isEmpty (e_pattern entry) then None
  else match docs (e_url entry) with
       | Throw _ => None
       | Ok doc =>
           match extractValueFromText (folded doc) [e_pattern entry]
                   (unitKindOf kpi) (minValueOf kpi) (maxValueOf kpi) None true with
           | Throw _ => None
           | Ok v => Some (e_period entry, v)
           end
       end.

Definition applyUpdate (u : option (string * option Q)) (s : Series) : Series :=
  match u with
  | Some (p, v) => setValue p v s
  | None => s
  end.

Fixpoint applyAll (us : list (option (string * option Q))) (s : Series) : Series :=
  match us with
  | [] => s
  | u :: rest => applyAll rest (applyUpdate u s)
  end.

End Scraper.

(* ===================================================================== *)
(** ** The crawl *)
(* ===================================================================== *)

(** [dedupe]: the first occurrence of each non-empty string. *)
Fixpoint dedupeStrings (seen : gset string) (l : list string) : list string :=
  match l with
  | [] => []
  | item :: rest =>
      if Str.isEmpty item || bool_decide (item ∈ seen) then dedupeStrings seen rest
      else item :: dedupeStrings ({[item]} ∪ seen) rest
  end.

Definition dedupe (l : list string) : list string := dedupeStrings ∅ l.

(** [s.endsWith(suffix)]. *)
Definition endsWith (s suffix : string) : bool :=
  (String.length suffix <=? String.length s)
  && String.eqb (Str.drop (String.length s - String.length suffix) s) suffix.

Definition notLt (c : ascii) : bool := negb (Str.eqc c "<").
Definition notGt (c : ascii) : bool := negb (Str.eqc c ">").

(** A double or a single quote. *)
Definition isQuote (c : ascii) : bool := Str.eqc c "034" || Str.eqc c "039".
Definition notQuote (c : ascii) : bool := negb (isQuote c).

(** [/<loc>([^<]+)<\/loc>/gi]. *)
Definition locRx : Rx.rx :=
  Rx.seq [Rx.Lit true "<loc>"; Rx.Grp 1 (Rx.plus notLt); Rx.Lit true "</loc>"].

Definition parseSitemapLocs (xmlText : string) : list string :=
  List.map (fun cs => Str.trim (Rx.cap cs 1))
           (Rx.searchAll (S (String.length xmlText)) locRx None xmlText).

(** The opening tag of the link expression of [extractLinkEntriesFromHtml]:
    [<a\s+[^>]*href=], a quote, the [href] as group 1 (one or more
    characters other than quotes), a quote, and [[^>]*>]. *)
Definition linkTagRx : Rx.rx :=
  Rx.seq [Rx.Lit true "<a"; Rx.plus Str.isSpace; Rx.Star notGt; Rx.Lit true "href=";
          Rx.Chr isQuote; Rx.Grp 1 (Rx.plus notQuote); Rx.Chr isQuote; Rx.Star notGt;
          Rx.Lit false ">"].

(** One match of the link expression anchored at the start of [s]: the
    [href], the text up to the nearest [</a>] (the lazy [[\s\S]*?]), and
    what follows the match.  The search for [</a>] is the continuation of
    the matcher, so a tag after which no [</a>] comes is matched again
    another way, as the engine does. *)
Definition matchLink (s : string) : option (string * string * string) :=
  Rx.run linkTagRx None s []
    (fun _ s' cs =>
       match dropThrough "</a>" s' with
       | Some rest =>
           Some (Rx.cap cs 1, Str.take (String.length s' - String.length rest - 4) s', rest)
       | None => None
       end).

(** The text of a link: tags and runs of white space become one space
    each, and the ends are trimmed. *)
Definition anchorText (body : string) : string :=
  Str.trim (collapseSpaces false (removeTags (S (String.length body)) body)).

(** [AUTO_SEEDS[ticker] || { sitemaps: [], listPages: [] }]: the sitemaps
    and the listing pages of a ticker. *)
Definition AUTO_SEEDS (ticker : string) : list string * list string :=
  if String.eqb ticker "PNJ" then
    ([ "https://www.pnj.com.vn/sitemap.xml";
       "https://www.pnj.com.vn/sitemap_index.xml";
       "https://www.pnj.com.vn/sitemap-index.xml" ],
     [ "https://www.pnj.com.vn/quan-he-co-dong/bao-cao-tai-chinh/" ])
  else if String.eqb ticker "MWG" then
    ([ "https://mwg.vn/sitemap.xml" ],
     [ "https://mwg.vn/bao-cao"; "https://mwg.vn/cong-bo-thong-tin" ])
  else if String.eqb ticker "HPG" then
    ([ "https://www.hoaphat.com.vn/sitemap.xml";
       "https://www.hoaphat.com.vn/sitemap_index.xml";
       "https://www.hoaphat.com.vn/sitemap-index.xml" ],
     [ "https://www.hoaphat.com.vn/quan-he-co-dong/bao-cao-tai-chinh";
       "https://www.hoaphat.com.vn/quan-he-co-dong/cong-bo-thong-tin" ])
  else if String.eqb ticker "TCB" then
    ([ "https://techcombank.com/sitemap.xml";
       "https://techcombank.com/vn.sitemap.vi-sitemap.xml";
       "https://techcombank.com/vn.sitemap.vi-thong-tin-sitemap.xml";
       "https://techcombank.com.vn/sitemap.xml";
       "https://www.techcombank.com.vn/sitemap.xml";
       "https://ir.techcombank.com.vn/sitemap.xml";
       "https://techcombank.com.vn/sitemap-index.xml";
       "https://www.techcombank.com.vn/sitemap-index.xml";
       "https://ir.techcombank.com.vn/sitemap-index.xml" ],
     [ "https://techcombank.com/nha-dau-tu"; "https://techcombank.com/thong-tin/thong-bao" ])
  else ([], []).

(** The [for] loop of [fetchSitemapUrls] over the [loc]s of one sitemap:
    the queue and the output after it. *)
Fixpoint sitemapLocs (limit : nat) (seen : gset string) (locs queue out : list string)
    : list string * list string :=
  match locs with
  | [] => (queue, out)
  | loc :: rest =>
      if endsWith loc ".xml" && negb (bool_decide (loc ∈ seen))
      then sitemapLocs limit seen rest (queue ++ [loc])%list out
      else
        let out' := (out ++ [loc])%list in
        if limit <=? length out' then (queue, out')
        else sitemapLocs limit seen rest queue out'
  end.

Section Crawl.

Variable E : Env.

Local Open Scope scraper_scope.

(** The [while] loop of [fetchSitemapUrls].  The loop goes on as long as
    sitemaps name new sitemaps; [None] stands for a run that has not ended
    after [fuel] rounds. *)
Fixpoint sitemapLoop (fuel limit : nat) (queue : list string) (seen : gset string)
    (out : list string) : M (option (list string)) :=
  match fuel with
  | O => ret None
  | S fuel' =>
      match queue with
      | [] => ret (Some out)
      | u :: queue' =>
          if negb (length out <? limit) then ret (Some out)
          else if Str.isEmpty u || bool_decide (u ∈ seen)
          then sitemapLoop fuel' limit queue' seen out
          else
            let seen' := {[u]} ∪ seen in
            st <- tryCatch
                    (buf <- fetchBuffer E u ;;
                     ret (sitemapLocs limit seen' (parseSitemapLocs buf) queue' out))
                    (fun _ => ret (queue', out)) ;;
            sitemapLoop fuel' limit (fst st) seen' (snd st)
      end
  end.

Definition fetchSitemapUrls (fuel : nat) (seedUrls : list string) (maxUrls : nat)
    : M (option (list string)) :=
  sitemapLoop fuel (natOr (Some maxUrls) 2000) seedUrls ∅ [].

(** The [exec] loop of [extractLinkEntriesFromHtml]. *)
Fixpoint linkEntries (fuel limit : nat) (baseUrl : string) (s : string)
    (out : list Candidate) : list Candidate :=
  match fuel with
  | O => out
  | S fuel' =>
      match matchLink s with
      | Some (href, body, rest) =>
          let out' := (out ++ [ {| url := toAbsolute E href baseUrl;
                                   anchor := anchorText body |} ])%list in
          if limit <=? length out' then out'
          else linkEntries fuel' limit baseUrl rest out'
      | None =>
          match s with
          | String _ s' => linkEntries fuel' limit baseUrl s' out
          | EmptyString => out
          end
      end
  end.

Definition extractLinkEntriesFromHtml (htmlText baseUrl : string) (maxLinks : nat)
    : list Candidate :=
  linkEntries (S (String.length htmlText)) (natOr (Some maxLinks) 400) baseUrl htmlText [].

(** The loop over the listing pages. *)
Fixpoint listPageLinks (pages : list string) (maxListLinks : nat)
    (candidates : list Candidate) : M (list Candidate) :=
  match pages with
  | [] => ret candidates
  | page :: rest =>
      candidates' <-
        tryCatch
          (buf <- fetchBuffer E page ;;
           ret (candidates ++ extractLinkEntriesFromHtml buf page maxListLinks)%list)
          (fun _ => ret candidates) ;;
      listPageLinks rest maxListLinks candidates'
  end.

(** The loop that follows the first HTML candidates to collect the PDF
    links of their pages.  The body of the [try] gives [None] where the
    source says [continue], which skips the test on the length of
    [extra]. *)
Fixpoint expandLinks (items : list Candidate) (expandMax : nat) (extra : list Candidate)
    : M (list Candidate) :=
  match items with
  | [] => ret extra
  | item :: rest =>
      r <- tryCatch
             (doc <- fetchDocument E (url item) ;;
              if isPdfDoc doc || Str.isEmpty (html doc) then ret None
              else ret (Some (extra
                              ++ List.filter (fun link => isPdf (url link))
                                   (extractLinkEntriesFromHtml (html doc) (url item)
                                      expandMax))%list))
             (fun _ => ret (Some extra)) ;;
      match r with
      | None => expandLinks rest expandMax extra
      | Some extra' =>
          if expandMax <=? length extra' then ret extra'
          else expandLinks rest expandMax extra'
      end
  end.

(** Lines 885 to 932 of [autoFillSeries]: the raw pool of candidates,
    for a ticker of the template or an unknown one. *)
Definition rawCandidates (fuel : nat) (ticker : string) (autoCfg : AutoCfg)
    : M (option (list Candidate)) :=
  let defaults := AUTO_SEEDS ticker in
  let sitemapUrls := dedupe (sitemaps autoCfg ++ fst defaults)%list in
  let listPageUrls := dedupe (listPages autoCfg ++ snd defaults)%list in
  fromSitemaps <-
    (if isNil sitemapUrls then ret (Some [])
     else urls <- fetchSitemapUrls fuel sitemapUrls (natOr (maxSitemapUrls autoCfg) 2500) ;;
          ret (option_map (List.map (fun u => {| url := u; anchor := "" |})) urls)) ;;
  match fromSitemaps with
  | None => ret None
  | Some candidates1 =>
      candidates2 <- listPageLinks listPageUrls (natOr (maxListLinks autoCfg) 400)
                       candidates1 ;;
      if notFalse (expandPdfFromHtml autoCfg) && negb (isNil candidates2) then
        extra <- expandLinks
                   (take (natOr (expandFromFirst autoCfg) 120)
                      (List.filter (fun item => negb (isPdf (url item))) candidates2))
                   (natOr (expandMax autoCfg) 240) [] ;;
        ret (Some (if isNil extra then candidates2 else (candidates2 ++ extra)%list))
      else ret (Some candidates2)
  end.

(** The [loc]s of the sitemap at [u]; none when the download fails. *)
Definition locsOf (u : string) : list string :=
  match fetch E u with
  | Ok res => if res_ok res then parseSitemapLocs (res_body res) else []
  | Throw _ => []
  end.

(** The number of [loc]s in the sitemaps of [universe] not yet seen. *)
Fixpoint locsLeft (universe : list string) (seen : gset string) : nat :=
  match universe with
  | [] => 0
  | u :: rest =>
      (if bool_decide (u ∈ seen) then 0 else length (locsOf u)) + locsLeft rest seen
  end.

End Crawl.

(* ===================================================================== *)
(** ** The program *)
(* ===================================================================== *)













Section Main.

Variable E : Env.

Local Open Scope scraper_scope.







End Main.

(* ===================================================================== *)
(** ** Vocabulary of the further statements *)
(* ===================================================================== *)

(** [v] respects the bounds that are given. *)
Definition inBounds (lo hi : option Q) (v : Q) : Prop :=
  match lo with Some l => (l <= v)%Q | None => True end
  /\ match hi with Some h => (v <= h)%Q | None => True end.

(** The six-character token [20d1d2Qq]. *)
Definition periodToken (d1 d2 q : ascii) : string :=
  String "2" (String "0" (String d1 (String d2 (String "Q" (String q ""))))).

Definition yearOf (d1 d2 : ascii) : string :=
  String "2" (String "0" (String d1 (String d2 ""))).

Definition digitChars : list ascii :=
  ["0"; "1"; "2"; "3"; "4"; "5"; "6"; "7"; "8"; "9"]%char.

Definition quarterChars : list ascii := ["1"; "2"; "3"; "4"]%char.

Definition optEqb (a b : option string) : bool :=
  match a, b with
  | Some x, Some y => String.eqb x y
  | None, None => true
  | _, _ => false
  end.

(** Ways a URL or a link text spells the quarter [q] of the year
    [20d1d2]. *)
Definition spellings (d1 d2 q : ascii) : list string :=
  [ periodToken d1 d2 q;
    "bctc-q" ++ String q ("-" ++ yearOf d1 d2 ++ ".pdf");
    "https://ir.example.vn/" ++ yearOf d1 d2 ++ "_Q" ++ String q "/kqkd.pdf";
    "Quy " ++ quarterToRoman (String q "") ++ " nam " ++ yearOf d1 d2;
    "BCTC " ++ yearOf d1 d2 ++ " - QUY " ++ Str.map upperChar (quarterToRoman (String q ""));
    yearOf d1 d2 ++ "-quy-" ++ String q "" ].

(** Ways a page spells it. *)
Definition textSpellings (d1 d2 q : ascii) : list string :=
  [ periodToken d1 d2 q;
    "Quy " ++ quarterToRoman (String q "") ++ " nam " ++ yearOf d1 d2;
    "Q" ++ String q ("/" ++ yearOf d1 d2) ].

Definition readsBack (d1 d2 q : ascii) : bool :=
  forallb (fun s => optEqb (inferPeriodFromString (Some s)) (Some (periodToken d1 d2 q)))
          (spellings d1 d2 q)
  && forallb (fun s => optEqb (inferPeriodFromText (foldText s))
                         (if isPeriod (periodToken d1 d2 q)
                          then Some (periodToken d1 d2 q) else None))
             (textSpellings d1 d2 q).

(** A character of the ASCII range, on which NFD normalisation does
    nothing and which holds no combining mark. *)
Definition isAscii (c : ascii) : bool := Str.code c <? 128.

(** Every white-space character of [s] is a space that no white space
    follows. *)
Fixpoint singleSpaced (s : string) : bool :=
  match s with
  | EmptyString => true
  | String c r =>
      (if Str.isSpace c
       then Str.eqc c " " && match r with String d _ => negb (Str.isSpace d) | _ => true end
       else true)
      && singleSpaced r
  end.

(** A match of [<[^>]+>] starts at the head of [s]. *)
Definition tagAt (s : string) : bool :=
  match s with
  | String c (String d r') =>
      Str.eqc c "<" && negb (Str.eqc d ">")
      && match afterGt r' with Some _ => true | None => false end
  | _ => false
  end.

(** [/<[^>]+>/.test(s)]. *)
Definition hasTag (s : string) : bool := Str.existsSuffix tagAt s.

(** One candidate leaves the OCR budget alone or takes one run from a
    budget that was positive. *)
Definition budgetStep (r r' : Z) : Prop := r' = r \/ (0 < r /\ r' = r - 1)%Z.

(** The same for the OCR state of one candidate: a run is made only when
    none was made before. *)
Definition ocrStep (autoCfg : AutoCfg) (st st' : OcrState) : Prop :=
  st' = st
  \/ (fst st = None /\ (0 < snd st)%Z /\ snd st' = (snd st - 1)%Z
      /\ fst st' <> None /\ ocrEnabledOf autoCfg = true).

(** The candidate passes the test of line 986: its URL names no period,
    or one that is still missing. *)
Definition worthFetching (missing : gset string) (item : Candidate) : Prop :=
  match inferPeriodFromString (Some (url item)) with
  | Some p => p ∈ missing
  | None => True
  end.

(** What one candidate does to the series: nothing, or it fills one
    missing period with a value within the bounds. *)
Definition fillsWithin (lo hi : option Q) (a a' : AutoState) : Prop :=
  (a_series a' = a_series a /\ a_missing a' = a_missing a)
  \/ exists p v, p ∈ a_missing a /\ inBounds lo hi v
                 /\ a_series a' = setValue p (Some v) (a_series a)
                 /\ a_missing a' = a_missing a ∖ {[p]}.

(** The value the first point of period [p] holds, if there is one. *)
Definition valueAt (p : string) (s : Series) : option (option Q) :=
  option_map value (List.find (fun x => String.eqb (period x) p) s).

(** The value of the last assignment to [p] in a run of assignments. *)
Fixpoint lastUpdate (p : string) (us : list (option (string * option Q)))
    : option (option Q) :=
  match us with
  | [] => None
  | u :: rest =>
      match lastUpdate p rest with
      | Some v => Some v
      | None =>
          match u with
          | Some (q, v) => if String.eqb q p then Some v else None
          | None => None
          end
      end
  end.


(** Not one of the strings of [l]. *)
Definition notAmong (l : list string) (y : string) : bool := bool_decide (y ∉ l).

(** The sitemaps and the listing pages a crawl starts from: the
    configured ones, then the seeds of the ticker. *)
Definition seedSitemaps (ticker : string) (autoCfg : AutoCfg) : list string :=
  dedupe (sitemaps autoCfg ++ fst (AUTO_SEEDS ticker))%list.

Definition seedListPages (ticker : string) (autoCfg : AutoCfg) : list string :=
  dedupe (listPages autoCfg ++ snd (AUTO_SEEDS ticker))%list.

(** A sitemap URL as a candidate: no link text. *)
Definition bare (u : string) : Candidate := {| url := u; anchor := "" |}.

Section CrawlVocabulary.

Variable E : Env.

(** The links of the listing page at [page], at most [maxListLinks] of
    them; none when the download fails. *)
Definition pageLinks (maxListLinks : nat) (page : string) : list Candidate :=
  match fetch E page with
  | Ok res =>
      if res_ok res then extractLinkEntriesFromHtml E (res_body res) page maxListLinks
      else []
  | Throw _ => []
  end.

(** [link] is a PDF link of the HTML page of the candidate [item], as a
    run that starts in world [w] reads the page. *)
Definition pdfLinkOn (w : World) (expandMax : nat) (item link : Candidate) : Prop :=
  isPdf (url link) = true
  /\ exists doc,
       docOf E w (url item) = Ok doc
       /\ isPdfDoc doc = false
       /\ link ∈ extractLinkEntriesFromHtml E (html doc) (url item) expandMax.

(** The cache of [w'] is the cache of [w] and documents downloaded
    since. *)
Definition cacheGrown (w w' : World) : Prop :=
  (forall u d, cache w !! u = Some d -> cache w' !! u = Some d)
  /\ (forall u d, cache w' !! u = Some d -> docOf E w u = Ok d).

End CrawlVocabulary.









(* ===================================================================== *)
(** ** A second sample *)
(* ===================================================================== *)

(** A site with a sitemap index, a sitemap and a listing page, and a
    scanned report of two pages. *)
Module Site.

Definition pages : list (string * string) :=
  [ ("https://a.example.vn/sitemap.xml",
     "<sitemapindex><sitemap><loc>https://a.example.vn/sitemap-ir.xml</loc></sitemap><sitemap><loc>https://a.example.vn/sitemap.xml</loc></sitemap></sitemapindex>");
    ("https://a.example.vn/sitemap-ir.xml",
     "<urlset><url><LOC> https://a.example.vn/bctc-2025q3.pdf </LOC></url><url><loc>https://a.example.vn/ir.html</loc></url></urlset>");
    ("https://a.example.vn/ir.html",
     "<ul><li><A class='doc' HREF='/files/bctc-q4-2025.pdf'><b>BCTC</b> quy 4  nam 2025</a></li><li><a name='top'>Dau trang</a> <a href='/lien-he'>Lien he</a></li></ul>") ].

Definition fetchPage (u : string) : result Response :=
  match Sample.assoc u pages with
  | Some body => Ok {| res_ok := true; res_status := 200; res_statusText := "OK";
                       res_body := body |}
  | None => Ok {| res_ok := false; res_status := 404; res_statusText := "Not Found";
                  res_body := "" |}
  end.

(** A path is resolved against the one host of the site. *)
Definition resolve (href baseUrl : string) : option string :=
  if Str.prefixBy Str.eqc "/" href then Some ("https://a.example.vn" ++ href) else Some href.

Definition render (buf : Buffer) (maxPages : nat) (scale : Q) : result (list Page) :=
  Ok [ {| pageNum := 7; image := "page-7" |}; {| pageNum := 8; image := "page-8" |} ].

Definition siteEnv : Env := {|
  fetch := fetchPage;
  pdfGetText := fun _ => Throw "not a PDF";
  regexValid := fun _ => true;
  regexExecAll := Sample.execSite;
  resolveUrl := resolve;
  tesseractBinary := Some "/usr/bin/tesseract";
  rotateCanvas := Sample.rotateNamed;
  spawnTesseract := Sample.readScan;
  renderPdfPages := render;
  createWorker := fun _ => Ok tt;
  recognize := fun _ _ => Ok None;
  crawl := Sample.crawlSite
|}.

(** A report of the site whose file the PDF parser cannot read. *)
Definition scanUrl : string := "https://a.example.vn/bctc-2025q3.pdf".

Definition fetchScan (u : string) : result Response :=
  if String.eqb u scanUrl
  then Ok {| res_ok := true; res_status := 200; res_statusText := "OK";
             res_body := "%PDF-1.7 (scanned pages)" |}
  else fetchPage u.

Definition scanEnv : Env := {|
  fetch := fetchScan;
  pdfGetText := fun _ => Throw "Invalid PDF structure";
  regexValid := fun _ => true;
  regexExecAll := Sample.execSite;
  resolveUrl := resolve;
  tesseractBinary := Some "/usr/bin/tesseract";
  rotateCanvas := Sample.rotateNamed;
  spawnTesseract := Sample.readScan;
  renderPdfPages := render;
  createWorker := fun _ => Ok tt;
  recognize := fun _ _ => Ok None;
  crawl := Sample.crawlSite
|}.

Definition universe : list string :=
  [ "https://a.example.vn/sitemap.xml"; "https://a.example.vn/sitemap-ir.xml" ].

(** A crawl of the site from its sitemap index and two listing pages, the
    second of which does not exist. *)
Definition crawlCfg : AutoCfg := {|
  enabled := None; maxDocs := None; maxSitemapUrls := None; maxListLinks := None;
  sitemaps := ["https://a.example.vn/sitemap.xml"];
  listPages := ["https://a.example.vn/ir.html"; "https://a.example.vn/tin-tuc.html"];
  expandPdfFromHtml := None; expandFromFirst := None;
  expandMax := None; ocr := false; ocrEnabled := false; ocrEngine := None;
  ocrMaxDocs := None; ocrMaxPages := None; ocrScale := None; ocrLangs := None;
  ocrRequireKeywords := None; ocrRotate := false; debug := false
|}.



(** Both rotations are tried and the keyword "doanh thu" is required. *)
Definition ocrOpts : OcrOpts := {|
  o_maxPages := None; o_scale := None; o_langs := None; o_engine := Some "cli";
  o_rotateAngles := Some [0; 90]%Z; o_ocrKeywords := Some ["doanh thu"];
  o_requireKeywords := true; o_debug := false
|}.

End Site.

(* ===================================================================== *)
(** * Properties *)
(* ===================================================================== *)

(** ** Strings *)

Lemma filter_ext (f g : ascii -> bool) (s : string) :
  (forall c, f c = g c) -> Str.filter f s = Str.filter g s.
Proof.
  intros Hfg. induction s as [|c r IH]; simpl; [reflexivity|].
  rewrite Hfg, IH. reflexivity.
Qed.

Lemma filter_filter (f g : ascii -> bool) (s : string) :
  Str.filter f (Str.filter g s) = Str.filter (fun c => g c && f c) s.
Proof.
  induction s as [|c r IH]; simpl; [reflexivity|].
  destruct (g c); simpl; [destruct (f c); simpl; rewrite IH; reflexivity | exact IH].
Qed.

Lemma count_filter (f g : ascii -> bool) (s : string) :
  (forall c, f c = true -> g c = true) ->
  Str.count f (Str.filter g s) = Str.count f s.
Proof.
  intros Hfg. induction s as [|c r IH]; simpl; [reflexivity|].
  destruct (g c) eqn:Hg; simpl; rewrite IH; [reflexivity|].
  destruct (f c) eqn:Hf; [|reflexivity].
  rewrite (Hfg c Hf) in Hg. discriminate.
Qed.


Lemma filter_all (f : ascii -> bool) (s : string) :
  Str.all f (Str.filter f s) = true.
Proof.
  induction s as [|c r IH]; simpl; [reflexivity|].
  destruct (f c) eqn:Hf; simpl; [rewrite Hf; exact IH | exact IH].
Qed.

Lemma append_cons (x : ascii) (a b : string) : String x a ++ b = String x (a ++ b).
Proof. reflexivity. Qed.

Lemma append_nil (b : string) : "" ++ b = b.
Proof. reflexivity. Qed.

Ltac app_simpl := rewrite ?append_cons, ?append_nil; simpl.

Lemma append_assoc (a b c : string) : (a ++ b) ++ c = a ++ (b ++ c).
Proof.
  induction a as [|x a IH]; app_simpl; [reflexivity | rewrite IH; reflexivity].
Qed.

Lemma append_length (a b : string) :
  String.length (a ++ b) = String.length a + String.length b.
Proof.
  induction a as [|x a IH]; app_simpl; [reflexivity | rewrite IH; reflexivity].
Qed.

Lemma drop_append (a b : string) : Str.drop (String.length a) (a ++ b) = b.
Proof.
  induction a as [|x a IH]; app_simpl; [destruct b; reflexivity | exact IH].
Qed.

Lemma drop_length (n : nat) (s : string) :
  String.length (Str.drop n s) = String.length s - n.
Proof.
  revert s. induction n as [|n IH]; intros [|c r]; simpl; try reflexivity; try lia.
  apply IH.
Qed.

Lemma drop_ge (n : nat) (s : string) : String.length s <= n -> Str.drop n s = "".
Proof.
  revert s. induction n as [|n IH]; intros [|c r]; simpl; intros H;
    try reflexivity; try lia.
  apply IH. lia.
Qed.

Lemma take_ge (n : nat) (s : string) : String.length s <= n -> Str.take n s = s.
Proof.
  revert s. induction n as [|n IH]; intros [|c r]; simpl; intros H;
    try reflexivity; try lia.
  rewrite IH by lia. reflexivity.
Qed.

Lemma take_empty (n : nat) : Str.take n "" = "".
Proof. destruct n; reflexivity. Qed.

(** ** Numeric parser *)

Lemma scrub_dots (s : string) : Str.count isDot (Str.filter keptByScrub s) = dots s.
Proof.
  apply count_filter. intros c H. unfold keptByScrub. rewrite H.
  repeat rewrite orb_true_r. reflexivity.
Qed.

Lemma scrub_commas (s : string) : Str.count isComma (Str.filter keptByScrub s) = commas s.
Proof.
  apply count_filter. intros c H. unfold keptByScrub. rewrite H.
  repeat rewrite orb_true_r. reflexivity.
Qed.

Lemma chars_distinct (c : ascii) :
  (isDot c = true -> isComma c = false /\ Str.isDigit c = false /\ Str.eqc c "-" = false)
  /\ (isComma c = true -> isDot c = false /\ Str.isDigit c = false /\ Str.eqc c "-" = false).
Proof.
  unfold isDot, isComma, Str.eqc. split; intros H; apply Ascii.eqb_eq in H; subst c;
    repeat split; reflexivity.
Qed.





Lemma normalizeNumber_unfold (s : string) :
  s <> "" ->
  normalizeNumber (Some s) =
  let cleaned := Str.filter keptByScrub s in
  if (1 <? dots s) && (commas s =? 0)
  then Some (Num.ofString (Str.filter (fun c => negb (isDot c)) cleaned))
  else if (1 <? commas s) && (dots s =? 0)
  then Some (Num.ofString (Str.filter (fun c => negb (isComma c)) cleaned))
  else if (commas s =? 1) && (dots s =? 0)
  then Some (Num.ofString (Str.map commaToDot cleaned))
  else if (1 <=? commas s) && (1 <=? dots s)
  then Some (Num.ofString (Str.filter (fun c => negb (isComma c)) cleaned))
  else Some (Num.ofString cleaned).
Proof.
  intros Hs. destruct s as [|c r]; [congruence|].
  unfold normalizeNumber. rewrite scrub_dots, scrub_commas. reflexivity.
Qed.







Lemma find_split {A : Type} (f : A -> bool) (l : list A) (x : A) :
  List.find f l = Some x ->
  exists pre post, l = (pre ++ x :: post)%list /\ f x = true
                   /\ Forall (fun y => f y = false) pre.
Proof.
  induction l as [|y r IH]; simpl; [discriminate|].
  destruct (f y) eqn:Hy.
  - intros [= ->]. exists [], r. repeat split; [assumption | constructor].
  - intros H. destruct (IH H) as (pre & post & -> & Hx & Hpre).
    exists (y :: pre), post. repeat split; [assumption | constructor; assumption].
Qed.

Lemma find_none_all {A : Type} (f : A -> bool) (l : list A) :
  List.find f l = None -> Forall (fun y => f y = false) l.
Proof.
  induction l as [|y r IH]; simpl; [constructor|].
  destruct (f y) eqn:Hy; [discriminate|]. intros H. constructor; auto.
Qed.

Lemma scanTokens_open (s t : string) : scanTokens s (Some t) <> [].
Proof.
  revert t. induction s as [|c r IH]; intros t; simpl; [discriminate|].
  destruct (isTokenChar c); [apply IH | discriminate].
Qed.

Lemma numberTokens_digit (s : string) :
  Str.count Str.isDigit s <> 0 -> numberTokens s <> [].
Proof.
  unfold numberTokens. induction s as [|c r IH]; simpl; [congruence|].
  destruct (Str.isDigit c); [intros _; apply scanTokens_open | exact IH].
Qed.

Lemma all_snoc (f : ascii -> bool) (t : string) (c : ascii) :
  Str.all f (t ++ String c EmptyString) = Str.all f t && f c.
Proof.
  induction t as [|d r IH]; simpl; [rewrite andb_true_r; reflexivity|].
  rewrite IH, andb_assoc. reflexivity.
Qed.

Lemma scanTokens_chars (s : string) (cur : option string) :
  match cur with Some t => Str.all isTokenChar t = true | None => True end ->
  Forall (fun t => Str.all isTokenChar t = true) (scanTokens s cur).
Proof.
  revert cur. induction s as [|c r IH]; intros cur Hcur; simpl.
  - destruct cur; constructor; [assumption | constructor].
  - destruct cur as [t|].
    + destruct (isTokenChar c) eqn:Hc.
      * apply IH. rewrite all_snoc, Hcur, Hc. reflexivity.
      * constructor; [assumption | apply IH; exact I].
    + destruct (Str.isDigit c) eqn:Hc; [|apply IH; exact I].
      apply IH. simpl. unfold isTokenChar. rewrite Hc. reflexivity.
Qed.

Lemma digitCount_digits (t : string) :
  Str.all isTokenChar t = true -> digitCount t = Str.count Str.isDigit t.
Proof.
  unfold digitCount. induction t as [|c r IH]; simpl; [reflexivity|].
  intros H. apply andb_true_iff in H as [Hc Hr]. specialize (IH Hr).
  unfold isTokenChar in Hc.
  destruct (isDot c) eqn:Hd.
  - destruct (proj1 (chars_distinct c) Hd) as (_ & -> & _). simpl. exact IH.
  - destruct (isComma c) eqn:Hco.
    + destruct (proj2 (chars_distinct c) Hco) as (_ & -> & _). simpl. exact IH.
    + rewrite !orb_false_r in Hc. rewrite Hc. simpl. rewrite IH. reflexivity.
Qed.

Lemma append_empty_r (a : string) : a ++ "" = a.
Proof. induction a as [|x a IH]; [reflexivity|]. rewrite append_cons, IH. reflexivity. Qed.

Lemma wordsFrom_head (r w : string) :
  exists w' rest, Str.wordsFrom r (Some w) = (w ++ w') :: rest.
Proof.
  revert w. induction r as [|c r IH]; intros w; simpl.
  - exists "", []. rewrite append_empty_r. reflexivity.
  - destruct (Str.isSpace c).
    + exists "", (Str.wordsFrom r None). rewrite append_empty_r. reflexivity.
    + destruct (IH (w ++ String c EmptyString)) as (w' & rest & ->).
      exists (String c w'), rest. rewrite append_assoc. reflexivity.
Qed.

Lemma space_not_token (c : ascii) : Str.isSpace c = true -> isTokenChar c = false.
Proof.
  unfold Str.isSpace, isTokenChar, Str.isDigit, isDot, isComma, Str.eqc. intros H.
  destruct (Ascii.eqb_spec c ".") as [-> | _]; [discriminate|].
  destruct (Ascii.eqb_spec c ",") as [-> | _]; [discriminate|].
  rewrite !orb_false_r. apply andb_false_iff.
  apply orb_true_iff in H as [H | H].
  - apply andb_true_iff in H as [_ H]. apply Nat.leb_le in H.
    left. apply Nat.leb_gt. lia.
  - apply Nat.eqb_eq in H. left. apply Nat.leb_gt. lia.
Qed.

Lemma tokens_are_words (s : string) (cur : option string) :
  Str.all (fun c => isTokenChar c || Str.isSpace c) s = true ->
  Forall (fun w => startsWithDigit w = true) (Str.wordsFrom s cur) ->
  scanTokens s cur = Str.wordsFrom s cur.
Proof.
  revert cur. induction s as [|c r IH]; intros cur Hok Hw; [reflexivity|].
  simpl in Hok. apply andb_true_iff in Hok as [Hc Hok]. simpl in *.
  destruct (Str.isSpace c) eqn:Hsp.
  - pose proof (space_not_token c Hsp) as Hnt. rewrite Hnt.
    assert (Hnd : Str.isDigit c = false).
    { unfold isTokenChar in Hnt. destruct (Str.isDigit c); [discriminate | reflexivity]. }
    rewrite Hnd. destruct cur as [t|].
    + apply Forall_cons in Hw as [_ Hw]. rewrite (IH None Hok Hw). reflexivity.
    + apply IH; assumption.
  - rewrite orb_false_r in Hc. rewrite Hc. destruct cur as [t|]; [apply IH; assumption|].
    destruct (wordsFrom_head r (String c EmptyString)) as (w' & rest & Heq).
    assert (Hd : Str.isDigit c = true).
    { rewrite Heq in Hw. apply Forall_cons in Hw as [Hw _]. exact Hw. }
    rewrite Hd. apply IH; assumption.
Qed.

Lemma minDigits_threshold (kind : string) : minDigits kind = threshold kind.
Proof.
  unfold minDigits, threshold.
  repeat match goal with |- context [String.eqb ?a ?b] => destruct (String.eqb a b) end;
    reflexivity.
Qed.

Lemma tokenRuns_gap (c : ascii) (r : string) (toks : list string) :
  Str.isDigit c = false -> tokenRuns r toks -> tokenRuns (String c r) toks.
Proof.
  intros Hc H. inversion H as [gap Hg | gap t rest toks' Hg Ht Hall Hrest Hruns]; subst.
  - apply runs_none. simpl. rewrite Hc. exact Hg.
  - change (String c (gap ++ t ++ rest)) with (String c gap ++ t ++ rest).
    apply runs_token; try assumption. simpl. rewrite Hc. exact Hg.
Qed.

Lemma scanTokens_runs (s : string) :
  tokenRuns s (scanTokens s None)
  /\ forall t, exists t' rest toks,
       scanTokens s (Some t) = (t ++ t') :: toks
       /\ s = t' ++ rest
       /\ Str.all isTokenChar t' = true
       /\ startsWithTokenChar rest = false
       /\ tokenRuns rest toks.
Proof.
  induction s as [|c r [IHn IHs]].
  - split; [apply runs_none; reflexivity|].
    intros t. exists "", "", []. rewrite append_empty_r.
    repeat split. apply runs_none. reflexivity.
  - split.
    + simpl. destruct (Str.isDigit c) eqn:Hc.
      * destruct (IHs (String c EmptyString)) as (t' & rest & toks & -> & -> & Hall & Hrest & Hruns).
        change (String c (t' ++ rest)) with ("" ++ (String c "" ++ t') ++ rest).
        apply runs_token; try assumption; [reflexivity|].
        simpl. unfold isTokenChar. rewrite Hc. exact Hall.
      * apply tokenRuns_gap; assumption.
    + intros t. simpl. destruct (isTokenChar c) eqn:Hc.
      * destruct (IHs (t ++ String c EmptyString)) as (t' & rest & toks & -> & -> & Hall & Hrest & Hruns).
        exists (String c t'), rest, toks. rewrite append_assoc.
        repeat split; try assumption. simpl. rewrite Hc. exact Hall.
      * exists "", (String c r), (scanTokens r None). rewrite append_empty_r.
        repeat split; [exact Hc|].
        apply tokenRuns_gap; [|exact IHn].
        unfold isTokenChar in Hc. destruct (Str.isDigit c); [discriminate | reflexivity].
Qed.

Lemma scanTokens_skip (gap s : string) :
  Str.count Str.isDigit gap = 0 -> scanTokens (gap ++ s) None = scanTokens s None.
Proof.
  induction gap as [|c gap IH]; [reflexivity|]. rewrite append_cons. simpl.
  destruct (Str.isDigit c); [discriminate|]. exact IH.
Qed.

Lemma scanTokens_run (t rest cur : string) :
  Str.all isTokenChar t = true -> startsWithTokenChar rest = false ->
  scanTokens (t ++ rest) (Some cur) = (cur ++ t) :: scanTokens rest None.
Proof.
  revert cur. induction t as [|c t IH]; intros cur Hall Hrest.
  - rewrite append_empty_r. change ("" ++ rest) with rest.
    destruct rest as [|c r]; [reflexivity|]. simpl in *. rewrite Hrest.
    unfold isTokenChar in Hrest. destruct (Str.isDigit c); [discriminate | reflexivity].
  - simpl in Hall. apply andb_true_iff in Hall as [Hc Hall].
    rewrite append_cons. simpl. rewrite Hc, (IH _ Hall Hrest), append_assoc. reflexivity.
Qed.

Lemma tokenRuns_unique (raw : string) (toks : list string) :
  tokenRuns raw toks -> toks = numberTokens raw.
Proof.
  unfold numberTokens. induction 1 as [gap Hg | gap t rest toks Hg Ht Hall Hrest _ IH].
  - rewrite <- (append_empty_r gap), (scanTokens_skip gap "" Hg). reflexivity.
  - rewrite (scanTokens_skip gap _ Hg). destruct t as [|c t]; [discriminate|].
    simpl in Ht, Hall. apply andb_true_iff in Hall as [_ Hall].
    rewrite append_cons. simpl. rewrite Ht, (scanTokens_run t rest _ Hall Hrest), IH.
    reflexivity.
Qed.

(** C3, as amended.  When the raw capture holds a digit,
    [pickNumberToken] returns the first numeric token whose count of
    digits, separators left out, reaches the minimum of the unit kind (6
    for currency, 2 for volume, 1 otherwise), and the first token when none
    does; the count is the number of digits of the token.  The numeric
    tokens are the runs of digits, dots and commas that start at a digit
    and go as far as they can, from left to right, wherever they stand in
    the capture, inside a word too; they are the words between the white
    space only in a capture made of such runs and white space.  The two
    sample captures give ["8.235.606"] and ["12.3"]; for the unit kind
    "count" the first one gives ["3"], out of the word "Q3". *)
Theorem pickNumberToken_first_qualifying :
  (forall raw kind : string,
     Str.count Str.isDigit raw <> 0 ->
     exists first rest,
       numberTokens raw = first :: rest
       /\ ((exists pre t post,
               first :: rest = (pre ++ t :: post)%list
               /\ Forall (fun x => digitCount x < threshold kind) pre
               /\ threshold kind <= digitCount t
               /\ pickNumberToken (Some raw) kind = Some t)
           \/ (Forall (fun x => digitCount x < threshold kind) (first :: rest)
               /\ pickNumberToken (Some raw) kind = Some first)))
  /\ (forall raw t : string,
        In t (numberTokens raw) -> digitCount t = Str.count Str.isDigit t)
  /\ (forall raw : string, numericCapture raw -> numberTokens raw = Str.words raw)
  /\ pickNumberToken (Some "Q3 2025 8.235.606 ty") "currency" = Some "8.235.606"
  /\ pickNumberToken (Some "12.3 45.6") "currency" = Some "12.3"
  /\ pickNumberToken (Some "Q3 2025 8.235.606 ty") "count" = Some "3"
  /\ (forall (raw : string) (toks : list string),
        tokenRuns raw toks <-> toks = numberTokens raw).
Proof.
  repeat apply conj; try reflexivity.
  - intros raw kind Hd. apply numberTokens_digit in Hd.
    unfold pickNumberToken. change (default "" (Some raw)) with raw.
    destruct (numberTokens raw) as [|first rest] eqn:Htok; [congruence|].
    exists first, rest. split; [reflexivity|].
    cbv beta iota. rewrite minDigits_threshold.
    match goal with
    | |- context [List.find ?f ?l] => destruct (List.find f l) as [t|] eqn:Hfind
    end.
    + left. apply find_split in Hfind as (pre & post & Heq & Ht & Hpre).
      exists pre, t, post. repeat split; try assumption.
      * eapply Forall_impl; [exact Hpre|]. simpl. intros x Hx.
        apply Nat.leb_gt in Hx. exact Hx.
      * apply Nat.leb_le in Ht. exact Ht.
    + right. apply find_none_all in Hfind. split; [|reflexivity].
      eapply Forall_impl; [exact Hfind|]. simpl. intros x Hx.
      apply Nat.leb_gt in Hx. exact Hx.
  - intros raw t Hin. apply digitCount_digits.
    pose proof (scanTokens_chars raw None I) as Hall.
    rewrite Forall_forall in Hall. apply Hall. apply list_elem_of_In. exact Hin.
  - intros raw [Hok Hw]. apply tokens_are_words; assumption.
  - intros raw toks. split; [apply tokenRuns_unique|].
    intros ->. apply (proj1 (scanTokens_runs raw)).
Qed.

Lemma pickNumberToken_first_qualifying_witness :
  (exists first rest,
     numberTokens "Q3 2025 8.235.606 ty" = first :: rest
     /\ ((exists pre t post,
             first :: rest = (pre ++ t :: post)%list
             /\ Forall (fun x => digitCount x < threshold "currency") pre
             /\ threshold "currency" <= digitCount t
             /\ pickNumberToken (Some "Q3 2025 8.235.606 ty") "currency" = Some t)
         \/ (Forall (fun x => digitCount x < threshold "currency") (first :: rest)
             /\ pickNumberToken (Some "Q3 2025 8.235.606 ty") "currency" = Some first)))
  /\ numberTokens "12.3 45.6" = Str.words "12.3 45.6".
Proof.
  destruct pickNumberToken_first_qualifying as (Hpick & _ & Hwords & _).
  split.
  - apply (Hpick "Q3 2025 8.235.606 ty" "currency"). vm_compute. lia.
  - apply (Hwords "12.3 45.6"). split; [reflexivity|]. repeat constructor.
Defined.

(** C3, the claim as written fails: for the unit kind "count" the first
    sample capture gives "3", the digit of the word "Q3", which is none of
    the white-space-separated tokens of the capture. *)
Lemma pickNumberToken_splits_words :
  pickNumberToken (Some "Q3 2025 8.235.606 ty") "count" = Some "3"
  /\ Str.words "Q3 2025 8.235.606 ty" = ["Q3"; "2025"; "8.235.606"; "ty"]
  /\ ~ In "3" (Str.words "Q3 2025 8.235.606 ty").
Proof.
  split; [vm_compute; reflexivity|]. split; [vm_compute; reflexivity|].
  vm_compute. intros H. repeat destruct H as [H | H]; try discriminate H. exact H.
Qed.

(** ** Unit normaliser *)

Lemma normalizeByUnit_currency_unfold (v : Q) (unitToken context : option string) :
  normalizeByUnit (Some (Fin v)) unitToken context "currency" =
  let token := foldAscii unitToken in
  let ctx := foldAscii context in
  if has token "billion" || has token "ty" then Some v
  else if has token "million" || has token "trieu" then Some (v / 1000)%Q
  else if has token "usd" then None
  else if has ctx "trieu" || has ctx "million" then Some (v / 1000)%Q
  else if has ctx "ty" || has ctx "billion" then Some v
  else if Qle_bool 1000000 (Qabs v) then Some (v / 1000000000)%Q
  else if Qle_bool 1000 (Qabs v) then Some (v / 1000)%Q
  else Some v.
Proof. reflexivity. Qed.

Lemma Qle_bool_false (a b : Q) : (b < a)%Q -> Qle_bool a b = false.
Proof.
  intros H. destruct (Qle_bool a b) eqn:E; [|reflexivity].
  apply Qle_bool_iff in E. exfalso. exact (Qlt_not_le _ _ H E).
Qed.

(** C4, as amended.  For a finite value of kind currency the rules apply
    in this order: a unit token with "billion" or "ty" leaves the value;
    one with "million" or "trieu" divides by 1000; one with "usd" gives
    [null]; with no unit word in the token the context decides the same
    way ("trieu" or "million" divide by 1000, "ty" or "billion" leave the
    value); only with no unit word in either is the scale read off the
    magnitude: at least 1e6 divides by 1e9, at least 1e3 divides by 1e3,
    anything smaller stays.  So 8235606 with token "ty" stays and with
    token "trieu" becomes 8235606/1000, whatever the context. *)
Theorem normalizeByUnit_currency_rules (v : Q) (unitToken context : option string) :
  let token := foldAscii unitToken in
  let ctx := foldAscii context in
  let out := normalizeByUnit (Some (Fin v)) unitToken context "currency" in
  (has token "billion" = true \/ has token "ty" = true -> out = Some v)
  /\ (has token "billion" = false -> has token "ty" = false ->
      has token "million" = true \/ has token "trieu" = true -> out = Some (v / 1000)%Q)
  /\ (noScaleWord token -> has token "usd" = true -> out = None)
  /\ (noScaleWord token -> has token "usd" = false ->
      has ctx "trieu" = true \/ has ctx "million" = true -> out = Some (v / 1000)%Q)
  /\ (noScaleWord token -> has token "usd" = false ->
      has ctx "trieu" = false -> has ctx "million" = false ->
      has ctx "ty" = true \/ has ctx "billion" = true -> out = Some v)
  /\ (noScaleWord token -> has token "usd" = false -> noScaleWord ctx ->
      (1000000 <= Qabs v)%Q -> out = Some (v / 1000000000)%Q)
  /\ (noScaleWord token -> has token "usd" = false -> noScaleWord ctx ->
      (1000 <= Qabs v)%Q -> (Qabs v < 1000000)%Q -> out = Some (v / 1000)%Q)
  /\ (noScaleWord token -> has token "usd" = false -> noScaleWord ctx ->
      (Qabs v < 1000)%Q -> out = Some v)
  /\ normalizeByUnit (Some (Fin 8235606)) (Some "ty") context "currency" = Some 8235606%Q
  /\ normalizeByUnit (Some (Fin 8235606)) (Some "trieu") context "currency"
     = Some (8235606 / 1000)%Q.
Proof.
  intros token ctx out. subst out. rewrite normalizeByUnit_currency_unfold.
  fold token ctx. cbv zeta. unfold noScaleWord.
  repeat apply conj; try reflexivity.
  - intros [-> | ->]; rewrite ?orb_true_r; reflexivity.
  - intros -> -> [-> | ->]; rewrite ?orb_true_r; reflexivity.
  - intros (-> & -> & -> & ->) ->. reflexivity.
  - intros (-> & -> & -> & ->) -> [-> | ->]; rewrite ?orb_true_r; reflexivity.
  - intros (-> & -> & -> & ->) -> -> -> [-> | ->]; rewrite ?orb_true_r; reflexivity.
  - intros (-> & -> & -> & ->) -> (-> & -> & -> & ->) Hv.
    apply Qle_bool_iff in Hv. simpl. rewrite Hv. reflexivity.
  - intros (-> & -> & -> & ->) -> (-> & -> & -> & ->) Hlo Hhi.
    apply Qle_bool_iff in Hlo. simpl. rewrite Hlo, (Qle_bool_false _ _ Hhi). reflexivity.
  - intros (-> & -> & -> & ->) -> (-> & -> & -> & ->) Hhi.
    assert (Hhi' : (Qabs v < 1000000)%Q)
      by (eapply Qlt_trans; [exact Hhi | reflexivity]).
    simpl. rewrite (Qle_bool_false _ _ Hhi), (Qle_bool_false _ _ Hhi'). reflexivity.
Qed.

Lemma normalizeByUnit_currency_rules_witness :
  normalizeByUnit (Some (Fin 8235606)) (Some "Ty") (Some "doanh thu 8.235.606 ty") "currency"
  = Some 8235606%Q
  /\ normalizeByUnit (Some (Fin 5000000)) (Some "") (Some "so lieu") "currency"
     = Some (5000000 / 1000000000)%Q.
Proof.
  split.
  - destruct (normalizeByUnit_currency_rules 8235606 (Some "Ty")
                (Some "doanh thu 8.235.606 ty")) as (Hty & _).
    apply Hty. right. reflexivity.
  - destruct (normalizeByUnit_currency_rules 5000000 (Some "") (Some "so lieu"))
      as (_ & _ & _ & _ & _ & Hbig & _).
    apply Hbig.
    + repeat split.
    + reflexivity.
    + repeat split.
    + vm_compute. discriminate.
Defined.

(** C4, the claim as written fails: with no unit token and a magnitude of
    at least 1e6 the value is not always divided by 1e9; a context that
    holds "trieu" divides it by 1000 instead. *)
Lemma normalizeByUnit_context_decides :
  normalizeByUnit (Some (Fin 5000000)) (Some "")
                  (Some "doanh thu thuan 5.000.000 trieu dong") "currency"
  = Some (5000000 / 1000)%Q
  /\ ~ (5000000 / 1000 == 5000000 / 1000000000)%Q
  /\ (1000000 <= Qabs 5000000)%Q.
Proof.
  split; [reflexivity|]. split.
  - vm_compute. discriminate.
  - vm_compute. discriminate.
Qed.

(** ** Period proximity *)

Lemma eqci_iff (a b : ascii) : Str.eqci a b = true <-> Str.lowerChar a = Str.lowerChar b.
Proof. unfold Str.eqci. apply Ascii.eqb_eq. Qed.

Lemma sameFolded_length (a b : string) : sameFolded a b -> String.length a = String.length b.
Proof.
  unfold sameFolded, Str.toLowerCase. revert b.
  induction a as [|x a IH]; intros [|y b]; simpl; intros H; try discriminate; try reflexivity.
  injection H as _ H. rewrite (IH b H). reflexivity.
Qed.

Lemma prefixBy_eqci_spec (p s : string) :
  Str.prefixBy Str.eqci p s = true
  <-> exists p' rest, s = p' ++ rest /\ sameFolded p' p.
Proof.
  unfold sameFolded, Str.toLowerCase. split.
  - revert s. induction p as [|a p IH]; intros s H.
    + exists "", s. split; reflexivity.
    + destruct s as [|b s]; simpl in H; [discriminate|].
      apply andb_true_iff in H as [Hab Hp]. apply eqci_iff in Hab.
      destruct (IH s Hp) as (p' & rest & -> & Hp').
      exists (String b p'), rest. split; [reflexivity|]. simpl. rewrite Hab, Hp'. reflexivity.
  - intros (p' & rest & -> & Hp'). revert p' Hp'.
    induction p as [|a p IH]; intros p' Hp'; [reflexivity|].
    destruct p' as [|b p']; simpl in Hp'; [discriminate|].
    injection Hp' as Hab Hp'. simpl. apply andb_true_iff. split.
    + apply eqci_iff. symmetry. exact Hab.
    + apply IH. exact Hp'.
Qed.

Lemma prefixBy_eqc_spec (p s : string) :
  Str.prefixBy Str.eqc p s = true <-> exists rest, s = p ++ rest.
Proof.
  split.
  - revert s. induction p as [|a p IH]; intros s H.
    + exists s. reflexivity.
    + destruct s as [|b s]; simpl in H; [discriminate|].
      apply andb_true_iff in H as [Hab Hp]. apply Ascii.eqb_eq in Hab. subst b.
      destruct (IH s Hp) as (rest & ->). exists rest. reflexivity.
  - intros (rest & ->). induction p as [|a p IH]; [reflexivity|].
    simpl. apply andb_true_iff. split; [apply Ascii.eqb_refl | exact IH].
Qed.

Lemma existsSuffix_spec (f : string -> bool) (s : string) :
  Str.existsSuffix f s = true <-> exists pre suf, s = pre ++ suf /\ f suf = true.
Proof.
  split.
  - induction s as [|c r IH]; simpl; intros H; apply orb_true_iff in H as [H | H].
    + exists "", "". split; [reflexivity | exact H].
    + discriminate.
    + exists "", (String c r). split; [reflexivity | exact H].
    + destruct (IH H) as (pre & suf & -> & Hs).
      exists (String c pre), suf. split; [reflexivity | exact Hs].
  - intros (pre & suf & -> & Hs). induction pre as [|c pre IH]; simpl.
    + destruct suf; simpl; rewrite Hs; reflexivity.
    + rewrite IH. apply orb_true_r.
Qed.

Lemma afterSpaces_spec (f : string -> bool) (s : string) :
  afterSpaces f s = true
  <-> exists ws rest, s = ws ++ rest /\ Str.all Str.isSpace ws = true /\ f rest = true.
Proof.
  split.
  - induction s as [|c r IH]; simpl; intros H; apply orb_true_iff in H as [H | H].
    + exists "", "". repeat split; assumption.
    + discriminate.
    + exists "", (String c r). repeat split; assumption.
    + apply andb_true_iff in H as [Hc H].
      destruct (IH H) as (ws & rest & -> & Hws & Hf).
      exists (String c ws), rest. repeat split; [|exact Hf].
      simpl. rewrite Hc, Hws. reflexivity.
  - intros (ws & rest & -> & Hws & Hf). induction ws as [|c ws IH]; simpl.
    + destruct rest; simpl; rewrite Hf; reflexivity.
    + simpl in Hws. apply andb_true_iff in Hws as [Hc Hws].
      rewrite Hc, (IH Hws). apply orb_true_r.
Qed.

Lemma includes_spec (hay needle : string) :
  Str.includes hay needle = true <-> exists pre post, hay = pre ++ needle ++ post.
Proof.
  unfold Str.includes. rewrite existsSuffix_spec. split.
  - intros (pre & suf & -> & H). apply prefixBy_eqc_spec in H as (rest & ->).
    exists pre, rest. reflexivity.
  - intros (pre & post & ->). exists pre, (needle ++ post). split; [reflexivity|].
    apply prefixBy_eqc_spec. exists post. reflexivity.
Qed.

Lemma markerAt_spec (kw lit s : string) :
  markerAt kw lit s = true <-> markerPrefix kw lit s.
Proof.
  unfold markerAt, markerPrefix. rewrite andb_true_iff, prefixBy_eqci_spec. split.
  - intros [(kw' & rest & -> & Hkw) H].
    rewrite <- (sameFolded_length _ _ Hkw), drop_append in H.
    apply afterSpaces_spec in H as (ws & rest' & -> & Hws & H).
    apply prefixBy_eqci_spec in H as (lit' & post & -> & Hlit).
    exists kw', ws, lit', post. repeat split; assumption.
  - intros (kw' & ws & lit' & post & -> & Hkw & Hws & Hlit). split.
    + exists kw', (ws ++ lit' ++ post). split; [reflexivity | exact Hkw].
    + rewrite <- (sameFolded_length _ _ Hkw), drop_append.
      apply afterSpaces_spec. exists ws, (lit' ++ post). repeat split; [exact Hws|].
      apply prefixBy_eqci_spec. exists lit', post. split; [reflexivity | exact Hlit].
Qed.

Lemma romanForm_table (q : string) :
  In q ["1"; "2"; "3"; "4"] -> forall r, romanForm q r <-> r = quarterToRoman q.
Proof.
  intros Hq r. unfold romanForm. simpl in Hq.
  destruct Hq as [<- | [<- | [<- | [<- | []]]]]; simpl; split;
    try (intros [[H ->] | [[H ->] | [[H ->] | [H ->]]]]; try discriminate H; reflexivity);
    intros ->; tauto.
Qed.

Lemma quarterRegexTest_spec (q window : string) :
  In q ["1"; "2"; "3"; "4"] ->
  quarterRegexTest q (quarterToRoman q) window = true <-> holdsQuarterMarker q window.
Proof.
  intros Hq. unfold quarterRegexTest, holdsQuarterMarker. rewrite existsSuffix_spec.
  split; intros (pre & suf & -> & H); exists pre, suf; (split; [reflexivity|]).
  - apply orb_true_iff in H as [H | H]; [apply orb_true_iff in H as [H | H]|];
      apply markerAt_spec in H; [tauto | tauto |].
    right. right. exists (quarterToRoman q). split; [|exact H].
    apply (romanForm_table q Hq). reflexivity.
  - destruct H as [H | [H | (r & Hr & H)]].
    + apply markerAt_spec in H. rewrite H. reflexivity.
    + apply markerAt_spec in H. rewrite H, ?orb_true_r. reflexivity.
    + apply (romanForm_table q Hq) in Hr. subst r.
      apply markerAt_spec in H. rewrite H, ?orb_true_r. reflexivity.
Qed.

Lemma periodWindow_chars (t : string) (index : nat) :
  periodWindow t (Z.of_nat index) = windowChars t index.
Proof.
  unfold periodWindow, windowChars, Str.slice, Str.relIndex.
  destruct (Z.ltb_spec (Z.max 0 (Z.of_nat index - 180)) 0) as [H | _]; [lia|].
  destruct (Z.ltb_spec (Z.of_nat index + 260) 0) as [H | _]; [lia|].
  replace (Z.to_nat (Z.max 0 (Z.of_nat index - 180))) with (index - 180) by lia.
  replace (Z.to_nat (Z.of_nat index + 260)) with (index + 260) by lia.
  set (a := index - 180). set (b := index + 260). set (len := String.length t).
  destruct (Nat.le_gt_cases len a) as [Ha | Ha].
  - rewrite (Nat.min_r a len) by lia.
    rewrite (drop_ge len t) by (subst len; lia). rewrite (drop_ge a t) by (subst len; lia).
    rewrite !take_empty. reflexivity.
  - rewrite (Nat.min_l a len) by lia.
    destruct (Nat.le_gt_cases b len) as [Hb | Hb].
    + rewrite (Nat.min_l b len) by lia. reflexivity.
    + rewrite (Nat.min_r b len) by lia.
      rewrite !take_ge by (rewrite drop_length; subst len; lia). reflexivity.
Qed.

Lemma period_parts (y q : string) :
  String.length y = 4 -> In q ["1"; "2"; "3"; "4"] ->
  y ++ "Q" ++ q <> ""
  /\ Str.slice (y ++ "Q" ++ q) 0 4 = y
  /\ Str.sliceFrom (y ++ "Q" ++ q) 5 = q.
Proof.
  intros Hy Hq.
  destruct y as [|a [|b [|c [|d [|e y]]]]]; simpl in Hy; try discriminate.
  simpl in Hq. destruct Hq as [<- | [<- | [<- | [<- | []]]]];
    repeat split; try reflexivity; discriminate.
Qed.

Lemma hasPeriodNearMatch_unfold (t : string) (index : Z) (p : string) :
  p <> "" ->
  hasPeriodNearMatch t index (Some p)
  = quarterRegexTest (Str.sliceFrom p 5) (quarterToRoman (Str.sliceFrom p 5))
                     (periodWindow t index)
    && yearRegexTest (Str.slice p 0 4) (periodWindow t index).
Proof. destruct p; [congruence | reflexivity]. Qed.

(** C6.  For a period [YYYYQn], a year of four digits and a quarter from
    1 to 4, the proximity check accepts a match at [index] exactly when
    the window from 180 characters before the match to 260 after it holds
    the year and a quarter marker: [q n], [quy n], or [quy] with the Roman
    form of the quarter, which is i, ii, iii or iv.  Under [strictPeriod] a
    match that passed the other filters is kept exactly when the check
    accepts it.  A match next to "quy 4 nam 2024" passes for 2024Q4, and so
    does one next to "quy iv nam 2024"; the same match with the marker 500
    characters away fails, and so does one next to a bare "quy", to the
    Roman form of another quarter, or to another year. *)
Theorem hasPeriodNearMatch_window :
  (forall (t : string) (index : nat) (y q : string),
     String.length y = 4 -> Str.all Str.isDigit y = true -> In q ["1"; "2"; "3"; "4"] ->
     hasPeriodNearMatch t (Z.of_nat index) (Some (y ++ "Q" ++ q)) = true
     <-> holds y (windowChars t index) /\ holdsQuarterMarker q (windowChars t index))
  /\ (forall (t kind : string) (lo hi : option Q) (p : option string) (m : RegexMatch),
        acceptMatch t kind lo hi p true m
        = if hasPeriodNearMatch t (Z.of_nat (m_index m)) p
          then acceptMatch t kind lo hi p false m
          else None)
  /\ hasPeriodNearMatch "so cua hang 412 quy 4 nam 2024" 0 (Some "2024Q4") = true
  /\ hasPeriodNearMatch ("so cua hang 412" ++ Sample.filler 500 ++ "quy 4 nam 2024") 0
                        (Some "2024Q4") = false
  /\ hasPeriodNearMatch "bao cao quy iv nam 2024: so cua hang 412" 26 (Some "2024Q4") = true
  /\ hasPeriodNearMatch "bao cao QUY  IV nam 2024: so cua hang 412" 27 (Some "2024Q4") = true
  /\ hasPeriodNearMatch "bao cao quy nam 2024: so cua hang 412" 23 (Some "2024Q4") = false
  /\ hasPeriodNearMatch "bao cao quy ii nam 2024: so cua hang 412" 26 (Some "2024Q4") = false
  /\ hasPeriodNearMatch "bao cao quy 4 nam 2023: so cua hang 412" 25 (Some "2024Q4") = false.
Proof.
  repeat apply conj.
  - intros t index y q Hy _ Hq.
    destruct (period_parts y q Hy Hq) as (Hne & Hyear & Hquarter).
    rewrite hasPeriodNearMatch_unfold by exact Hne.
    rewrite Hyear, Hquarter, periodWindow_chars, andb_true_iff.
    rewrite (quarterRegexTest_spec q _ Hq). unfold yearRegexTest. rewrite includes_spec.
    unfold holds. tauto.
  - intros t kind lo hi p m. unfold acceptMatch.
    destruct (normalizeByUnit _ _ _ _) as [v|]; [|destruct (hasPeriodNearMatch _ _ _); reflexivity].
    repeat match goal with
           | |- context [match ?o with Some _ => _ | None => _ end] => destruct o
           | |- context [if Qlt_bool ?a ?b then _ else _] => destruct (Qlt_bool a b)
           end;
      simpl; destruct (hasPeriodNearMatch _ _ _); reflexivity.
  - vm_compute. reflexivity.
  - vm_compute. reflexivity.
  - vm_compute. reflexivity.
  - vm_compute. reflexivity.
  - vm_compute. reflexivity.
  - vm_compute. reflexivity.
  - vm_compute. reflexivity.
Qed.

Lemma hasPeriodNearMatch_window_witness :
  hasPeriodNearMatch "bao cao quy iv nam 2024: so cua hang 412" (Z.of_nat 26)
    (Some ("2024" ++ "Q" ++ "4")) = true
  <-> holds "2024" (windowChars "bao cao quy iv nam 2024: so cua hang 412" 26)
      /\ holdsQuarterMarker "4" (windowChars "bao cao quy iv nam 2024: so cua hang 412" 26).
Proof.
  destruct hasPeriodNearMatch_window as (H & _).
  apply H.
  - reflexivity.
  - reflexivity.
  - simpl. tauto.
Defined.

(** C10.  With [null] or the empty string for the period the proximity
    check accepts every match, so [extractValueFromText] called with a
    [null] period gives the same result with [strictPeriod] set as with it
    cleared; an explicit entry, whose extraction is called that way,
    assigns the value of the extraction without the proximity check. *)
Theorem null_period_disables_proximity :
  (forall (t : string) (index : Z),
     hasPeriodNearMatch t index None = true /\ hasPeriodNearMatch t index (Some "") = true)
  /\ (forall (E : Env) (t : string) (pats : list string) (kind : string)
             (lo hi : option Q),
        extractValueFromText E t pats kind lo hi None true
        = extractValueFromText E t pats kind lo hi None false)
  /\ (forall (E : Env) (kpi : Kpi) (entry : Entry) (s : Series) (w : World),
        hydrateEntry E kpi entry s w
        = if negb (isPeriod (e_period entry)) then (w, Ok s)
          else if Str.isEmpty (e_url entry) || Str.isEmpty (e_pattern entry) then (w, Ok s)
          else match fetchDocument E (e_url entry) w with
               | (w', Throw _) => (w', Ok s)
               | (w', Ok doc) =>
                   match extractValueFromText E (folded doc) [e_pattern entry]
                           (unitKindOf kpi) (minValueOf kpi) (maxValueOf kpi) None false with
                   | Throw _ => (w', Ok s)
                   | Ok v => (w', Ok (setValue (e_period entry) v s))
                   end
               end).
Proof.
  assert (Hext : forall (E : Env) (t : string) (pats : list string) (kind : string)
                        (lo hi : option Q),
             extractValueFromText E t pats kind lo hi None true
             = extractValueFromText E t pats kind lo hi None false).
  { intros E t pats kind lo hi. induction pats as [|pat rest IH]; simpl; [reflexivity|].
    destruct (regexValid E pat); simpl; [|reflexivity].
    assert (Hacc : forall m, acceptMatch t kind lo hi None true m
                             = acceptMatch t kind lo hi None false m).
    { intros m. unfold acceptMatch. simpl. reflexivity. }
    assert (Hfirst : forall ms,
               firstAccepted (acceptMatch t kind lo hi None true) ms
               = firstAccepted (acceptMatch t kind lo hi None false) ms).
    { induction ms as [|m ms IHms]; simpl; [reflexivity|]. rewrite Hacc, IHms. reflexivity. }
    rewrite Hfirst, IH. reflexivity. }
  repeat apply conj.
  - intros t index. split; reflexivity.
  - exact Hext.
  - intros E kpi entry s w. unfold hydrateEntry.
    destruct (negb (isPeriod (e_period entry))); [reflexivity|].
    destruct (Str.isEmpty (e_url entry) || Str.isEmpty (e_pattern entry)); [reflexivity|].
    unfold tryCatch, bind, lift, ret.
    destruct (fetchDocument E (e_url entry) w) as [w' [doc|e]]; [|reflexivity].
    rewrite Hext.
    destruct (extractValueFromText _ _ _ _ _ _ _ _); reflexivity.
Qed.

(** ** Document cache *)

Section Cache.

Variable E : Env.

Lemma fetchDocument_hit (u : string) (w : World) (d : Document) :
  cache w !! u = Some d -> fetchDocument E u w = (w, Ok d).
Proof. intros H. unfold fetchDocument. rewrite H. reflexivity. Qed.

Lemma fetchDocument_miss (u : string) (w : World) :
  cache w !! u = None ->
  fetchDocument E u w =
  match download E u with
  | Ok d => ({| cache := <[u := d]> (cache w); requests := u :: requests w |}, Ok d)
  | Throw e => ({| cache := cache w; requests := u :: requests w |}, Throw e)
  end.
Proof.
  intros H. unfold fetchDocument, download. rewrite H.
  unfold bind, fetchBuffer, lift, cacheSet, ret.
  destruct (fetch E u) as [res|e]; [|reflexivity].
  destruct (res_ok res); [|reflexivity].
  destruct (parseDocument E u (res_body res)); reflexivity.
Qed.

Lemma fetchDocument_cache_kept (u u' : string) (w : World) (d' : Document) :
  cache w !! u' = Some d' -> cache (fst (fetchDocument E u w)) !! u' = Some d'.
Proof.
  intros H. destruct (cache w !! u) as [d|] eqn:Hu.
  - rewrite (fetchDocument_hit u w d Hu). exact H.
  - rewrite (fetchDocument_miss u w Hu). destruct (download E u); simpl; [|exact H].
    rewrite lookup_insert_ne; [exact H | congruence].
Qed.

Lemma fetchDocument_requests_other (u u' : string) (w : World) :
  u <> u' -> requestsFor u' (fst (fetchDocument E u w)) = requestsFor u' w.
Proof.
  intros Hne. unfold requestsFor. destruct (cache w !! u) as [d|] eqn:Hu.
  - rewrite (fetchDocument_hit u w d Hu). reflexivity.
  - rewrite (fetchDocument_miss u w Hu).
    assert (Hb : String.eqb u' u = false) by (apply String.eqb_neq; congruence).
    destruct (download E u); simpl; rewrite Hb; reflexivity.
Qed.

Lemma fetchMany_cached (us : list string) (u : string) (w : World) (d : Document) :
  cache w !! u = Some d ->
  cache (fetchMany E us w) !! u = Some d
  /\ requestsFor u (fetchMany E us w) = requestsFor u w.
Proof.
  revert w. induction us as [|u' rest IH]; intros w H; simpl;
    [split; [exact H | reflexivity]|].
  destruct (IH (fst (fetchDocument E u' w)) (fetchDocument_cache_kept u' u w d H))
    as [Hc Hr].
  split; [exact Hc|]. rewrite Hr.
  destruct (String.eqb_spec u' u) as [-> | Hne].
  - rewrite (fetchDocument_hit u w d H). reflexivity.
  - apply fetchDocument_requests_other. exact Hne.
Qed.

Lemma fetchMany_once (us : list string) (u : string) (w : World) (d : Document) :
  download E u = Ok d ->
  requestsFor u w <= 1 ->
  (requestsFor u w = 1 -> cache w !! u = Some d) ->
  requestsFor u (fetchMany E us w) <= 1.
Proof.
  intros Hd. revert w. induction us as [|u' rest IH]; intros w Hle Hc; simpl; [exact Hle|].
  destruct (String.eqb_spec u' u) as [-> | Hne].
  - destruct (cache w !! u) as [d0|] eqn:Hu.
    + rewrite (fetchDocument_hit u w d0 Hu). simpl.
      apply IH; [exact Hle | intros H1; rewrite Hu; exact (Hc H1)].
    + rewrite (fetchDocument_miss u w Hu), Hd. simpl.
      assert (H0 : requestsFor u w = 0).
      { destruct (requestsFor u w) as [|[|n]] eqn:Hn; [reflexivity | | lia].
        specialize (Hc eq_refl). congruence. }
      apply IH; unfold requestsFor in *; simpl; rewrite String.eqb_refl; simpl.
      * lia.
      * intros _. apply lookup_insert_eq.
  - apply IH.
    + rewrite fetchDocument_requests_other by exact Hne. exact Hle.
    + rewrite fetchDocument_requests_other by exact Hne. intros H1.
      apply fetchDocument_cache_kept. apply Hc. exact H1.
Qed.

Lemma fetchDocument_cache_other (u u' : string) (w : World) :
  u <> u' -> cache (fst (fetchDocument E u w)) !! u' = cache w !! u'.
Proof.
  intros Hne. destruct (cache w !! u) as [d|] eqn:Hu.
  - rewrite (fetchDocument_hit u w d Hu). reflexivity.
  - rewrite (fetchDocument_miss u w Hu). destruct (download E u); simpl; [|reflexivity].
    apply lookup_insert_ne. exact Hne.
Qed.

Lemma fetchMany_failing (us : list string) (u : string) (w : World) (e : string) :
  download E u = Throw e -> cache w !! u = None ->
  cache (fetchMany E us w) !! u = None
  /\ requestsFor u (fetchMany E us w)
     = length (List.filter (String.eqb u) us) + requestsFor u w.
Proof.
  intros Hd. revert w. induction us as [|u' rest IH]; intros w Hc; simpl;
    [split; [exact Hc | reflexivity]|].
  destruct (String.eqb_spec u u') as [<- | Hne].
  - rewrite (fetchDocument_miss u w Hc), Hd. cbn [fst].
    destruct (IH {| cache := cache w; requests := u :: requests w |} Hc) as [Hc' Hr].
    split; [exact Hc'|]. rewrite Hr. unfold requestsFor. simpl.
    rewrite String.eqb_refl. simpl. lia.
  - assert (Hne' : u' <> u) by congruence.
    destruct (IH (fst (fetchDocument E u' w))) as [Hc' Hr].
    { rewrite fetchDocument_cache_other by exact Hne'. exact Hc. }
    split; [exact Hc'|]. rewrite Hr, fetchDocument_requests_other by exact Hne'.
    reflexivity.
Qed.

(** C7, as amended.  A call for a cached URL returns the cached document
    and changes nothing, so it sends no request.  A call that succeeds
    leaves the document in the cache, and the next call for the URL returns
    it from there.  A call whose download or parse fails returns the error
    and leaves the cache as it was.  No call replaces or removes a cached
    document.  Over any run of calls, once a URL is cached no further
    request is sent for it, and in a run that starts with nothing requested
    a URL that can be downloaded is requested at most once: there is at
    most one successful fetch-and-parse for a URL.  A URL whose download or
    parse fails is never cached, and every call for it sends a request. *)
Theorem fetchDocument_caches_successes :
  (forall u w d, cache w !! u = Some d -> fetchDocument E u w = (w, Ok d))
  /\ (forall u w w' d,
        fetchDocument E u w = (w', Ok d) ->
        cache w' !! u = Some d /\ fetchDocument E u w' = (w', Ok d))
  /\ (forall u w w' e, fetchDocument E u w = (w', Throw e) -> cache w' = cache w)
  /\ (forall u w e,
        cache w !! u = None -> download E u = Throw e ->
        exists w', fetchDocument E u w = (w', Throw e) /\ cache w' = cache w)
  /\ (forall u u' w d',
        cache w !! u' = Some d' -> cache (fst (fetchDocument E u w)) !! u' = Some d')
  /\ (forall us u w d,
        cache w !! u = Some d ->
        cache (fetchMany E us w) !! u = Some d
        /\ requestsFor u (fetchMany E us w) = requestsFor u w)
  /\ (forall us u w d,
        download E u = Ok d -> requests w = [] ->
        requestsFor u (fetchMany E us w) <= 1)
  /\ (forall us u w e,
        download E u = Throw e -> cache w !! u = None ->
        cache (fetchMany E us w) !! u = None
        /\ requestsFor u (fetchMany E us w)
           = length (List.filter (String.eqb u) us) + requestsFor u w).
Proof.
  repeat apply conj.
  - exact fetchDocument_hit.
  - intros u w w' d H.
    assert (Hc : cache w' !! u = Some d).
    { destruct (cache w !! u) as [d0|] eqn:Hu.
      - rewrite (fetchDocument_hit u w d0 Hu) in H. congruence.
      - rewrite (fetchDocument_miss u w Hu) in H. destruct (download E u); [|discriminate].
        injection H as <- <-. simpl. apply lookup_insert_eq. }
    split; [exact Hc | apply fetchDocument_hit; exact Hc].
  - intros u w w' e H. destruct (cache w !! u) as [d0|] eqn:Hu.
    + rewrite (fetchDocument_hit u w d0 Hu) in H. discriminate.
    + rewrite (fetchDocument_miss u w Hu) in H. destruct (download E u); [discriminate|].
      injection H as <- _. reflexivity.
  - intros u w e Hu Hd. rewrite (fetchDocument_miss u w Hu), Hd.
    eexists. split; reflexivity.
  - intros u u' w d'. apply fetchDocument_cache_kept.
  - intros us u w d. apply fetchMany_cached.
  - intros us u w d Hd Hw. apply (fetchMany_once us u w d Hd); unfold requestsFor;
      rewrite Hw; simpl; [lia | discriminate].
  - intros us u w e Hd Hc. apply (fetchMany_failing us u w e Hd Hc).
Qed.

End Cache.

Lemma fetchDocument_caches_successes_witness :
  exists w' d,
    fetchDocument Sample.env "https://ir.example.vn/2025q4-stores.html" Sample.emptyWorld
    = (w', Ok d)
    /\ cache w' !! "https://ir.example.vn/2025q4-stores.html" = Some d
    /\ fetchDocument Sample.env "https://ir.example.vn/2025q4-stores.html" w' = (w', Ok d)
    /\ requests w' = ["https://ir.example.vn/2025q4-stores.html"]
    /\ folded d = " so cua hang: 412 ".
Proof.
  destruct (fetchDocument Sample.env "https://ir.example.vn/2025q4-stores.html"
              Sample.emptyWorld) as [w' [d|e]] eqn:Hrun; [|vm_compute in Hrun; discriminate].
  exists w', d. split; [reflexivity|].
  destruct (fetchDocument_caches_successes Sample.env) as (_ & Hstore & _).
  destruct (Hstore _ _ _ _ Hrun) as [Hc Hagain].
  split; [exact Hc|]. split; [exact Hagain|].
  vm_compute in Hrun. injection Hrun as <- <-. split; reflexivity.
Defined.

(** C7, the claim as written fails: the PDF at [Site.scanUrl] downloads
    but does not parse; each of three calls for it fails, each sends a
    request, and nothing is cached, so the URL is fetched and parsed three
    times in one run. *)
Lemma failing_url_is_fetched_at_every_call :
  snd (fetchDocument Site.scanEnv Site.scanUrl Sample.emptyWorld)
  = Throw "Invalid PDF structure"
  /\ requests (fetchMany Site.scanEnv [Site.scanUrl; Site.scanUrl; Site.scanUrl]
                 Sample.emptyWorld)
     = [Site.scanUrl; Site.scanUrl; Site.scanUrl]
  /\ cache (fetchMany Site.scanEnv [Site.scanUrl; Site.scanUrl; Site.scanUrl]
              Sample.emptyWorld) !! Site.scanUrl = None.
Proof. repeat split; vm_compute; reflexivity. Qed.

(** ** OCR rotation choice *)

Section Rotation.

Variable E : Env.
Variables bin langs : string.
Variable keywords : list string.
Variable page : Page.

Lemma rotationLoop_step (req : bool) (angle : Z) (rest : list Z) (best : string) (bs : Z)
    (t : string) :
  ocrAt E bin langs page angle = Ok t ->
  rotationLoop E bin langs keywords req page (angle :: rest) best bs =
  if req && (score keywords t <? 1000)%Z && (angle =? 0)%Z
  then rotationLoop E bin langs keywords req page rest best bs
  else
    let better := (bs <? score keywords t)%Z in
    if (angle =? 0)%Z && (1000 <=? score keywords t)%Z
    then Ok (if better then t else best)
    else rotationLoop E bin langs keywords req page rest
                      (if better then t else best) (if better then score keywords t else bs).
Proof.
  unfold ocrAt. simpl. destruct (rotateImageBuffer E (image page) angle) as [img|e];
    [|discriminate].
  destruct (bool_decide (sp_status (spawnTesseract E bin img langs) = Some 0%Z));
    simpl; [|discriminate].
  intros [= <-]. reflexivity.
Qed.

Lemma rotationLoop_others (req : bool) (others : list Z) (best : string) (bs : Z) :
  (forall a, In a others -> a <> 0%Z /\ exists t, ocrAt E bin langs page a = Ok t) ->
  exists t,
    rotationLoop E bin langs keywords req page others best bs = Ok t
    /\ ((t = best
         /\ forall b t', In b others -> ocrAt E bin langs page b = Ok t' -> (score keywords t' <= bs)%Z)
        \/ (exists a, In a others /\ ocrAt E bin langs page a = Ok t /\ (bs < score keywords t)%Z
                      /\ forall b t', In b others -> ocrAt E bin langs page b = Ok t' ->
                                      (score keywords t' <= score keywords t)%Z)).
Proof.
  revert best bs. induction others as [|a rest IH]; intros best bs Hall.
  - exists best. split; [reflexivity|]. left. split; [reflexivity|]. intros b t' [].
  - destruct (Hall a (or_introl eq_refl)) as [Ha (ta & Hta)].
    rewrite (rotationLoop_step req a rest best bs ta Hta).
    assert (Hz : (a =? 0)%Z = false) by (apply Z.eqb_neq; exact Ha).
    rewrite Hz, !andb_false_r. simpl.
    assert (Hrest : forall b, In b rest -> b <> 0%Z /\ exists t, ocrAt E bin langs page b = Ok t)
      by (intros b Hb; apply Hall; right; exact Hb).
    destruct (Z.ltb_spec bs (score keywords ta)) as [Hlt | Hge].
    + destruct (IH ta (score keywords ta) Hrest) as (t & Hrun & [[-> Hmax] | (c & Hc & Htc & Hlt' & Hmax)]).
      * exists ta. split; [exact Hrun|]. right. exists a.
        split; [left; reflexivity|]. split; [exact Hta|]. split; [exact Hlt|].
        intros b t' [<- | Hb] Hb'; [|exact (Hmax b t' Hb Hb')].
        rewrite Hta in Hb'. injection Hb' as <-. lia.
      * exists t. split; [exact Hrun|]. right. exists c.
        split; [right; exact Hc|]. split; [exact Htc|]. split; [lia|].
        intros b t' [<- | Hb] Hb'; [|exact (Hmax b t' Hb Hb')].
        rewrite Hta in Hb'. injection Hb' as <-. lia.
    + destruct (IH best bs Hrest) as (t & Hrun & [[-> Hmax] | (c & Hc & Htc & Hlt' & Hmax)]).
      * exists best. split; [exact Hrun|]. left. split; [reflexivity|].
        intros b t' [<- | Hb] Hb'; [|exact (Hmax b t' Hb Hb')].
        rewrite Hta in Hb'. injection Hb' as <-. exact Hge.
      * exists t. split; [exact Hrun|]. right. exists c.
        split; [right; exact Hc|]. split; [exact Htc|]. split; [exact Hlt'|].
        intros b t' [<- | Hb] Hb'; [|exact (Hmax b t' Hb Hb')].
        rewrite Hta in Hb'. injection Hb' as <-. lia.
Qed.

(** C9, as amended.  With [requireKeywords] set, an unrotated text that
    matches no keyword (score below 1000) is never a candidate: the loop
    goes on as if that rotation had not been tried.  The page then
    contributes the best-scoring text among the other rotations, and the
    empty text when no other rotation is configured; the unrotated text is
    not returned.  Without [requireKeywords] the unrotated text is kept. *)
Theorem unrotated_without_keywords_is_dropped (t0 : string) :
  ocrAt E bin langs page 0 = Ok t0 -> (score keywords t0 < 1000)%Z ->
  (forall rest best bs,
     rotationLoop E bin langs keywords true page (0%Z :: rest) best bs
     = rotationLoop E bin langs keywords true page rest best bs)
  /\ pageText E bin langs keywords true [0%Z] page = Ok ""
  /\ (forall others,
        others <> [] ->
        (forall a, In a others -> a <> 0%Z /\ exists t, ocrAt E bin langs page a = Ok t) ->
        exists a t,
          In a others /\ ocrAt E bin langs page a = Ok t
          /\ pageText E bin langs keywords true (0%Z :: others) page = Ok t
          /\ forall b t', In b others -> ocrAt E bin langs page b = Ok t' -> (score keywords t' <= score keywords t)%Z)
  /\ pageText E bin langs keywords false [0%Z] page = Ok t0.
Proof.
  intros H0 Hlow.
  assert (Hskip : forall rest best bs,
             rotationLoop E bin langs keywords true page (0%Z :: rest) best bs
             = rotationLoop E bin langs keywords true page rest best bs).
  { intros rest best bs. rewrite (rotationLoop_step true 0 rest best bs t0 H0).
    destruct (Z.ltb_spec (score keywords t0) 1000) as [_ | Hge]; [reflexivity | lia]. }
  repeat apply conj.
  - exact Hskip.
  - unfold pageText. rewrite Hskip. reflexivity.
  - intros others Hne Hall. unfold pageText. rewrite Hskip.
    destruct (rotationLoop_others true others "" (-1)%Z Hall)
      as (t & Hrun & [[-> Hmax] | (a & Ha & Hta & _ & Hmax)]).
    + destruct others as [|a rest]; [congruence|]. exfalso.
      destruct (Hall a (or_introl eq_refl)) as [_ (ta & Hta)].
      specialize (Hmax a ta (or_introl eq_refl) Hta). unfold score in Hmax. lia.
    + exists a, t. repeat split; assumption.
  - unfold pageText. rewrite (rotationLoop_step false 0 [] "" (-1)%Z t0 H0). simpl.
    destruct (Z.ltb_spec (-1) (score keywords t0)) as [_ | Hge]; [|unfold score in Hge; lia].
    destruct (1000 <=? score keywords t0)%Z; reflexivity.
Qed.

End Rotation.

Lemma unrotated_without_keywords_is_dropped_witness :
  pageText Sample.env "/usr/bin/tesseract" "eng" ["doanh thu"; "revenue"] true [0%Z]
           {| pageNum := 7; image := "page-7" |} = Ok ""
  /\ exists a t,
       In a [90; 180; 270]%Z
       /\ ocrAt Sample.env "/usr/bin/tesseract" "eng" {| pageNum := 8; image := "page-8" |} a
          = Ok t
       /\ pageText Sample.env "/usr/bin/tesseract" "eng" ["doanh thu"; "revenue"] true
                   [0; 90; 180; 270]%Z {| pageNum := 8; image := "page-8" |} = Ok t.
Proof.
  split.
  - destruct (unrotated_without_keywords_is_dropped Sample.env "/usr/bin/tesseract" "eng"
                ["doanh thu"; "revenue"] {| pageNum := 7; image := "page-7" |}
                "Trang 7   12 345") as (_ & Hempty & _).
    + reflexivity.
    + vm_compute. reflexivity.
    + exact Hempty.
  - destruct (unrotated_without_keywords_is_dropped Sample.env "/usr/bin/tesseract" "eng"
                ["doanh thu"; "revenue"] {| pageNum := 8; image := "page-8" |} "x")
      as (_ & _ & Hbest & _).
    + reflexivity.
    + vm_compute. reflexivity.
    + destruct (Hbest [90; 180; 270]%Z) as (a & t & Ha & Hta & Hrun & _).
      * discriminate.
      * intros a [<- | [<- | [<- | []]]]; (split; [discriminate | eexists; reflexivity]).
      * exists a, t. repeat split; assumption.
Defined.

(** C9, the claim as written fails: on a page whose upright text has no
    keyword and whose rotations read nothing, the page contributes the
    empty text although the upright rotation produced text; the upright
    text is not brought back when no better rotation is found. *)
Lemma unrotated_text_is_not_recovered :
  ocrAt Sample.env "/usr/bin/tesseract" "eng" {| pageNum := 7; image := "page-7" |} 0
  = Ok "Trang 7   12 345"
  /\ pageText Sample.env "/usr/bin/tesseract" "eng" ["doanh thu"; "revenue"] true
              [0; 90; 180; 270]%Z {| pageNum := 7; image := "page-7" |} = Ok ""
  /\ ocrWithCli Sample.env [ {| pageNum := 7; image := "page-7" |} ]
       {| o_maxPages := None; o_scale := None; o_langs := None; o_engine := None;
          o_rotateAngles := Some [0; 90; 180; 270]%Z;
          o_ocrKeywords := Some ["doanh thu"; "revenue"];
          o_requireKeywords := true; o_debug := false |}
     = Ok (Some (String "010" "")).
Proof. repeat split; vm_compute; reflexivity. Qed.

(** ** Candidate ranking *)

Lemma isNil_filter {A : Type} (f : A -> bool) (l : list A) :
  isNil (List.filter f l) = negb (existsb f l).
Proof.
  induction l as [|x r IH]; simpl; [reflexivity|].
  destruct (f x); simpl; [reflexivity | exact IH].
Qed.

Lemma stage_source {A : Type} (f : A -> bool) (l : list A) :
  (if negb (isNil (List.filter f l)) then List.filter f l else l) = stage f l.
Proof. unfold stage. rewrite isNil_filter, negb_involutive. reflexivity. Qed.

Lemma matchesKeyword_nil (item : Candidate) : matchesKeyword [] item = false.
Proof. reflexivity. Qed.

Lemma stage_none {A : Type} (f : A -> bool) (l : list A) :
  (forall x, f x = false) -> stage f l = l.
Proof.
  intros H. unfold stage.
  replace (existsb f l) with false; [reflexivity|].
  symmetry. induction l as [|x r IH]; simpl; [reflexivity|]. rewrite H. exact IH.
Qed.

Lemma insertByScore_perm (x : Candidate * nat) (l : list (Candidate * nat)) :
  Permutation (insertByScore x l) (x :: l).
Proof.
  induction l as [|y r IH]; simpl; [reflexivity|].
  destruct (snd x <? snd y); [|reflexivity].
  rewrite IH. apply perm_swap.
Qed.

Lemma sortByScore_perm (l : list (Candidate * nat)) : Permutation (sortByScore l) l.
Proof.
  induction l as [|x r IH]; simpl; [reflexivity|].
  rewrite insertByScore_perm, IH. reflexivity.
Qed.

Lemma insertByScore_sorted (x : Candidate * nat) (l : list (Candidate * nat)) :
  StronglySorted sndAtLeast l -> StronglySorted sndAtLeast (insertByScore x l).
Proof.
  induction l as [|y r IH]; simpl; intros Hs.
  - constructor; constructor.
  - apply StronglySorted_inv in Hs as [Hr Hy].
    destruct (Nat.ltb_spec (snd x) (snd y)) as [Hlt | Hge].
    + constructor; [apply IH; exact Hr|].
      rewrite Forall_forall. intros z Hz.
      apply list_elem_of_In in Hz.
      apply (Permutation_in _ (insertByScore_perm x r)) in Hz as [<- | Hz].
      * unfold sndAtLeast. lia.
      * rewrite Forall_forall in Hy. apply Hy. apply list_elem_of_In. exact Hz.
    + constructor; [constructor; assumption|].
      constructor; [exact Hge|].
      eapply Forall_impl; [exact Hy|]. unfold sndAtLeast. simpl. intros z Hz. lia.
Qed.

Lemma sortByScore_sorted (l : list (Candidate * nat)) :
  StronglySorted sndAtLeast (sortByScore l).
Proof.
  induction l as [|x r IH]; simpl; [constructor | apply insertByScore_sorted; exact IH].
Qed.

Lemma dedupeFrom_elem (seen : gset string) (l : list Candidate) (c : Candidate) :
  c ∈ dedupeFrom seen l -> (url c ∉ seen) /\ url c <> "" /\ c ∈ l.
Proof.
  revert seen. induction l as [|x r IH]; intros seen; simpl; [intros H; inversion H|].
  destruct (Str.isEmpty (url x)) eqn:He.
  { intros H. destruct (IH _ H) as (? & ? & ?). repeat split; try assumption.
    apply list_elem_of_further. assumption. }
  destruct (bool_decide (url x ∈ seen)) eqn:Hs.
  { intros H. destruct (IH _ H) as (? & ? & ?). repeat split; try assumption.
    apply list_elem_of_further. assumption. }
  apply bool_decide_eq_false in Hs.
  intros H. apply elem_of_cons in H as [-> | H].
  - repeat split; [exact Hs | | apply list_elem_of_here].
    intros Hu. rewrite Hu in He. discriminate.
  - destruct (IH _ H) as (Hn & ? & ?).
    repeat split; [intros Hin; apply Hn, elem_of_union_r, Hin | assumption |].
    apply list_elem_of_further. assumption.
Qed.

Lemma dedupeFrom_nodup (seen : gset string) (l : list Candidate) :
  NoDup (List.map url (dedupeFrom seen l)).
Proof.
  revert seen. induction l as [|x r IH]; intros seen; simpl; [constructor|].
  destruct (Str.isEmpty (url x)); [apply IH|].
  destruct (bool_decide (url x ∈ seen)); [apply IH|].
  simpl. constructor; [|apply IH].
  intros Hin. apply list_elem_of_fmap in Hin as (c & Hu & Hc).
  apply dedupeFrom_elem in Hc as (Hn & _). rewrite <- Hu in Hn. set_solver.
Qed.

Lemma dedupeFrom_sublist (seen : gset string) (l : list Candidate) :
  sublist (dedupeFrom seen l) l.
Proof.
  revert seen. induction l as [|x r IH]; intros seen; simpl; [constructor|].
  destruct (Str.isEmpty (url x)); [apply sublist_cons, IH|].
  destruct (bool_decide (url x ∈ seen)); [apply sublist_cons, IH|].
  apply sublist_skip, IH.
Qed.

Lemma dedupeFrom_covers (seen : gset string) (l : list Candidate) (c : Candidate) :
  c ∈ l -> url c <> "" ->
  url c ∈ seen \/ url c ∈ List.map url (dedupeFrom seen l).
Proof.
  revert seen. induction l as [|x r IH]; intros seen Hc Hu; [inversion Hc|].
  simpl. apply elem_of_cons in Hc as [-> | Hc].
  - destruct (Str.isEmpty (url x)) eqn:He.
    { destruct (url x); [congruence | discriminate]. }
    destruct (bool_decide (url x ∈ seen)) eqn:Hs.
    + apply bool_decide_eq_true in Hs. left. exact Hs.
    + right. simpl. apply list_elem_of_here.
  - destruct (Str.isEmpty (url x)); [apply IH; assumption|].
    destruct (bool_decide (url x ∈ seen)); [apply IH; assumption|].
    destruct (IH ({[url x]} ∪ seen) Hc Hu) as [Hin | Hin].
    + apply elem_of_union in Hin as [Hin | Hin]; [|left; exact Hin].
      apply elem_of_singleton in Hin. right. simpl. rewrite Hin. apply list_elem_of_here.
    + right. simpl. apply list_elem_of_further. exact Hin.
Qed.

Lemma scored_filter (kpiKey : string) (l : list Candidate) :
  List.map fst
    (List.filter (fun item : Candidate * nat => 3 <=? snd item)
       (List.map (fun item => (item, scoreCandidate item kpiKey)) l))
  = List.filter (fun c => 3 <=? scoreCandidate c kpiKey) l.
Proof.
  induction l as [|x r IH]; [reflexivity|].
  cbn [List.map List.filter fst snd].
  destruct (3 <=? scoreCandidate x kpiKey); cbn [List.map fst]; rewrite IH; reflexivity.
Qed.

Lemma scored_consistent (kpiKey : string) (l : list Candidate) :
  Forall (fun item : Candidate * nat => snd item = scoreCandidate (fst item) kpiKey)
    (List.filter (fun item : Candidate * nat => 3 <=? snd item)
       (List.map (fun item => (item, scoreCandidate item kpiKey)) l)).
Proof.
  induction l as [|x r IH]; [constructor|].
  cbn [List.map List.filter fst snd].
  destruct (3 <=? scoreCandidate x kpiKey); [constructor; [reflexivity | exact IH] | exact IH].
Qed.

Lemma sorted_map_fst (kpiKey : string) (l : list (Candidate * nat)) :
  Forall (fun item : Candidate * nat => snd item = scoreCandidate (fst item) kpiKey) l ->
  StronglySorted sndAtLeast l ->
  StronglySorted (scoresAtLeast kpiKey) (List.map fst l).
Proof.
  induction l as [|x r IH]; simpl; intros Hc Hs; [constructor|].
  apply Forall_cons in Hc as [Hx Hr]. apply StronglySorted_inv in Hs as [Hs Hall].
  constructor; [apply IH; assumption|].
  rewrite Forall_forall. intros c Hin. apply list_elem_of_fmap in Hin as (y & -> & Hy).
  rewrite Forall_forall in Hall, Hr. specialize (Hall y Hy). specialize (Hr y Hy).
  unfold scoresAtLeast, sndAtLeast in *. lia.
Qed.

(** C8.  The ranked list is built from the raw pool by the keyword
    filter, the PDF filter (for a KPI that requires PDF sources) and the
    inferable-period filter, in that order, each applied only when
    something passes it; then one entry per URL is kept (entries without a
    URL go), entries scoring below 3 are dropped whatever is left, the rest
    is put in descending order of score, and at most [maxDocs] entries are
    taken from the front. *)
Theorem rankCandidates_pipeline (kpiMeta : KpiMeta) (kpiKey : string) (maxDocs : nat)
    (raw : list Candidate) :
  let keywordList := List.map (fun k => foldAscii (Some k)) (urlKeywords kpiMeta) in
  let pool1 := stage (matchesKeyword keywordList) raw in
  let pool2 := if requiresPdf kpiMeta then stage hasPdfSuffix pool1 else pool1 in
  let pool3 := stage hasInferablePeriod pool2 in
  let unique := dedupeEntries pool3 in
  let kept := List.filter (fun c => 3 <=? scoreCandidate c kpiKey) unique in
  NoDup (List.map url unique)
  /\ sublist unique pool3
  /\ (forall c, c ∈ pool3 -> url c <> "" -> url c ∈ List.map url unique)
  /\ exists sorted,
       Permutation sorted kept
       /\ StronglySorted (scoresAtLeast kpiKey) sorted
       /\ rankCandidates kpiMeta kpiKey maxDocs raw = take maxDocs sorted
       /\ length (rankCandidates kpiMeta kpiKey maxDocs raw) <= maxDocs
       /\ Forall (fun c => 3 <= scoreCandidate c kpiKey) (rankCandidates kpiMeta kpiKey maxDocs raw).
Proof.
  intros keywordList pool1 pool2 pool3 unique kept.
  assert (Hrank : rankCandidates kpiMeta kpiKey maxDocs raw
                  = List.map fst
                      (take maxDocs
                         (sortByScore
                            (List.filter (fun item : Candidate * nat => 3 <=? snd item)
                               (List.map (fun item => (item, scoreCandidate item kpiKey))
                                  unique))))).
  { unfold rankCandidates. fold keywordList. cbv zeta.
    assert (H1 : (if negb (isNil keywordList)
                  then if negb (isNil (List.filter (matchesKeyword keywordList) raw))
                       then List.filter (matchesKeyword keywordList) raw else raw
                  else raw) = pool1).
    { subst pool1. destruct keywordList as [|k ks]; simpl negb; cbv iota.
      - symmetry. apply stage_none. intros x. reflexivity.
      - apply stage_source. }
    rewrite H1.
    assert (H2 : (if requiresPdf kpiMeta
                  then if negb (isNil (List.filter hasPdfSuffix pool1))
                       then List.filter hasPdfSuffix pool1 else pool1
                  else pool1) = pool2).
    { subst pool2. destruct (requiresPdf kpiMeta); [apply stage_source | reflexivity]. }
    rewrite H2. rewrite (stage_source hasInferablePeriod pool2). reflexivity. }
  repeat apply conj.
  - apply dedupeFrom_nodup.
  - apply dedupeFrom_sublist.
  - intros c Hc Hu. destruct (dedupeFrom_covers ∅ pool3 c Hc Hu) as [H | H]; [set_solver | exact H].
  - set (scored := List.filter (fun item : Candidate * nat => 3 <=? snd item)
                     (List.map (fun item => (item, scoreCandidate item kpiKey)) unique)) in *.
    exists (List.map fst (sortByScore scored)).
    assert (Hperm : Permutation (List.map fst (sortByScore scored)) kept).
    { subst kept. rewrite <- (scored_filter kpiKey unique). fold scored.
      apply Permutation_map, sortByScore_perm. }
    assert (Htake : rankCandidates kpiMeta kpiKey maxDocs raw
                    = take maxDocs (List.map fst (sortByScore scored))).
    { rewrite Hrank. symmetry. apply firstn_map. }
    repeat apply conj.
    + exact Hperm.
    + apply sorted_map_fst; [|apply sortByScore_sorted].
      rewrite Forall_forall. intros item Hin.
      apply list_elem_of_In in Hin.
      apply (Permutation_in _ (sortByScore_perm scored)) in Hin.
      pose proof (scored_consistent kpiKey unique) as Hc. fold scored in Hc.
      rewrite Forall_forall in Hc. apply Hc. apply list_elem_of_In. exact Hin.
    + exact Htake.
    + rewrite Htake, length_take. lia.
    + rewrite Htake. rewrite Forall_forall. intros c Hc.
      apply elem_of_take in Hc as (i & Hi & _).
      apply list_elem_of_lookup_2 in Hi. apply list_elem_of_In in Hi.
      apply (Permutation_in _ Hperm) in Hi. subst kept.
      apply filter_In in Hi as [_ Hi]. apply Nat.leb_le in Hi. exact Hi.
Qed.

Lemma rankCandidates_pipeline_witness :
  rankCandidates meta_stores "stores" 80
    (snd (Sample.crawlSite "PNJ" Sample.autoOn Sample.emptyWorld))
  = [ {| url := "https://ir.example.vn/bao-cao-2025q3-cua-hang.html";
         anchor := "Bao cao quy 3 nam 2025" |};
      {| url := "https://ir.example.vn/2025q4-stores.html"; anchor := "" |} ]
  /\ "https://ir.example.vn/2025q4-stores.html"
     ∈ List.map url
         (dedupeEntries
            (stage hasInferablePeriod
               (stage (matchesKeyword
                         (List.map (fun k => foldAscii (Some k)) (urlKeywords meta_stores)))
                  (snd (Sample.crawlSite "PNJ" Sample.autoOn Sample.emptyWorld)))))
  /\ rankCandidates meta_stores "stores" 80
       [ {| url := "https://ir.example.vn/lien-he.html"; anchor := "Lien he" |} ] = [].
Proof.
  split; [vm_compute; reflexivity|]. split; [|vm_compute; reflexivity].
  destruct (rankCandidates_pipeline meta_stores "stores" 80
              (snd (Sample.crawlSite "PNJ" Sample.autoOn Sample.emptyWorld)))
    as (_ & _ & Hcovers & _).
  apply (Hcovers {| url := "https://ir.example.vn/2025q4-stores.html"; anchor := "" |}).
  - vm_compute. apply list_elem_of_further, list_elem_of_here.
  - discriminate.
Defined.

(** ** Series *)

Lemma setValue_periods (p : string) (v : option Q) (s : Series) :
  List.map period (setValue p v s) = List.map period s.
Proof.
  induction s as [|x r IH]; simpl; [reflexivity|].
  destruct (String.eqb (period x) p); simpl; [reflexivity | rewrite IH; reflexivity].
Qed.

Lemma setValue_same (p : string) (v v' : option Q) (s : Series) :
  setValue p v (setValue p v' s) = setValue p v s.
Proof.
  induction s as [|x r IH]; simpl; [reflexivity|].
  destruct (String.eqb (period x) p) eqn:Hx; simpl; rewrite Hx; [reflexivity|].
  rewrite IH. reflexivity.
Qed.

Lemma setValue_comm (p q : string) (v w : option Q) (s : Series) :
  p <> q -> setValue p v (setValue q w s) = setValue q w (setValue p v s).
Proof.
  intros Hne. induction s as [|x r IH]; simpl; [reflexivity|].
  destruct (String.eqb_spec (period x) q) as [Hq | Hq];
    destruct (String.eqb_spec (period x) p) as [Hp | Hp]; simpl.
  - congruence.
  - destruct (String.eqb_spec (period x) p); [congruence|].
    destruct (String.eqb_spec (period x) q); [reflexivity | congruence].
  - destruct (String.eqb_spec (period x) p); [|congruence].
    destruct (String.eqb_spec (period x) q); [congruence | reflexivity].
  - destruct (String.eqb_spec (period x) p); [congruence|].
    destruct (String.eqb_spec (period x) q); [congruence|].
    rewrite IH. reflexivity.
Qed.

Lemma setValue_elem (p : string) (v : option Q) (s : Series) (pt : Point) :
  pt ∈ setValue p v s -> period pt <> p -> pt ∈ s.
Proof.
  induction s as [|x r IH]; simpl; [intros H; inversion H|].
  destruct (String.eqb_spec (period x) p) as [Hx | Hx]; intros H Hne.
  - apply elem_of_cons in H as [-> | H]; [simpl in Hne; congruence|].
    apply list_elem_of_further. exact H.
  - apply elem_of_cons in H as [-> | H]; [apply list_elem_of_here|].
    apply list_elem_of_further. apply IH; assumption.
Qed.

Lemma setValue_kept (p : string) (v : option Q) (s : Series) :
  (forall pt, pt ∈ s -> period pt = p -> value pt = None) ->
  kept s (setValue p v s).
Proof.
  unfold kept. induction s as [|x r IH]; intros Hnone i pt Hi Hv; [exact Hi|].
  simpl. destruct (String.eqb_spec (period x) p) as [Hx | Hx].
  - destruct i as [|i]; simpl in *; [|exact Hi].
    injection Hi as ->. exfalso. apply Hv. apply Hnone; [apply list_elem_of_here | exact Hx].
  - destruct i as [|i]; simpl in *; [exact Hi|].
    apply IH; [|exact Hi | exact Hv].
    intros pt' Hin. apply Hnone. apply list_elem_of_further. exact Hin.
Qed.

Lemma periods_inj (s : Series) (a b : Point) :
  NoDup (List.map period s) -> a ∈ s -> b ∈ s -> period a = period b -> a = b.
Proof.
  induction s as [|x r IH]; simpl; intros Hnd Ha Hb Hp; [inversion Ha|].
  apply NoDup_cons in Hnd as [Hx Hnd].
  apply elem_of_cons in Ha as [-> | Ha]; apply elem_of_cons in Hb as [-> | Hb].
  - reflexivity.
  - exfalso. apply Hx. rewrite Hp. apply (list_elem_of_fmap_2 period). exact Hb.
  - exfalso. apply Hx. rewrite <- Hp. apply (list_elem_of_fmap_2 period). exact Ha.
  - apply IH; assumption.
Qed.

Lemma missingPeriods_elem (s : Series) (p : string) :
  p ∈ missingPeriods s <-> exists pt, pt ∈ s /\ period pt = p /\ value pt = None.
Proof.
  unfold missingPeriods. induction s as [|x r IH]; simpl.
  - split; [intros H; inversion H | intros (pt & H & _); inversion H].
  - destruct (bool_decide (value x = None)) eqn:Hx; simpl.
    + apply bool_decide_eq_true in Hx. rewrite elem_of_cons, IH. split.
      * intros [-> | (pt & Hin & Hp & Hv)].
        -- exists x. repeat split; [apply list_elem_of_here | exact Hx].
        -- exists pt. repeat split; [apply list_elem_of_further| |]; assumption.
      * intros (pt & Hin & Hp & Hv). apply elem_of_cons in Hin as [-> | Hin].
        -- left. symmetry. exact Hp.
        -- right. exists pt. repeat split; assumption.
    + apply bool_decide_eq_false in Hx. rewrite IH. split.
      * intros (pt & Hin & Hp & Hv). exists pt.
        repeat split; [apply list_elem_of_further| |]; assumption.
      * intros (pt & Hin & Hp & Hv). apply elem_of_cons in Hin as [-> | Hin]; [congruence|].
        exists pt. repeat split; assumption.
Qed.

(** ** Hydration *)

Section Hydration.

Variable E : Env.

Lemma autoItem_spec (kpiMeta : KpiMeta) (autoCfg : AutoCfg) (item : Candidate)
    (a : AutoState) (w : World) :
  exists w' a', autoItem E kpiMeta autoCfg item a w = (w', Ok a') /\ fillsAtMostOne a a'.
Proof.
  unfold autoItem, fillsAtMostOne.
  repeat match goal with
         | |- context [match ?x with _ => _ end] => destruct x eqn:?
         end;
    eexists _, _; (split; [reflexivity|]); simpl;
    try (left; split; reflexivity).
  right. eexists _, _. split; [|split; reflexivity].
  match goal with
  | H : negb (bool_decide (?p ∈ _)) = false |- _ =>
      apply negb_false_iff, bool_decide_eq_true in H; exact H
  end.
Qed.

Lemma onlyFills_refl (a : AutoState) : onlyFills a a.
Proof. split; [reflexivity|]. intros H. split; [exact H|]. intros i pt Hi _. exact Hi. Qed.

Lemma onlyFills_trans (a b c : AutoState) : onlyFills a b -> onlyFills b c -> onlyFills a c.
Proof.
  intros [Hp1 H1] [Hp2 H2]. split; [congruence|].
  intros Ha. destruct (H1 Ha) as [Hb Hk1]. destruct (H2 Hb) as [Hc Hk2].
  split; [exact Hc|]. intros i pt Hi Hv. apply Hk2; [|exact Hv]. apply Hk1; assumption.
Qed.

Lemma fillsAtMostOne_onlyFills (a a' : AutoState) : fillsAtMostOne a a' -> onlyFills a a'.
Proof.
  intros [[Hs Hm] | (p & v & Hp & Hs & Hm)]; unfold onlyFills, missingAreNull.
  - rewrite Hs, Hm. split; [reflexivity|]. intros H. split; [exact H|].
    intros i pt Hi _. exact Hi.
  - rewrite Hs, Hm. split; [apply setValue_periods|]. intros Ha. split.
    + intros pt Hin Hmiss. apply elem_of_difference in Hmiss as [Hmiss Hne].
      apply Ha; [|exact Hmiss].
      apply (setValue_elem p (Some v)); [exact Hin|]. set_solver.
    + apply setValue_kept. intros pt Hin Heq. apply Ha; [exact Hin|]. rewrite Heq. exact Hp.
Qed.

Lemma autoLoop_spec (kpiMeta : KpiMeta) (autoCfg : AutoCfg) (candidates : list Candidate)
    (a : AutoState) (w : World) :
  exists w' a', autoLoop E kpiMeta autoCfg candidates a w = (w', Ok a') /\ onlyFills a a'.
Proof.
  revert a w. induction candidates as [|item rest IH]; intros a w; simpl.
  - exists w, a. split; [reflexivity | apply onlyFills_refl].
  - destruct (bool_decide (a_missing a = ∅)).
    + exists w, a. split; [reflexivity | apply onlyFills_refl].
    + unfold bind. destruct (autoItem_spec kpiMeta autoCfg item a w) as (w1 & a1 & -> & H1).
      destruct (IH a1 w1) as (w2 & a2 & -> & H2).
      exists w2, a2. split; [reflexivity|].
      eapply onlyFills_trans; [apply fillsAtMostOne_onlyFills; exact H1 | exact H2].
Qed.

Lemma initial_missingAreNull (s : Series) (rem : Z) :
  NoDup (List.map period s) ->
  missingAreNull {| a_series := s; a_missing := list_to_set (missingPeriods s);
                    a_ocrRemaining := rem |}.
Proof.
  intros Hnd pt Hin Hmiss. simpl in *.
  apply elem_of_list_to_set, missingPeriods_elem in Hmiss as (pt' & Hin' & Hp & Hv).
  rewrite (periods_inj s pt pt' Hnd Hin Hin'); [exact Hv | symmetry; exact Hp].
Qed.

Lemma autoFillSeries_spec (kpi : Kpi) (w : World) :
  exists w' s',
    autoFillSeries E kpi w = (w', Ok s')
    /\ List.map period s' = List.map period (series kpi)
    /\ (NoDup (List.map period (series kpi)) -> kept (series kpi) s').
Proof.
  unfold autoFillSeries. destruct (KPI_PATTERNS (key kpi)) as [kpiMeta|].
  - unfold bind, ret. destruct (crawl E (_ticker kpi) (_auto kpi) w) as [w0 raw].
    match goal with
    | |- context [autoLoop E ?m ?c ?l ?a ?w] =>
        destruct (autoLoop_spec m c l a w) as (w1 & a1 & -> & Hp & Hk)
    end.
    exists w1, (a_series a1). split; [reflexivity|]. split; [exact Hp|].
    intros Hnd. apply Hk. apply initial_missingAreNull. exact Hnd.
  - exists w, (series kpi). split; [reflexivity|]. split; [reflexivity|].
    intros _ i pt Hi _. exact Hi.
Qed.

Lemma hydrateEntry_unfold (kpi : Kpi) (entry : Entry) (s : Series) (w : World) :
  hydrateEntry E kpi entry s w
  = if negb (isPeriod (e_period entry)) then (w, Ok s)
    else if Str.isEmpty (e_url entry) || Str.isEmpty (e_pattern entry) then (w, Ok s)
    else match fetchDocument E (e_url entry) w with
         | (w', Throw _) => (w', Ok s)
         | (w', Ok doc) =>
             match extractValueFromText E (folded doc) [e_pattern entry]
                     (unitKindOf kpi) (minValueOf kpi) (maxValueOf kpi) None true with
             | Throw _ => (w', Ok s)
             | Ok v => (w', Ok (setValue (e_period entry) v s))
             end
         end.
Proof.
  unfold hydrateEntry.
  destruct (negb (isPeriod (e_period entry))); [reflexivity|].
  destruct (Str.isEmpty (e_url entry) || Str.isEmpty (e_pattern entry)); [reflexivity|].
  unfold tryCatch, bind, lift, ret.
  destruct (fetchDocument E (e_url entry) w) as [w' [doc|e]]; [|reflexivity].
  destruct (extractValueFromText _ _ _ _ _ _ _ _); reflexivity.
Qed.

Lemma hydrateEntry_total (kpi : Kpi) (entry : Entry) (s : Series) (w : World) :
  exists w' s',
    hydrateEntry E kpi entry s w = (w', Ok s')
    /\ List.map period s' = List.map period s.
Proof.
  rewrite hydrateEntry_unfold.
  repeat match goal with
         | |- context [match ?x with _ => _ end] => destruct x eqn:?
         end;
    eexists _, _; (split; [reflexivity|]); rewrite ?setValue_periods; reflexivity.
Qed.

Lemma hydrateEntries_total (kpi : Kpi) (entries : list Entry) (s : Series) (w : World) :
  exists w' s',
    hydrateEntries E kpi entries s w = (w', Ok s')
    /\ List.map period s' = List.map period s.
Proof.
  revert s w. induction entries as [|entry rest IH]; intros s w; simpl.
  - exists w, s. split; reflexivity.
  - unfold bind. destruct (hydrateEntry_total kpi entry s w) as (w1 & s1 & -> & Hp1).
    destruct (IH s1 w1) as (w2 & s2 & -> & Hp2).
    exists w2, s2. split; [reflexivity|]. rewrite Hp2. exact Hp1.
Qed.

Lemma tryCatch_total {A : Type} (m : M A) (h : string -> M A) (w : World) :
  (forall e w0, exists w' a, h e w0 = (w', Ok a)) ->
  exists w' a, tryCatch m h w = (w', Ok a).
Proof.
  intros Hh. unfold tryCatch. destruct (m w) as [w0 [a|e]]; [|apply Hh].
  exists w0, a. reflexivity.
Qed.

Lemma discoverEntriesFrom_total (discoverCfg : list DiscoverCfg) (entries : list Entry)
    (w : World) :
  exists w' es, discoverEntriesFrom E discoverCfg entries w = (w', Ok es).
Proof.
  revert entries w. induction discoverCfg as [|d rest IH]; intros entries w; simpl.
  - exists w, entries. reflexivity.
  - destruct (Str.isEmpty (listUrl d) || Str.isEmpty (linkPattern d)
              || Str.isEmpty (valuePattern d)); [apply IH|].
    unfold bind at 1.
    match goal with
    | |- context [tryCatch ?m ?h w] =>
        destruct (tryCatch_total m h w) as (w1 & es1 & ->)
    end.
    + intros e w0. exists w0, entries. reflexivity.
    + apply IH.
Qed.

Lemma hydrateSeries_total (kpi : Kpi) (w : World) :
  exists w' s',
    hydrateSeries E kpi w = (w', Ok s')
    /\ List.map period s' = List.map period (series kpi).
Proof.
  unfold hydrateSeries.
  match goal with
  | |- context [bind ?m ?k w] => assert (Hm : exists w0 cfg, m w = (w0, Ok cfg))
  end.
  { destruct (isNil (_cfg kpi) && negb (isNil (_discover kpi))).
    - unfold bind, discoverEntries.
      destruct (discoverEntriesFrom_total (_discover kpi) [] w) as (w0 & es & ->).
      eexists _, _. reflexivity.
    - eexists _, _. reflexivity. }
  destruct Hm as (w0 & cfg & Hm). unfold bind at 1. rewrite Hm.
  unfold bind at 1.
  destruct (hydrateEntries_total kpi cfg (series kpi) w0) as (w1 & s1 & -> & Hp1).
  destruct (notFalse (enabled (_auto kpi)) && negb (isNil (missingPeriods s1))).
  - destruct (autoFillSeries_spec (withSeries kpi s1) w1) as (w2 & s2 & -> & Hp2 & _).
    exists w2, s2. split; [reflexivity|]. rewrite Hp2. exact Hp1.
  - exists w1, s1. split; [reflexivity | exact Hp1].
Qed.

Lemma fetchDocument_docOf (u : string) (w : World) :
  snd (fetchDocument E u w) = docOf E w u
  /\ forall u', docOf E (fst (fetchDocument E u w)) u' = docOf E w u'.
Proof.
  unfold docOf. destruct (cache w !! u) as [d|] eqn:Hu.
  - rewrite (fetchDocument_hit E u w d Hu). split; reflexivity.
  - rewrite (fetchDocument_miss E u w Hu). destruct (download E u) as [d|e] eqn:Hd; simpl.
    + split; [reflexivity|]. intros u'. destruct (String.eqb_spec u u') as [<- | Hne].
      * rewrite lookup_insert_eq, Hu. symmetry. exact Hd.
      * rewrite lookup_insert_ne by exact Hne. reflexivity.
    + split; reflexivity.
Qed.

Lemma entryUpdate_ext (docs docs' : string -> result Document) (kpi : Kpi) (entry : Entry) :
  (forall u, docs u = docs' u) -> entryUpdate E docs kpi entry = entryUpdate E docs' kpi entry.
Proof. intros H. unfold entryUpdate. rewrite H. reflexivity. Qed.

Lemma hydrateEntry_update (kpi : Kpi) (entry : Entry) (s : Series) (w : World) :
  exists w',
    hydrateEntry E kpi entry s w
    = (w', Ok (applyUpdate (entryUpdate E (docOf E w) kpi entry) s))
    /\ forall u, docOf E w' u = docOf E w u.
Proof.
  rewrite hydrateEntry_unfold. unfold entryUpdate.
  destruct (negb (isPeriod (e_period entry))); [exists w; split; reflexivity|].
  destruct (Str.isEmpty (e_url entry) || Str.isEmpty (e_pattern entry));
    [exists w; split; reflexivity|].
  destruct (fetchDocument_docOf (e_url entry) w) as [Hres Hdocs].
  destruct (fetchDocument E (e_url entry) w) as [w' r]. simpl in Hres, Hdocs.
  rewrite <- Hres. exists w'. split; [|exact Hdocs].
  destruct r as [doc|e]; [|reflexivity].
  destruct (extractValueFromText _ _ _ _ _ _ _ _); reflexivity.
Qed.

Lemma hydrateEntries_updates (kpi : Kpi) (entries : list Entry) (s : Series) (w : World) :
  exists w',
    hydrateEntries E kpi entries s w
    = (w', Ok (applyAll (List.map (entryUpdate E (docOf E w) kpi) entries) s))
    /\ forall u, docOf E w' u = docOf E w u.
Proof.
  revert s w. induction entries as [|entry rest IH]; intros s w; simpl.
  - exists w. split; reflexivity.
  - unfold bind. destruct (hydrateEntry_update kpi entry s w) as (w1 & -> & H1).
    destruct (IH (applyUpdate (entryUpdate E (docOf E w) kpi entry) s) w1) as (w2 & -> & H2).
    exists w2. split.
    + rewrite (map_ext _ _ (fun e => entryUpdate_ext (docOf E w1) (docOf E w) kpi e H1)).
      reflexivity.
    + intros u. rewrite H2. apply H1.
Qed.

Lemma applyAll_app (a b : list (option (string * option Q))) (s : Series) :
  applyAll (a ++ b)%list s = applyAll b (applyAll a s).
Proof. revert s. induction a as [|u a IH]; intros s; simpl; [reflexivity | apply IH]. Qed.

Lemma applyAll_absorb (us : list (option (string * option Q))) (p : string)
    (v v' : option Q) (s : Series) :
  setValue p v (applyAll us (setValue p v' s)) = setValue p v (applyAll us s).
Proof.
  revert s. induction us as [|u rest IH]; intros s; simpl; [apply setValue_same|].
  destruct u as [[q x]|]; simpl; [|apply IH].
  destruct (String.eqb_spec q p) as [-> | Hne].
  - rewrite setValue_same. reflexivity.
  - rewrite (setValue_comm q p x v' s Hne). apply IH.
Qed.

Lemma applyAll_idempotent (us : list (option (string * option Q))) (s : Series) :
  applyAll us (applyAll us s) = applyAll us s.
Proof.
  revert s. induction us as [|u rest IH] using rev_ind; intros s; [reflexivity|].
  rewrite !applyAll_app. simpl. destruct u as [[p v]|]; simpl.
  - rewrite applyAll_absorb, IH. reflexivity.
  - apply IH.
Qed.

(** C5.  [blankSeries] has 20 points, one per period of 2021Q1 to 2025Q4
    in chronological order, each period once, each value [null], and
    [buildCompany] gives every KPI such a series.  The one write to a
    series, [setValue], changes no period; so every hydration step, and
    [hydrateSeries] as a whole, returns a series with the same periods in
    the same order: 20 points in the fixed order, whatever was filled. *)
Theorem series_shape_is_fixed :
  length blankSeries = 20
  /\ List.map period blankSeries = PERIODS_Q
  /\ Forall (fun pt => value pt = None) blankSeries
  /\ NoDup PERIODS_Q
  /\ PERIODS_Q
     = flat_map (fun y => List.map (fun q => y ++ "Q" ++ q) ["1"; "2"; "3"; "4"])
                ["2021"; "2022"; "2023"; "2024"; "2025"]
  /\ (forall p v s, List.map period (setValue p v s) = List.map period s)
  /\ (forall kpi entries s w, exists w' s',
        hydrateEntries E kpi entries s w = (w', Ok s')
        /\ List.map period s' = List.map period s)
  /\ (forall kpi w, exists w' s',
        autoFillSeries E kpi w = (w', Ok s')
        /\ List.map period s' = List.map period (series kpi))
  /\ (forall kpi w, exists w' s',
        hydrateSeries E kpi w = (w', Ok s')
        /\ List.map period s' = List.map period (series kpi))
  /\ (forall kpi w,
        List.map period (series kpi) = PERIODS_Q ->
        exists w' s',
          hydrateSeries E kpi w = (w', Ok s')
          /\ List.map period s' = PERIODS_Q /\ length s' = 20)
  /\ (forall kpiKey rate explicit discover auto ticker w,
        series (buildKpi kpiKey rate explicit discover auto ticker) = blankSeries
        /\ exists w' s',
             hydrateSeries E (buildKpi kpiKey rate explicit discover auto ticker) w
             = (w', Ok s')
             /\ List.map period s' = PERIODS_Q /\ length s' = 20).
Proof.
  repeat apply conj; try reflexivity.
  - repeat constructor.
  - apply (bool_decide_unpack _). vm_compute. reflexivity.
  - apply setValue_periods.
  - apply hydrateEntries_total.
  - intros kpi w. destruct (autoFillSeries_spec kpi w) as (w' & s' & H & Hp & _).
    exists w', s'. split; assumption.
  - apply hydrateSeries_total.
  - intros kpi w Hshape. destruct (hydrateSeries_total kpi w) as (w' & s' & H & Hp).
    exists w', s'. rewrite Hshape in Hp. repeat split; [exact H | exact Hp |].
    rewrite <- (length_map period), Hp. reflexivity.
  - intros kpiKey rate explicit discover auto ticker w. split; [reflexivity|].
    destruct (hydrateSeries_total (buildKpi kpiKey rate explicit discover auto ticker) w)
      as (w' & s' & H & Hp).
    exists w', s'. repeat split; [exact H | exact Hp |].
    rewrite <- (length_map period), Hp. reflexivity.
Qed.

(** C1, as amended.  Automatic search never overwrites a value: every
    point that holds a value before [autoFillSeries] is the same point
    after it (the loop assigns only to periods of the missing set and takes
    each out of the set when it fills it).  The loop over the explicit and
    discovered entries assigns unconditionally: a valid entry whose
    document is fetched writes the result of its extraction, [null]
    included, over whatever the period held.  Running that loop a second
    time over the same entries, on the series and cache the first run left,
    changes no value. *)
Theorem hydration_overwrites_only_from_entries :
  (forall kpi w,
     NoDup (List.map period (series kpi)) ->
     exists w' s', autoFillSeries E kpi w = (w', Ok s') /\ kept (series kpi) s')
  /\ (forall kpi entry s w w' doc v,
        isPeriod (e_period entry) = true ->
        Str.isEmpty (e_url entry) = false -> Str.isEmpty (e_pattern entry) = false ->
        fetchDocument E (e_url entry) w = (w', Ok doc) ->
        extractValueFromText E (folded doc) [e_pattern entry]
          (unitKindOf kpi) (minValueOf kpi) (maxValueOf kpi) None true = Ok v ->
        hydrateEntry E kpi entry s w = (w', Ok (setValue (e_period entry) v s)))
  /\ (forall kpi entries s w, exists w1 s1 w2,
        hydrateEntries E kpi entries s w = (w1, Ok s1)
        /\ hydrateEntries E kpi entries s1 w1 = (w2, Ok s1)).
Proof.
  repeat apply conj.
  - intros kpi w Hnd. destruct (autoFillSeries_spec kpi w) as (w' & s' & H & _ & Hk).
    exists w', s'. split; [exact H | apply Hk; exact Hnd].
  - intros kpi entry s w w' doc v Hp Hu Hpat Hdoc Hv.
    rewrite hydrateEntry_unfold, Hp, Hu, Hpat, Hdoc, Hv. reflexivity.
  - intros kpi entries s w.
    destruct (hydrateEntries_updates kpi entries s w) as (w1 & H1 & Hd1).
    destruct (hydrateEntries_updates kpi entries
                (applyAll (List.map (entryUpdate E (docOf E w) kpi) entries) s) w1)
      as (w2 & H2 & _).
    eexists w1, _, w2. split; [exact H1|]. rewrite H2.
    rewrite (map_ext _ _ (fun e => entryUpdate_ext (docOf E w1) (docOf E w) kpi e Hd1)).
    rewrite applyAll_idempotent. reflexivity.
Qed.

End Hydration.

Lemma series_shape_is_fixed_witness :
  exists w' s',
    hydrateSeries Sample.env
      (Sample.stores blankSeries [Sample.entry "https://ir.example.vn/2025q4-stores.html"]
                     Sample.autoOn)
      Sample.emptyWorld = (w', Ok s')
    /\ List.map period s' = PERIODS_Q /\ length s' = 20.
Proof.
  destruct (series_shape_is_fixed Sample.env)
    as (_ & _ & _ & _ & _ & _ & _ & _ & _ & Hshape & _).
  apply Hshape. reflexivity.
Defined.

Lemma hydration_overwrites_only_from_entries_witness :
  exists w' s',
    autoFillSeries Sample.env
      (Sample.stores (setValue "2025Q4" (Some 400%Q) blankSeries) [] Sample.autoOn)
      Sample.emptyWorld = (w', Ok s')
    /\ kept (setValue "2025Q4" (Some 400%Q) blankSeries) s'.
Proof.
  destruct (hydration_overwrites_only_from_entries Sample.env) as (Hauto & _).
  apply (Hauto (Sample.stores (setValue "2025Q4" (Some 400%Q) blankSeries) [] Sample.autoOn)).
  apply (bool_decide_unpack _). vm_compute. reflexivity.
Defined.

(** C1, the claim as written fails: of two explicit entries for one
    period the later one replaces the value the earlier one wrote, with
    [null] when its document gives nothing. *)
Lemma explicit_entry_overwrites_value :
  (exists w1 s1 w2 s2,
     hydrateEntry Sample.env (Sample.stores blankSeries [] Sample.autoOff)
       (Sample.entry "https://ir.example.vn/2025q4-stores.html") blankSeries
       Sample.emptyWorld = (w1, Ok s1)
     /\ s1 !! 19 = Some {| period := "2025Q4"; value := Some 412%Q |}
     /\ hydrateEntry Sample.env (Sample.stores blankSeries [] Sample.autoOff)
          (Sample.entry "https://ir.example.vn/2025q4-notice.html") s1 w1 = (w2, Ok s2)
     /\ s2 !! 19 = Some {| period := "2025Q4"; value := None |}
     /\ hydrateSeries Sample.env
          (Sample.stores blankSeries
             [Sample.entry "https://ir.example.vn/2025q4-stores.html";
              Sample.entry "https://ir.example.vn/2025q4-notice.html"] Sample.autoOff)
          Sample.emptyWorld = (w2, Ok s2))
  /\ (exists w s',
        hydrateSeries Sample.env
          (Sample.stores blankSeries
             [Sample.entry "https://ir.example.vn/2025q4-stores.html";
              Sample.entry "https://ir.example.vn/2025q4-restated.html"] Sample.autoOff)
          Sample.emptyWorld = (w, Ok s')
        /\ s' !! 19 = Some {| period := "2025Q4"; value := Some 398%Q |}).
Proof.
  split.
  - eexists _, _, _, _.
    split; [vm_compute; reflexivity|]. split; [reflexivity|].
    split; [vm_compute; reflexivity|]. split; [reflexivity|].
    vm_compute. reflexivity.
  - eexists _, _. split; [vm_compute; reflexivity | reflexivity].
Qed.

(* ===================================================================== *)
(** * Further properties *)
(* ===================================================================== *)

(* ===================================================================== *)
(** ** Numbers and units *)
(* ===================================================================== *)

(** X1.  [normalizeNumber] reads only the digits, commas, dots and minus
    signs of its input: when the input holds at least one of them, the
    result is that of the input with every other character taken out. *)
Theorem normalizeNumber_ignores_decoration (s : string) :
  Str.filter keptByScrub s <> "" ->
  normalizeNumber (Some s) = normalizeNumber (Some (Str.filter keptByScrub s)).
Proof.
  intros Hk.
  assert (Hs : s <> "") by (intros ->; apply Hk; reflexivity).
  rewrite (normalizeNumber_unfold s Hs), (normalizeNumber_unfold _ Hk).
  cbv zeta. unfold dots, commas. rewrite scrub_dots, scrub_commas.
  assert (Hidem : Str.filter keptByScrub (Str.filter keptByScrub s) = Str.filter keptByScrub s).
  { rewrite filter_filter. apply filter_ext. intros c. destruct (keptByScrub c); reflexivity. }
  rewrite Hidem. reflexivity.
Qed.

Lemma normalizeNumber_ignores_decoration_witness :
  normalizeNumber (Some "VND 8.235.606 ty") = normalizeNumber (Some "8.235.606")
  /\ normalizeNumber (Some "8.235.606") = Some (Fin 8235606).
Proof.
  split; [|vm_compute; reflexivity].
  apply (normalizeNumber_ignores_decoration "VND 8.235.606 ty"). vm_compute. discriminate.
Defined.

Lemma scanTokens_no_digit (s : string) :
  Str.count Str.isDigit s = 0 -> numberTokens s = [].
Proof.
  unfold numberTokens. induction s as [|c r IH]; simpl; [reflexivity|].
  destruct (Str.isDigit c); [discriminate | exact IH].
Qed.

Lemma scrub_empty_no_digit (s : string) :
  Str.filter keptByScrub s = "" -> Str.count Str.isDigit s = 0.
Proof.
  induction s as [|c r IH]; simpl; [reflexivity|].
  unfold keptByScrub at 1. destruct (Str.isDigit c); simpl; [discriminate|].
  destruct (isComma c || isDot c || Str.eqc c "-"); [discriminate | exact IH].
Qed.

(** X2.  A non-empty capture that holds no digit, comma, dot or minus
    sign is not skipped: [pickNumberToken] hands it on as it is,
    [normalizeNumber] reads it as 0, and for a count [normalizeByUnit]
    keeps the 0. *)
Theorem digitless_capture_reads_as_zero (raw kind : string) :
  raw <> "" -> Str.filter keptByScrub raw = "" ->
  pickNumberToken (Some raw) kind = Some raw
  /\ normalizeNumber (pickNumberToken (Some raw) kind) = Some (Fin 0)
  /\ normalizeByUnit (normalizeNumber (pickNumberToken (Some raw) kind)) None None "count"
     = Some 0%Q.
Proof.
  intros Hne Hk.
  assert (Hpick : pickNumberToken (Some raw) kind = Some raw).
  { unfold pickNumberToken. change (default "" (Some raw)) with raw.
    rewrite (scanTokens_no_digit raw (scrub_empty_no_digit raw Hk)). reflexivity. }
  assert (Hnum : normalizeNumber (Some raw) = Some (Fin 0)).
  { destruct raw as [|c r]; [congruence|]. unfold normalizeNumber. rewrite Hk. reflexivity. }
  rewrite Hpick, Hnum. repeat split; reflexivity.
Qed.

Lemma digitless_capture_reads_as_zero_witness :
  pickNumberToken (Some "n/a") "count" = Some "n/a"
  /\ normalizeNumber (pickNumberToken (Some "n/a") "count") = Some (Fin 0)
  /\ normalizeByUnit (normalizeNumber (pickNumberToken (Some "n/a") "count")) None None "count"
     = Some 0%Q.
Proof.
  apply (digitless_capture_reads_as_zero "n/a" "count"); [discriminate | reflexivity].
Defined.

(** X3.  [normalizeByUnit] returns [null] in two cases only: the value is
    [null] or not finite, or the kind is currency and the unit token
    holds "usd" and none of "billion", "ty", "million", "trieu".  Every
    other call returns a number. *)
Theorem normalizeByUnit_null_cases (value : option number) (unitToken context : option string)
    (kind : string) :
  normalizeByUnit value unitToken context kind = None
  <-> (forall v, value <> Some (Fin v))
      \/ (kind = "currency"
          /\ has (foldAscii unitToken) "usd" = true
          /\ noScaleWord (foldAscii unitToken)).
Proof.
  unfold noScaleWord, has.
  destruct value as [[v| | |]|]; simpl;
    try (split; [intros _; left; intros v; discriminate | reflexivity]).
  destruct (String.eqb kind "percent") eqn:Hp.
  { apply String.eqb_eq in Hp. subst kind. split.
    - destruct (_ || _); discriminate.
    - intros [H | (H & _)]; [exfalso; apply (H v); reflexivity | discriminate]. }
  destruct (String.eqb kind "currency") eqn:Hc.
  { apply String.eqb_eq in Hc. subst kind.
    destruct (Str.includes (foldAscii unitToken) "billion") eqn:H1;
    destruct (Str.includes (foldAscii unitToken) "ty") eqn:H2;
    destruct (Str.includes (foldAscii unitToken) "million") eqn:H3;
    destruct (Str.includes (foldAscii unitToken) "trieu") eqn:H4;
    destruct (Str.includes (foldAscii unitToken) "usd") eqn:H5; simpl;
    try (split; [discriminate | intros [H | (_ & ? & ? & ? & ? & ?)];
                   [exfalso; apply (H v); reflexivity | discriminate]]).
    - split; [intros _; right; repeat split; reflexivity | reflexivity].
    - repeat match goal with |- context [if ?b then _ else _] => destruct b end;
        (split; [discriminate | intros [H | (_ & ? & _)];
                   [exfalso; apply (H v); reflexivity | discriminate]]). }
  destruct (String.eqb kind "volume") eqn:Hv.
  { repeat match goal with |- context [if ?b then _ else _] => destruct b end;
      (split; [discriminate | intros [H | (-> & _)];
                 [exfalso; apply (H v); reflexivity | discriminate]]). }
  split; [discriminate | intros [H | (-> & _)];
            [exfalso; apply (H v); reflexivity | discriminate]].
Qed.

Lemma Qlt_bool_false (a b : Q) : Qlt_bool a b = false -> (b <= a)%Q.
Proof.
  unfold Qlt_bool. intros H. apply negb_false_iff in H. apply Qle_bool_iff. exact H.
Qed.

Lemma Qlt_bool_le (a b : Q) : (b <= a)%Q -> Qlt_bool a b = false.
Proof.
  unfold Qlt_bool. intros H. apply negb_false_iff. apply Qle_bool_iff. exact H.
Qed.

Lemma Qabs_hundredth (v : Q) : (Qabs v <= 150)%Q -> (Qabs (v / 100) <= 3 # 2)%Q.
Proof.
  intros H. unfold Qdiv. rewrite Qabs_Qmult.
  change (Qabs (/ 100)) with (/ 100)%Q.
  apply Qle_trans with (150 * / 100)%Q; [|vm_compute; discriminate].
  apply Qmult_le_compat_r; [exact H | vm_compute; discriminate].
Qed.

(** X4.  For kind percent a value of magnitude at most 150 comes out with
    magnitude at most 1.5, and what comes out is left as it is by a second
    normalisation in which no percent sign is in sight: a rate is not
    divided by 100 twice. *)
Theorem percent_normalization_is_stable (v : Q) (unitToken context : option string) :
  (Qabs v <= 150)%Q ->
  exists r,
    normalizeByUnit (Some (Fin v)) unitToken context "percent" = Some r
    /\ (Qabs r <= 3 # 2)%Q
    /\ forall unitToken' context' : option string,
         has (foldAscii unitToken') "%" = false ->
         has (foldAscii context') "%" = false ->
         normalizeByUnit (Some (Fin r)) unitToken' context' "percent" = Some r.
Proof.
  intros Hv.
  assert (Hstable : forall r, (Qabs r <= 3 # 2)%Q ->
            forall unitToken' context' : option string,
              has (foldAscii unitToken') "%" = false ->
              has (foldAscii context') "%" = false ->
              normalizeByUnit (Some (Fin r)) unitToken' context' "percent" = Some r).
  { intros r Hr tok ctx Ht Hc. unfold has in *. simpl.
    rewrite Hc, Ht, (Qlt_bool_le _ _ Hr). reflexivity. }
  simpl.
  destruct (Str.includes (foldAscii context) "%" || Str.includes (foldAscii unitToken) "%"
            || Qlt_bool (3 # 2) (Qabs v)) eqn:Hb.
  - exists (v / 100)%Q. split; [reflexivity|].
    pose proof (Qabs_hundredth v Hv) as Hr. split; [exact Hr | apply Hstable, Hr].
  - exists v. split; [reflexivity|].
    apply orb_false_iff in Hb as [_ Hb]. apply Qlt_bool_false in Hb.
    split; [exact Hb | apply Hstable, Hb].
Qed.

Lemma percent_normalization_is_stable_witness :
  exists r,
    normalizeByUnit (Some (Fin 18)) (Some "%") None "percent" = Some r
    /\ (Qabs r <= 3 # 2)%Q
    /\ normalizeByUnit (Some (Fin r)) None None "percent" = Some r.
Proof.
  destruct (percent_normalization_is_stable 18 (Some "%") None) as (r & H1 & H2 & H3).
  - vm_compute. discriminate.
  - exists r. split; [exact H1|]. split; [exact H2|]. apply H3; reflexivity.
Defined.

(* ===================================================================== *)
(** ** Extraction *)
(* ===================================================================== *)

Lemma firstAccepted_some {A B : Type} (f : A -> option B) (l : list A) (y : B) :
  firstAccepted f l = Some y ->
  exists pre x post, l = (pre ++ x :: post)%list /\ f x = Some y
                     /\ Forall (fun z => f z = None) pre.
Proof.
  induction l as [|x r IH]; simpl; [discriminate|].
  destruct (f x) as [y'|] eqn:Hx.
  - intros [= ->]. exists [], x, r. repeat split; [assumption | constructor].
  - intros H. destruct (IH H) as (pre & x' & post & -> & Hy & Hpre).
    exists (x :: pre), x', post. repeat split; [assumption | constructor; assumption].
Qed.

Lemma firstAccepted_mono {A B : Type} (f g : A -> option B) (l : list A) (y : B) :
  (forall x z, f x = Some z -> g x = Some z) ->
  firstAccepted f l = Some y -> exists y', firstAccepted g l = Some y'.
Proof.
  intros Hfg. induction l as [|x r IH]; simpl; [discriminate|].
  destruct (g x) as [z|] eqn:Hg; [intros _; exists z; reflexivity|].
  destruct (f x) as [z|] eqn:Hf; [apply Hfg in Hf; congruence | exact IH].
Qed.

Lemma acceptMatch_accepts (t uk : string) (lo hi : option Q) (p : option string)
    (strict : bool) (m : RegexMatch) (v : Q) :
  acceptMatch t uk lo hi p strict m = Some v ->
  inBounds lo hi v
  /\ (strict = true -> hasPeriodNearMatch t (Z.of_nat (m_index m)) p = true).
Proof.
  unfold acceptMatch. cbv zeta.
  destruct (normalizeByUnit _ _ _ _) as [n|]; [|discriminate].
  destruct (match lo with Some l => Qlt_bool n l | None => false end) eqn:Hlo; [discriminate|].
  destruct (match hi with Some h => Qlt_bool h n | None => false end) eqn:Hhi; [discriminate|].
  destruct (strict && negb (hasPeriodNearMatch t (Z.of_nat (m_index m)) p)) eqn:Hs;
    [discriminate|].
  intros [= <-]. repeat split.
  - destruct lo; [apply Qlt_bool_false; exact Hlo | exact I].
  - destruct hi; [apply Qlt_bool_false; exact Hhi | exact I].
  - intros ->. simpl in Hs. apply negb_false_iff in Hs. exact Hs.
Qed.

Lemma acceptMatch_relax (t uk : string) (lo hi : option Q) (p : option string)
    (m : RegexMatch) (v : Q) :
  acceptMatch t uk lo hi p true m = Some v -> acceptMatch t uk lo hi p false m = Some v.
Proof.
  unfold acceptMatch. cbv zeta.
  destruct (normalizeByUnit _ _ _ _) as [n|]; [|discriminate].
  destruct (match lo with Some l => Qlt_bool n l | None => false end); [discriminate|].
  destruct (match hi with Some h => Qlt_bool h n | None => false end); [discriminate|].
  simpl. destruct (negb _); [discriminate | auto].
Qed.

Lemma acceptToken_bounds (after uk : string) (lo hi : option Q) (token : string) (v : Q) :
  acceptToken after uk lo hi token = Some v -> inBounds lo hi v.
Proof.
  unfold acceptToken.
  destruct (normalizeByUnit _ _ _ _) as [n|]; [|discriminate].
  destruct (match lo with Some l => Qlt_bool n l | None => false end) eqn:Hlo; [discriminate|].
  destruct (match hi with Some h => Qlt_bool h n | None => false end) eqn:Hhi; [discriminate|].
  intros [= <-]. split.
  - destruct lo; [apply Qlt_bool_false; exact Hlo | exact I].
  - destruct hi; [apply Qlt_bool_false; exact Hhi | exact I].
Qed.

Section Extraction.

Variable E : Env.

(** X5.  A value [extractValueFromText] returns is the value of a match
    of one of the patterns: it lies within the bounds given, every
    earlier match of that pattern was turned down, and under
    [strictPeriod] the match has the period near it. *)
Theorem extractValueFromText_accepts (t : string) (patterns : list string) (uk : string)
    (lo hi : option Q) (p : option string) (strict : bool) (v : Q) :
  extractValueFromText E t patterns uk lo hi p strict = Ok (Some v) ->
  inBounds lo hi v
  /\ exists pattern pre m post,
       pattern ∈ patterns
       /\ regexExecAll E pattern t = (pre ++ m :: post)%list
       /\ acceptMatch t uk lo hi p strict m = Some v
       /\ Forall (fun m' => acceptMatch t uk lo hi p strict m' = None) pre
       /\ (strict = true -> hasPeriodNearMatch t (Z.of_nat (m_index m)) p = true).
Proof.
  induction patterns as [|pattern rest IH]; simpl; [discriminate|].
  destruct (regexValid E pattern); simpl; [|discriminate].
  destruct (firstAccepted _ _) as [v'|] eqn:Hf.
  - intros [= ->]. apply firstAccepted_some in Hf as (pre & m & post & Hl & Hm & Hpre).
    destruct (acceptMatch_accepts _ _ _ _ _ _ _ _ Hm) as [Hb Hp].
    split; [exact Hb|]. exists pattern, pre, m, post.
    repeat split; try assumption. apply list_elem_of_here.
  - intros H. destruct (IH H) as (Hb & pat & pre & m & post & Hin & Hrest).
    split; [exact Hb|]. exists pat, pre, m, post. split; [|exact Hrest].
    apply list_elem_of_further. exact Hin.
Qed.

Lemma extractValueFromText_app (t : string) (ps1 ps2 : list string) (uk : string)
    (lo hi : option Q) (p : option string) (strict : bool) :
  extractValueFromText E t (ps1 ++ ps2)%list uk lo hi p strict
  = match extractValueFromText E t ps1 uk lo hi p strict with
    | Ok None => extractValueFromText E t ps2 uk lo hi p strict
    | r => r
    end.
Proof.
  induction ps1 as [|pattern rest IH]; simpl.
  - destruct (extractValueFromText E t ps2 uk lo hi p strict) as [[?|]|]; reflexivity.
  - destruct (regexValid E pattern); simpl; [|reflexivity].
    destruct (firstAccepted _ _); [reflexivity | exact IH].
Qed.

Lemma extraction_relaxed (t : string) (patterns : list string) (uk : string)
    (lo hi : option Q) (p : option string) :
  match extractValueFromText E t patterns uk lo hi p true with
  | Ok (Some v) => exists v', extractValueFromText E t patterns uk lo hi p false = Ok (Some v')
  | Ok None => exists r, extractValueFromText E t patterns uk lo hi p false = Ok r
  | Throw e =>
      extractValueFromText E t patterns uk lo hi p false = Throw e
      \/ exists v', extractValueFromText E t patterns uk lo hi p false = Ok (Some v')
  end.
Proof.
  induction patterns as [|pattern rest IH]; simpl; [exists None; reflexivity|].
  destruct (regexValid E pattern); simpl; [|left; reflexivity].
  destruct (firstAccepted (acceptMatch t uk lo hi p true) _) as [v|] eqn:Hs.
  - destruct (firstAccepted_mono _ (acceptMatch t uk lo hi p false) _ _
                (acceptMatch_relax t uk lo hi p) Hs) as (v' & ->).
    exists v'. reflexivity.
  - destruct (firstAccepted (acceptMatch t uk lo hi p false) _) as [v'|].
    + destruct (extractValueFromText E t rest uk lo hi p true) as [[?|]|];
        [exists v' | exists (Some v') | right; exists v']; reflexivity.
    + exact IH.
Qed.

(** X6.  Dropping [strictPeriod] never loses a value: where the strict
    call returns a value the relaxed call returns one (that of the same
    match or of an earlier one); the relaxed call returns [null] only
    where the strict call does, and throws only where the strict call
    throws the same error. *)
Theorem relaxed_extraction_finds_more (t : string) (patterns : list string) (uk : string)
    (lo hi : option Q) (p : option string) :
  (forall v,
     extractValueFromText E t patterns uk lo hi p true = Ok (Some v) ->
     exists v', extractValueFromText E t patterns uk lo hi p false = Ok (Some v'))
  /\ (extractValueFromText E t patterns uk lo hi p false = Ok None ->
      extractValueFromText E t patterns uk lo hi p true = Ok None)
  /\ (forall e,
        extractValueFromText E t patterns uk lo hi p false = Throw e ->
        extractValueFromText E t patterns uk lo hi p true = Throw e).
Proof.
  pose proof (extraction_relaxed t patterns uk lo hi p) as H.
  destruct (extractValueFromText E t patterns uk lo hi p true) as [[v0|]|e0].
  - destruct H as (v' & H). rewrite H. repeat split.
    + intros v _. exists v'. reflexivity.
    + discriminate.
    + discriminate.
  - destruct H as (r & H). rewrite H. repeat split.
    + discriminate.
    + discriminate.
  - destruct H as [H | (v' & H)]; rewrite H; repeat split; try discriminate.
    intros e [= <-]. reflexivity.
Qed.

(** X7.  Trying the primary patterns and then the fallback patterns, as
    [autoFillSeries] does at each of its three attempts, is one call of
    [extractValueFromText] on the two banks put end to end. *)
Theorem extractBoth_is_one_bank (kpiMeta : KpiMeta) (t p : string) (strict : bool) :
  extractBoth E kpiMeta t p strict
  = extractValueFromText E t (primaryOf kpiMeta ++ fallbackOf kpiMeta)%list
      (unitKind kpiMeta) (minValue kpiMeta) (maxValue kpiMeta) (Some p) strict.
Proof.
  unfold extractBoth. rewrite extractValueFromText_app.
  destruct (extractValueFromText E t (primaryOf kpiMeta) _ _ _ _ _) as [[v|]|]; try reflexivity.
  destruct (fallbackOf kpiMeta); reflexivity.
Qed.

(** X8.  A value [extractValueFromLines] returns is read from a number
    token that follows the match of a row pattern on one of the lines, and
    lies within the bounds given. *)
Theorem extractValueFromLines_accepts (lines rows : list string) (uk : string)
    (lo hi : option Q) (v : Q) :
  extractValueFromLines E lines rows uk lo hi = Ok (Some v) ->
  inBounds lo hi v
  /\ exists line p m token,
       line ∈ lines /\ p ∈ rows
       /\ head (regexExecAll E p (foldText line)) = Some m
       /\ token ∈ numberTokens
                    (Str.sliceFrom (foldText line)
                       (Z.of_nat (m_index m + String.length (orEmpty (group m 0)))))
       /\ acceptToken
            (Str.sliceFrom (foldText line)
               (Z.of_nat (m_index m + String.length (orEmpty (group m 0)))))
            uk lo hi token = Some v.
Proof.
  unfold extractValueFromLines.
  destruct (isNil lines || isNil rows); [discriminate|].
  destruct (negb (forallb (regexValid E) rows)); [discriminate|].
  intros [= H].
  apply firstAccepted_some in H as (pre & line & post & -> & Hline & _).
  apply firstAccepted_some in Hline as (pre' & p & post' & -> & Hp & _).
  unfold rowValue in Hp.
  destruct (head (regexExecAll E p (foldText line))) as [m|] eqn:Hm; [|discriminate].
  cbv zeta in Hp.
  apply firstAccepted_some in Hp as (pre'' & token & post'' & Htok & Hacc & _).
  split; [eapply acceptToken_bounds; exact Hacc|].
  exists line, p, m, token. repeat split.
  - apply elem_of_app. right. apply list_elem_of_here.
  - apply elem_of_app. right. apply list_elem_of_here.
  - exact Hm.
  - rewrite Htok. apply elem_of_app. right. apply list_elem_of_here.
  - exact Hacc.
Qed.

Lemma extractValueFromText_bounds (t : string) (patterns : list string) (uk : string)
    (lo hi : option Q) (p : option string) (strict : bool) (v : Q) :
  extractValueFromText E t patterns uk lo hi p strict = Ok (Some v) -> inBounds lo hi v.
Proof.
  induction patterns as [|pattern rest IH]; simpl; [discriminate|].
  destruct (regexValid E pattern); simpl; [|discriminate].
  destruct (firstAccepted _ _) as [v'|] eqn:Hf; [|exact IH].
  intros [= ->]. apply firstAccepted_some in Hf as (pre & m & post & _ & Hm & _).
  apply (acceptMatch_accepts _ _ _ _ _ _ _ _ Hm).
Qed.

Lemma extractBoth_bounds (kpiMeta : KpiMeta) (t p : string) (strict : bool) (v : Q) :
  extractBoth E kpiMeta t p strict = Ok (Some v) ->
  inBounds (minValue kpiMeta) (maxValue kpiMeta) v.
Proof.
  unfold extractBoth.
  destruct (extractValueFromText E t (primaryOf kpiMeta) _ _ _ _ _) as [[v0|]|e] eqn:H1.
  - intros [= <-]. apply extractValueFromText_bounds in H1. exact H1.
  - destruct (isNil (fallbackOf kpiMeta)); [discriminate|].
    apply extractValueFromText_bounds.
  - discriminate.
Qed.

Lemma extractValueFromLines_bounds (lines rows : list string) (uk : string)
    (lo hi : option Q) (v : Q) :
  extractValueFromLines E lines rows uk lo hi = Ok (Some v) -> inBounds lo hi v.
Proof.
  unfold extractValueFromLines.
  destruct (isNil lines || isNil rows); [discriminate|].
  destruct (negb (forallb (regexValid E) rows)); [discriminate|].
  intros [= H].
  apply firstAccepted_some in H as (pre & line & post & _ & Hline & _).
  apply firstAccepted_some in Hline as (pre' & p & post' & _ & Hp & _).
  unfold rowValue in Hp.
  destruct (head (regexExecAll E p (foldText line))) as [m|]; [|discriminate].
  cbv zeta in Hp.
  apply firstAccepted_some in Hp as (pre'' & token & post'' & _ & Hacc & _).
  eapply acceptToken_bounds. exact Hacc.
Qed.

End Extraction.

Lemma extractValueFromText_accepts_witness :
  extractValueFromText Sample.env "so cua hang: 412" [Sample.entryPattern] "count"
    (Some 10%Q) (Some 50000%Q) None true = Ok (Some 412%Q)
  /\ inBounds (Some 10%Q) (Some 50000%Q) 412%Q.
Proof.
  assert (H : extractValueFromText Sample.env "so cua hang: 412" [Sample.entryPattern] "count"
                (Some 10%Q) (Some 50000%Q) None true = Ok (Some 412%Q))
    by (vm_compute; reflexivity).
  split; [exact H|].
  exact (proj1 (extractValueFromText_accepts Sample.env _ _ _ _ _ _ _ _ H)).
Defined.

Lemma relaxed_extraction_finds_more_witness :
  exists v',
    extractValueFromText Sample.env "bao cao quy 4 nam 2025 so cua hang: 412"
      [Sample.entryPattern] "count" None None (Some "2025Q4") false = Ok (Some v').
Proof.
  assert (H : extractValueFromText Sample.env "bao cao quy 4 nam 2025 so cua hang: 412"
                [Sample.entryPattern] "count" None None (Some "2025Q4") true
              = Ok (Some 412%Q)) by (vm_compute; reflexivity).
  exact (proj1 (relaxed_extraction_finds_more Sample.env _ _ _ _ _ _) _ H).
Defined.

Lemma extractValueFromLines_accepts_witness :
  extractValueFromLines Sample.env ["Bang 1"; "So cua hang: 412 415"] [Sample.entryPattern]
    "count" None (Some 1000%Q) = Ok (Some 415%Q)
  /\ inBounds None (Some 1000%Q) 415%Q.
Proof.
  assert (H : extractValueFromLines Sample.env ["Bang 1"; "So cua hang: 412 415"]
                [Sample.entryPattern] "count" None (Some 1000%Q) = Ok (Some 415%Q))
    by (vm_compute; reflexivity).
  split; [exact H|].
  exact (proj1 (extractValueFromLines_accepts Sample.env _ _ _ _ _ _ H)).
Defined.

(* ===================================================================== *)
(** ** The text of a page *)
(* ===================================================================== *)

Lemma afterGt_length (s rest : string) :
  afterGt s = Some rest -> String.length rest < String.length s.
Proof.
  revert rest. induction s as [|c r IH]; intros rest; cbn [afterGt]; [discriminate|].
  destruct (Str.eqc c ">"); [intros [= <-]; simpl; lia|].
  intros H. specialize (IH _ H). simpl. lia.
Qed.

Lemma afterGt_cons (c : ascii) (r : string) :
  afterGt (String c r) = None -> Str.eqc c ">" = false /\ afterGt r = None.
Proof.
  cbn [afterGt]. destruct (Str.eqc c ">"); [discriminate | auto].
Qed.

Lemma removeTags_no_gt (n : nat) (s : string) : afterGt s = None -> removeTags n s = s.
Proof.
  revert s. induction n as [|n IH]; intros s; [reflexivity|].
  destruct s as [|c r]; [reflexivity|]. intros H.
  apply afterGt_cons in H as [Hc Hr]. cbn [removeTags].
  rewrite (IH r Hr).
  destruct (Str.eqc c "<"); [|reflexivity].
  destruct r as [|d r']; [reflexivity|].
  apply afterGt_cons in Hr as [Hd Hr']. rewrite Hd, Hr'. reflexivity.
Qed.

Lemma hasTag_no_gt (s : string) : afterGt s = None -> hasTag s = false.
Proof.
  unfold hasTag. induction s as [|c r IH]; [reflexivity|]. intros H.
  apply afterGt_cons in H as [Hc Hr].
  cbn [Str.existsSuffix]. rewrite (IH Hr), orb_false_r.
  destruct r as [|d r']; [reflexivity|].
  apply afterGt_cons in Hr as [Hd Hr']. cbn [tagAt]. rewrite Hr'.
  apply andb_false_r.
Qed.

Lemma existsSuffix_cons (f : string -> bool) (c : ascii) (r : string) :
  Str.existsSuffix f (String c r) = f (String c r) || Str.existsSuffix f r.
Proof. reflexivity. Qed.

Lemma removeTags_clean (n : nat) (s : string) :
  String.length s < n -> hasTag (removeTags n s) = false.
Proof.
  unfold hasTag. revert s. induction n as [|n IH]; intros s Hn; [lia|].
  destruct s as [|c r]; [reflexivity|]. simpl in Hn.
  cbn [removeTags].
  destruct (Str.eqc c "<") eqn:Hc.
  - destruct r as [|d r']; [reflexivity|].
    destruct (Str.eqc d ">") eqn:Hd.
    + assert (Hr : exists m, n = S m) by (destruct n; [simpl in Hn; lia | eauto]).
      destruct Hr as [m ->].
      assert (Htail : Str.existsSuffix tagAt (removeTags (S m) (String d r')) = false)
        by (apply IH; lia).
      cbn [removeTags] in *.
      destruct (Str.eqc d "<") eqn:Hd2.
      { exfalso. unfold Str.eqc in *. apply Ascii.eqb_eq in Hd, Hd2. congruence. }
      rewrite existsSuffix_cons, Htail, orb_false_r. cbn [tagAt]. rewrite Hd.
      rewrite andb_false_r. reflexivity.
    + destruct (afterGt r') as [rest|] eqn:Hgt.
      * rewrite existsSuffix_cons.
        rewrite (IH rest) by (apply afterGt_length in Hgt; simpl in Hn; lia).
        rewrite orb_false_r. unfold tagAt.
        destruct (removeTags n rest); reflexivity.
      * assert (Hr : afterGt (String d r') = None) by (cbn [afterGt]; rewrite Hd; exact Hgt).
        rewrite (removeTags_no_gt n _ Hr).
        apply (hasTag_no_gt (String c (String d r'))). cbn [afterGt]. rewrite Hd.
        destruct (Str.eqc c ">") eqn:Hc2; [|exact Hgt].
        unfold Str.eqc in *. apply Ascii.eqb_eq in Hc, Hc2. congruence.
  - rewrite existsSuffix_cons. rewrite (IH r) by lia. rewrite orb_false_r.
    unfold tagAt. rewrite Hc. destruct (removeTags n r); reflexivity.
Qed.

Lemma drop_le (n : nat) (s : string) : String.length (Str.drop n s) <= String.length s.
Proof. rewrite drop_length. lia. Qed.

Lemma dropThrough_length (close s rest : string) :
  dropThrough close s = Some rest -> String.length rest <= String.length s.
Proof.
  revert rest. induction s as [|c r IH]; intros rest; simpl.
  - destruct (Str.prefixBy Str.eqci close ""); [|discriminate]. intros [= <-].
    apply drop_le.
  - destruct (Str.prefixBy Str.eqci close (String c r)).
    + intros [= <-]. apply drop_le.
    + intros H. specialize (IH _ H). lia.
Qed.

Lemma removeBlocks_length (n : nat) (open close s : string) :
  open <> "" -> String.length (removeBlocks n open close s) <= String.length s.
Proof.
  intros Ho. revert s. induction n as [|n IH]; intros s; [reflexivity|].
  destruct s as [|c r]; [reflexivity|]. cbn [removeBlocks].
  destruct (Str.prefixBy Str.eqci open (String c r)).
  - destruct (dropThrough close (Str.drop (String.length open) (String c r))) as [rest|] eqn:Hd.
    + apply dropThrough_length in Hd. simpl String.length at 1.
      specialize (IH rest).
      assert (String.length (Str.drop (String.length open) (String c r)) <= String.length r).
      { destruct open as [|a o]; [congruence|]. simpl. apply drop_le. }
      simpl. lia.
    + simpl. specialize (IH r). lia.
  - simpl. specialize (IH r). lia.
Qed.

Lemma removeTags_length (n : nat) (s : string) :
  String.length (removeTags n s) <= String.length s.
Proof.
  revert s. induction n as [|n IH]; intros s; [reflexivity|].
  destruct s as [|c r]; [reflexivity|]. cbn [removeTags].
  destruct (Str.eqc c "<").
  - destruct r as [|d r']; [reflexivity|].
    destruct (Str.eqc d ">"); [simpl; specialize (IH (String d r')); simpl in IH; lia|].
    destruct (afterGt r') as [rest|] eqn:Hgt.
    + apply afterGt_length in Hgt. specialize (IH rest). simpl. lia.
    + specialize (IH (String d r')). simpl in *. lia.
  - specialize (IH r). simpl. lia.
Qed.

Lemma lowerChar_lt (c : ascii) : Str.eqci "<" c = Str.eqc c "<".
Proof. destruct c as [[] [] [] [] [] [] [] []]; reflexivity. Qed.

Lemma removeBlocks_plain (n : nat) (open' close s : string) :
  Str.count (fun c => Str.eqc c "<") s = 0 ->
  removeBlocks n (String "<" open') close s = s.
Proof.
  revert s. induction n as [|n IH]; intros s; [reflexivity|].
  destruct s as [|c r]; [reflexivity|]. cbn [removeBlocks Str.count Str.prefixBy].
  rewrite lowerChar_lt. destruct (Str.eqc c "<"); [discriminate|]. simpl.
  intros H. rewrite (IH r H). reflexivity.
Qed.

Lemma removeTags_plain (n : nat) (s : string) :
  Str.count (fun c => Str.eqc c "<") s = 0 -> removeTags n s = s.
Proof.
  revert s. induction n as [|n IH]; intros s; [reflexivity|].
  destruct s as [|c r]; [reflexivity|]. cbn [removeTags Str.count].
  destruct (Str.eqc c "<"); [discriminate|]. simpl.
  intros H. rewrite (IH r H). reflexivity.
Qed.

(** X9.  The text [fetchDocument] makes of an HTML page holds no match
    of [<[^>]+>] (no tag is left), and is no longer than the page; a page
    without [<] is its own text. *)
Theorem stripHtml_leaves_no_tag (html : string) :
  hasTag (stripHtml html) = false
  /\ String.length (stripHtml html) <= String.length html
  /\ (Str.count (fun c => Str.eqc c "<") html = 0 -> stripHtml html = html).
Proof.
  unfold stripHtml. cbv zeta.
  set (n := S (String.length html)).
  assert (Hlen : String.length
                   (removeBlocks n "<style" "</style>"
                      (removeBlocks n "<script" "</script>" html)) <= String.length html).
  { etransitivity; [apply removeBlocks_length; discriminate|].
    apply removeBlocks_length; discriminate. }
  repeat split.
  - apply removeTags_clean. subst n. lia.
  - etransitivity; [apply removeTags_length | exact Hlen].
  - intros H. rewrite (removeBlocks_plain n _ _ html H).
    rewrite (removeBlocks_plain n _ _ html H). apply removeTags_plain, H.
Qed.

Lemma lowerChar_idem (c : ascii) : Str.lowerChar (Str.lowerChar c) = Str.lowerChar c.
Proof. destruct c as [[] [] [] [] [] [] [] []]; reflexivity. Qed.

Lemma isSpace_lowerChar (c : ascii) : Str.isSpace (Str.lowerChar c) = Str.isSpace c.
Proof. destruct c as [[] [] [] [] [] [] [] []]; reflexivity. Qed.

Lemma isUpper_lowerChar (c : ascii) : Str.isUpper (Str.lowerChar c) = false.
Proof. destruct c as [[] [] [] [] [] [] [] []]; reflexivity. Qed.

Lemma toLowerCase_idem (s : string) :
  Str.toLowerCase (Str.toLowerCase s) = Str.toLowerCase s.
Proof.
  unfold Str.toLowerCase. induction s as [|c r IH]; simpl; [reflexivity|].
  rewrite lowerChar_idem, IH. reflexivity.
Qed.

Lemma toLowerCase_collapse (b : bool) (s : string) :
  Str.toLowerCase (collapseSpaces b s) = collapseSpaces b (Str.toLowerCase s).
Proof.
  unfold Str.toLowerCase. revert b. induction s as [|c r IH]; intros b; simpl; [reflexivity|].
  rewrite isSpace_lowerChar. destruct (Str.isSpace c); [destruct b|]; simpl; rewrite ?IH;
    reflexivity.
Qed.

Lemma collapseSpaces_idem (s : string) :
  collapseSpaces false (collapseSpaces false s) = collapseSpaces false s
  /\ collapseSpaces true (collapseSpaces true s) = collapseSpaces true s
  /\ collapseSpaces false (collapseSpaces true s) = collapseSpaces true s.
Proof.
  induction s as [|c r (IH1 & IH2 & IH3)]; simpl; [auto|].
  destruct (Str.isSpace c) eqn:Hc; simpl; rewrite ?Hc, ?IH1, ?IH2, ?IH3; auto.
Qed.

Lemma collapseSpaces_head (b : bool) (s : string) :
  match collapseSpaces b s with
  | String d _ => Str.isSpace d = true -> b = false /\ d = " "%char
  | EmptyString => True
  end.
Proof.
  revert b. induction s as [|c r IH]; intros b; simpl; [exact I|].
  destruct (Str.isSpace c) eqn:Hc.
  - destruct b; [|auto].
    specialize (IH true). destruct (collapseSpaces true r); [exact I|].
    intros H. destruct (IH H). discriminate.
  - congruence.
Qed.

Lemma collapseSpaces_singleSpaced (b : bool) (s : string) :
  singleSpaced (collapseSpaces b s) = true.
Proof.
  revert b. induction s as [|c r IH]; intros b; simpl; [reflexivity|].
  destruct (Str.isSpace c) eqn:Hc.
  - destruct b; [apply IH|]. simpl. rewrite IH, andb_true_r.
    pose proof (collapseSpaces_head true r) as Hh.
    destruct (collapseSpaces true r) as [|d r']; [reflexivity|].
    destruct (Str.isSpace d); [destruct Hh; [reflexivity | discriminate] | reflexivity].
  - simpl. rewrite Hc, IH. reflexivity.
Qed.

Lemma isAscii_lowerChar (c : ascii) : isAscii c = true -> isAscii (Str.lowerChar c) = true.
Proof.
  unfold isAscii, Str.lowerChar, Str.isUpper, Str.code. intros H.
  destruct ((65 <=? nat_of_ascii c) && (nat_of_ascii c <=? 90)) eqn:Hu; [|exact H].
  apply andb_true_iff in Hu as [_ Hu]. apply Nat.leb_le in Hu.
  rewrite nat_ascii_embedding by lia. apply Nat.ltb_lt. lia.
Qed.

Lemma all_toLowerCase_ascii (s : string) :
  Str.all isAscii s = true -> Str.all isAscii (Str.toLowerCase s) = true.
Proof.
  unfold Str.toLowerCase. induction s as [|c r IH]; simpl; [reflexivity|].
  intros H. apply andb_true_iff in H as [Hc Hr].
  rewrite (isAscii_lowerChar c Hc), (IH Hr). reflexivity.
Qed.

Lemma all_collapseSpaces_ascii (b : bool) (s : string) :
  Str.all isAscii s = true -> Str.all isAscii (collapseSpaces b s) = true.
Proof.
  revert b. induction s as [|c r IH]; intros b; simpl; [reflexivity|].
  intros H. apply andb_true_iff in H as [Hc Hr].
  destruct (Str.isSpace c); [destruct b|]; simpl; rewrite ?Hc, (IH _ Hr); reflexivity.
Qed.

(** X10.  On ASCII text, where the fold of the script is the lower-casing
    of the model, the folded text of a document is a normal form: it is
    ASCII again, folding it again changes nothing, it holds no upper-case
    letter, and its only white space is single spaces. *)
Theorem foldText_is_normal_form (t : string) :
  Str.all isAscii t = true ->
  Str.all isAscii (foldText t) = true
  /\ foldText (foldText t) = foldText t
  /\ singleSpaced (foldText t) = true
  /\ Str.all (fun c => negb (Str.isUpper c)) (foldText t) = true.
Proof.
  intros Ha. unfold foldText, foldAscii. simpl default. repeat split.
  - apply all_collapseSpaces_ascii, all_toLowerCase_ascii, Ha.
  - rewrite toLowerCase_collapse, toLowerCase_idem.
    apply (collapseSpaces_idem (Str.toLowerCase t)).
  - apply collapseSpaces_singleSpaced.
  - rewrite <- toLowerCase_collapse. unfold Str.toLowerCase.
    induction (collapseSpaces false t) as [|c r IH]; simpl; [reflexivity|].
    rewrite isUpper_lowerChar, IH. reflexivity.
Qed.

Lemma foldText_is_normal_form_witness :
  foldText (foldText "Doanh  thu   THUAN:  8.235.606 Ty")
  = foldText "Doanh  thu   THUAN:  8.235.606 Ty"
  /\ foldText "Doanh  thu   THUAN:  8.235.606 Ty" = "doanh thu thuan: 8.235.606 ty".
Proof.
  destruct (foldText_is_normal_form "Doanh  thu   THUAN:  8.235.606 Ty") as (_ & H & _);
    [reflexivity|].
  split; [exact H | reflexivity].
Defined.

(* ===================================================================== *)
(** ** OCR scoring and the choice of the engine *)
(* ===================================================================== *)

Lemma keywordWeight_pos (kw : string) : 1 <= keywordWeight kw.
Proof. unfold keywordWeight. lia. Qed.

Lemma keywordScore_zero (t : string) (kws : list string) :
  keywordScore t kws = 0 <-> Forall (fun kw => Str.includes t kw = false) kws.
Proof.
  induction kws as [|kw r IH]; simpl.
  - split; [constructor | reflexivity].
  - pose proof (keywordWeight_pos kw) as Hw.
    destruct (Str.includes t kw) eqn:Hi.
    + split; [lia|]. intros H. inversion H; subst. congruence.
    + rewrite Nat.add_0_l, IH. split.
      * intros H. constructor; assumption.
      * intros H. inversion H; assumption.
Qed.

(** X11.  [scoreOcrText] is below 1000 exactly when no keyword occurs in
    the folded text, and is then the number of digits of the text, capped
    at 500: the test [score < 1000] of [ocrWithCli] is the test that no
    keyword was read. *)
Theorem scoreOcrText_keyword_threshold (t : string) (keywords : list string) :
  (scoreOcrText t keywords < 1000
   <-> Forall (fun kw => Str.includes (foldAscii (Some t)) kw = false) keywords)
  /\ (scoreOcrText t keywords < 1000 ->
      scoreOcrText t keywords = Nat.min 500 (Str.count Str.isDigit (foldAscii (Some t)))).
Proof.
  unfold scoreOcrText. cbv zeta.
  set (f := foldAscii (Some t)). set (d := Str.count Str.isDigit f).
  pose proof (keywordScore_zero f keywords) as Hz.
  assert (Hlt : keywordScore f keywords * 1000 + Nat.min 500 d < 1000
                <-> keywordScore f keywords = 0) by lia.
  split.
  - rewrite Hlt. exact Hz.
  - intros H. apply Hlt in H. rewrite H. reflexivity.
Qed.

Section Engine.

Variable E : Env.

(** X12.  Once the pages are rendered, [ocrPdfBuffer] returns the empty
    string when there is no page; otherwise it runs the command-line
    engine exactly when a binary is found and the engine asked for is not
    "js", and the in-process engine in every other case.  Asking for "cli"
    without a binary falls back to the in-process engine, and the error
    "Tesseract CLI not available." of the source is never raised. *)
Theorem ocrPdfBuffer_engine_choice (buf : Buffer) (opts : OcrOpts) (pages : list Page) :
  renderPdfPages E buf (natOr (o_maxPages opts) 2) (qOr (o_scale opts) (8 # 5)) = Ok pages ->
  ocrPdfBuffer E buf opts
  = if isNil pages then Ok ""
    else match tesseractBinary E with
         | Some bin =>
             if String.eqb (strOr (o_engine opts) "auto") "js" then ocrWithJs E pages opts
             else cliPages E bin (strOr (o_langs opts) "eng") (keywordsOf opts)
                    (requireKeywordsOf opts) (rotateAnglesOf opts) pages ""
         | None => ocrWithJs E pages opts
         end.
Proof.
  intros Hpages. unfold ocrPdfBuffer. cbv zeta. rewrite Hpages.
  destruct pages as [|page rest]; [reflexivity|]. cbn [length Nat.eqb isNil].
  unfold cliOrThrow, ocrWithCli.
  destruct (tesseractBinary E) as [bin|].
  - destruct (String.eqb (strOr (o_engine opts) "auto") "js"); [reflexivity|].
    destruct (String.eqb (strOr (o_engine opts) "auto") "cli");
      destruct (cliPages E bin _ _ _ _ _ _); reflexivity.
  - destruct (String.eqb (strOr (o_engine opts) "auto") "js"); [reflexivity|].
    destruct (String.eqb (strOr (o_engine opts) "auto") "cli"); reflexivity.
Qed.

End Engine.

Lemma ocrPdfBuffer_engine_choice_witness :
  ocrPdfBuffer Site.siteEnv "%PDF-1.7" Site.ocrOpts
  = Ok (String "010" (String "010" "Doanh thu thuan 8.235.606 ty")).
Proof.
  rewrite (ocrPdfBuffer_engine_choice Site.siteEnv "%PDF-1.7" Site.ocrOpts
             [ {| pageNum := 7; image := "page-7" |}; {| pageNum := 8; image := "page-8" |} ]
             eq_refl).
  vm_compute. reflexivity.
Defined.

(* ===================================================================== *)
(** ** Period inference *)
(* ===================================================================== *)

Lemma optEqb_eq (a b : option string) : optEqb a b = true -> a = b.
Proof.
  destruct a, b; simpl; try discriminate; try reflexivity.
  intros H. apply String.eqb_eq in H. congruence.
Qed.

Lemma isDigit_cases (c : ascii) : Str.isDigit c = true -> In c digitChars.
Proof.
  destruct c as [[] [] [] [] [] [] [] []]; vm_compute; intros H; try discriminate; tauto.
Qed.

Lemma quarter_cases (c : ascii) : Rx.oneOf "1234" c = true -> In c quarterChars.
Proof.
  destruct c as [[] [] [] [] [] [] [] []]; vm_compute; intros H; try discriminate; tauto.
Qed.

Lemma readsBack_all :
  forallb (fun d1 => forallb (fun d2 => forallb (readsBack d1 d2) quarterChars) digitChars)
          digitChars = true.
Proof. vm_compute. reflexivity. Qed.

(** X13.  The period inference reads back what it is meant to read.  For
    every year 2000 to 2099 and every quarter, [inferPeriodFromString]
    gives the token [20yyQn] for the token itself, for [q]n-20yy in a file
    name, for 20yy_Qn in a path, for "Quy" with the Roman numeral and "nam
    20yy", for "20yy - QUY" with the Roman numeral in capitals, and for
    20yy-quy-n; Roman numerals go through [quarterToRoman] and back
    through [romanToQuarter].  [inferPeriodFromText] gives the token for
    the folded spellings of a page when the period is one of [PERIODS_Q],
    and nothing otherwise. *)
Theorem period_spellings_are_read_back (d1 d2 q : ascii) :
  Str.isDigit d1 = true -> Str.isDigit d2 = true -> Rx.oneOf "1234" q = true ->
  Forall (fun s => inferPeriodFromString (Some s) = Some (periodToken d1 d2 q))
         (spellings d1 d2 q)
  /\ Forall (fun s => inferPeriodFromText (foldText s)
                      = (if isPeriod (periodToken d1 d2 q)
                         then Some (periodToken d1 d2 q) else None))
            (textSpellings d1 d2 q).
Proof.
  intros H1 H2 Hq.
  apply isDigit_cases in H1. apply isDigit_cases in H2. apply quarter_cases in Hq.
  pose proof readsBack_all as Hall.
  rewrite forallb_forall in Hall. specialize (Hall d1 H1).
  rewrite forallb_forall in Hall. specialize (Hall d2 H2).
  rewrite forallb_forall in Hall. specialize (Hall q Hq).
  unfold readsBack in Hall. apply andb_true_iff in Hall as [Ha Hb].
  split.
  - rewrite Forall_forall. intros s Hs. apply list_elem_of_In in Hs.
    rewrite forallb_forall in Ha. apply optEqb_eq, Ha, Hs.
  - rewrite Forall_forall. intros s Hs. apply list_elem_of_In in Hs.
    rewrite forallb_forall in Hb. apply optEqb_eq, Hb, Hs.
Qed.

Ltac in_list := repeat first [apply list_elem_of_here | apply list_elem_of_further].

Lemma period_spellings_are_read_back_witness :
  inferPeriodFromString (Some "Quy iii nam 2025") = Some "2025Q3"
  /\ inferPeriodFromString (Some "BCTC 2025 - QUY III") = Some "2025Q3"
  /\ inferPeriodFromText (foldText "Q3/2025") = Some "2025Q3".
Proof.
  destruct (period_spellings_are_read_back "2" "5" "3") as [Hs Ht];
    try (vm_compute; reflexivity).
  rewrite Forall_forall in Hs. rewrite Forall_forall in Ht.
  split; [apply (Hs "Quy iii nam 2025"); vm_compute; in_list|].
  split; [apply (Hs "BCTC 2025 - QUY III"); vm_compute; in_list|].
  apply (Ht "Q3/2025"). vm_compute. in_list.
Defined.

Lemma head_In {A : Type} (l : list A) (x : A) : head l = Some x -> In x l.
Proof. destruct l; simpl; [discriminate | intros [= ->]; left; reflexivity]. Qed.

(** X14.  A period [inferPeriodFromText] returns is one of [PERIODS_Q]:
    a quarter outside 2021 to 2025 on a page is passed over. *)
Theorem inferPeriodFromText_is_period (t p : string) :
  inferPeriodFromText t = Some p -> isPeriod p = true.
Proof.
  unfold inferPeriodFromText. intros H. apply head_In in H.
  apply in_concat in H as (l & Hl & Hp).
  apply in_map_iff in Hl as (scan & <- & _).
  destruct scan as [[r y] q]. unfold scanCandidates in Hp.
  apply list_elem_of_In in Hp. apply list_elem_of_omap in Hp as (cs & _ & Hcs).
  destruct (romanToQuarter (Rx.cap cs q)) as [n|]; [|discriminate].
  cbv zeta in Hcs. destruct (isPeriod (Rx.cap cs y ++ "Q" ++ n)) eqn:Hper; [|discriminate].
  injection Hcs as <-. exact Hper.
Qed.

Lemma inferPeriodFromText_is_period_witness :
  inferPeriodFromText "bao cao quy 3 nam 2019 va quy 4 nam 2025" = Some "2025Q4"
  /\ isPeriod "2025Q4" = true.
Proof.
  assert (H : inferPeriodFromText "bao cao quy 3 nam 2019 va quy 4 nam 2025" = Some "2025Q4")
    by (vm_compute; reflexivity).
  split; [exact H | exact (inferPeriodFromText_is_period _ _ H)].
Defined.

(* ===================================================================== *)
(** ** Scores, ranks and duplicates *)
(* ===================================================================== *)

(** X15.  The link text can only add to the score of a candidate:
    [scoreCandidate] is at least [scoreUrl] of its URL and equal to it
    when there is no text.  A URL with ".pdf" scores at least 4, so no PDF
    link falls under the threshold of 3; with a year from 2021 to 2025
    and "bctc" as well it scores at least 8. *)
Theorem anchor_text_only_adds (item : Candidate) (kpiKey : string) :
  scoreUrl (url item) kpiKey <= scoreCandidate item kpiKey
  /\ (anchor item = "" -> scoreCandidate item kpiKey = scoreUrl (url item) kpiKey)
  /\ (hasPdfSuffix item = true -> 4 <= scoreCandidate item kpiKey)
  /\ (hasPdfSuffix item = true ->
      hasYearToken (Str.toLowerCase (url item)) = true ->
      has (Str.toLowerCase (url item)) "bctc" = true ->
      8 <= scoreUrl (url item) kpiKey).
Proof.
  assert (Hle : scoreUrl (url item) kpiKey <= scoreCandidate item kpiKey).
  { unfold scoreCandidate. cbv zeta. destruct (Str.isEmpty _); lia. }
  split; [exact Hle|]. split; [|split].
  - intros Ha. unfold scoreCandidate. rewrite Ha. reflexivity.
  - intros Hpdf. unfold hasPdfSuffix in Hpdf.
    assert (4 <= scoreUrl (url item) kpiKey); [|lia].
    unfold scoreUrl. cbv zeta. rewrite Hpdf. lia.
  - intros Hpdf Hyear Hb. unfold hasPdfSuffix in Hpdf. unfold has in Hb.
    unfold scoreUrl. cbv zeta. rewrite Hpdf, Hyear.
    assert (1 <= countIncluded (Str.toLowerCase (url item)) baseUrlKeywords); [|lia].
    unfold countIncluded, baseUrlKeywords. cbn [List.filter]. rewrite Hb.
    destruct (Str.includes (Str.toLowerCase (url item)) "bao-cao"); simpl; lia.
Qed.

(** X16.  Raising [maxDocs] only lengthens the ranked list at its end:
    the list for a smaller [maxDocs] is the front of the list for a larger
    one. *)
Theorem rankCandidates_prefix (kpiMeta : KpiMeta) (kpiKey : string) (m m' : nat)
    (raw : list Candidate) :
  m <= m' ->
  rankCandidates kpiMeta kpiKey m raw = take m (rankCandidates kpiMeta kpiKey m' raw).
Proof.
  intros Hm. unfold rankCandidates. cbv zeta.
  rewrite <- !firstn_map. rewrite take_take. f_equal. lia.
Qed.

Lemma rankCandidates_prefix_witness :
  rankCandidates meta_stores "stores" 1
    (snd (Sample.crawlSite "PNJ" Sample.autoOn Sample.emptyWorld))
  = take 1 (rankCandidates meta_stores "stores" 80
              (snd (Sample.crawlSite "PNJ" Sample.autoOn Sample.emptyWorld))).
Proof.
  apply (rankCandidates_prefix meta_stores "stores" 1 80). lia.
Defined.

Lemma isEmpty_iff (s : string) : Str.isEmpty s = true <-> s = "".
Proof. destruct s; simpl; split; congruence. Qed.

Lemma dedupeStrings_elem (seen : gset string) (l : list string) (x : string) :
  x ∈ dedupeStrings seen l <-> x ∈ l /\ x <> "" /\ x ∉ seen.
Proof.
  revert seen. induction l as [|y r IH]; intros seen; simpl.
  - split; [intros H; inversion H | intros (H & _); inversion H].
  - destruct (Str.isEmpty y) eqn:He; simpl.
    { apply isEmpty_iff in He. subst y. rewrite IH, elem_of_cons. split.
      - intros (? & ? & ?). auto.
      - intros ([-> | ?] & ? & ?); [congruence | auto]. }
    assert (Hy : y <> "") by (intros ->; discriminate).
    destruct (bool_decide (y ∈ seen)) eqn:Hs.
    { apply bool_decide_eq_true in Hs. rewrite IH, elem_of_cons. split.
      - intros (? & ? & ?). auto.
      - intros ([-> | ?] & ? & ?); [contradiction | auto]. }
    apply bool_decide_eq_false in Hs. rewrite !elem_of_cons, IH. split.
    + intros [-> | (? & ? & Hn)]; [auto|].
      repeat split; [auto | assumption |].
      intros Hin. apply Hn, elem_of_union_r, Hin.
    + intros ([-> | Hx] & Hne & Hn); [left; reflexivity|].
      destruct (decide (x = y)) as [-> | Hxy]; [left; reflexivity|].
      right. repeat split; [assumption | assumption |].
      intros Hin. apply elem_of_union in Hin as [Hin | Hin]; [|contradiction].
      apply elem_of_singleton in Hin. contradiction.
Qed.

Lemma dedupeStrings_nodup (seen : gset string) (l : list string) :
  NoDup (dedupeStrings seen l).
Proof.
  revert seen. induction l as [|y r IH]; intros seen; simpl; [constructor|].
  destruct (Str.isEmpty y || bool_decide (y ∈ seen)); [apply IH|].
  constructor; [|apply IH].
  rewrite dedupeStrings_elem. intros (_ & _ & Hn).
  apply Hn, elem_of_union_l, elem_of_singleton. reflexivity.
Qed.

Lemma dedupeStrings_sublist (seen : gset string) (l : list string) :
  sublist (dedupeStrings seen l) l.
Proof.
  revert seen. induction l as [|y r IH]; intros seen; simpl; [constructor|].
  destruct (Str.isEmpty y || bool_decide (y ∈ seen));
    [apply sublist_cons, IH | apply sublist_skip, IH].
Qed.

Lemma dedupeStrings_fixed (seen : gset string) (l : list string) :
  NoDup l -> (forall x, x ∈ l -> x <> "" /\ x ∉ seen) -> dedupeStrings seen l = l.
Proof.
  revert seen. induction l as [|y r IH]; intros seen Hnd Hl; simpl; [reflexivity|].
  apply NoDup_cons in Hnd as [Hy Hnd].
  destruct (Hl y (list_elem_of_here _ _)) as [Hne Hns].
  destruct (Str.isEmpty y) eqn:He; [apply isEmpty_iff in He; contradiction|].
  rewrite bool_decide_eq_false_2 by exact Hns. simpl. f_equal.
  apply IH; [exact Hnd|]. intros x Hx.
  destruct (Hl x (list_elem_of_further _ _ _ Hx)) as [? ?].
  split; [assumption|]. intros Hin. apply elem_of_union in Hin as [Hin | Hin]; [|contradiction].
  apply elem_of_singleton in Hin. subst x. contradiction.
Qed.

Lemma dedupeStrings_ext (s1 s2 : gset string) (l : list string) :
  (forall x, x ∈ s1 <-> x ∈ s2) -> dedupeStrings s1 l = dedupeStrings s2 l.
Proof.
  revert s1 s2. induction l as [|y r IH]; intros s1 s2 H; simpl; [reflexivity|].
  rewrite (bool_decide_ext (y ∈ s1) (y ∈ s2) (H y)).
  destruct (Str.isEmpty y || bool_decide (y ∈ s2)); [apply IH; exact H|].
  f_equal. apply IH. intros x. rewrite !elem_of_union, H. reflexivity.
Qed.

Lemma dedupeStrings_seen (seen : gset string) (ex l : list string) :
  dedupeStrings (list_to_set ex ∪ seen) l
  = List.filter (notAmong ex) (dedupeStrings seen l).
Proof.
  revert seen. induction l as [|y r IH]; intros seen; simpl; [reflexivity|].
  destruct (Str.isEmpty y) eqn:He; simpl; [apply IH|].
  destruct (bool_decide (y ∈ seen)) eqn:Hs.
  - apply bool_decide_eq_true in Hs.
    rewrite bool_decide_eq_true_2 by (apply elem_of_union_r, Hs). apply IH.
  - apply bool_decide_eq_false in Hs. simpl. unfold notAmong at 1.
    destruct (decide (y ∈ ex)) as [Hex | Hex].
    + rewrite bool_decide_eq_true_2 by (apply elem_of_union_l, elem_of_list_to_set, Hex).
      rewrite bool_decide_eq_false_2 by (intros Hn; apply Hn, Hex).
      rewrite <- IH. apply dedupeStrings_ext. intros x.
      rewrite !elem_of_union, elem_of_singleton.
      split; [tauto|]. intros [? | [-> | ?]]; [tauto | | tauto].
      left. apply elem_of_list_to_set, Hex.
    + rewrite bool_decide_eq_false_2.
      2:{ intros Hin. apply elem_of_union in Hin as [Hin | Hin]; [|contradiction].
          apply elem_of_list_to_set in Hin. contradiction. }
      rewrite bool_decide_eq_true_2 by exact Hex. f_equal.
      rewrite <- IH. apply dedupeStrings_ext. intros x.
      rewrite !elem_of_union. tauto.
Qed.

Lemma notAmong_app (a b : list string) (y : string) :
  notAmong (b ++ a) y = notAmong b y && notAmong a y.
Proof.
  unfold notAmong.
  destruct (decide (y ∈ b)) as [Hb | Hb].
  - rewrite (bool_decide_eq_false_2 (y ∉ b)) by (intros Hn; apply Hn, Hb).
    apply bool_decide_eq_false_2. intros Hn. apply Hn, elem_of_app. left. exact Hb.
  - rewrite (bool_decide_eq_true_2 (y ∉ b)) by exact Hb. simpl.
    apply bool_decide_ext. rewrite elem_of_app. tauto.
Qed.

Lemma filter_notAmong_twice (a b : list string) (l : list string) :
  List.filter (notAmong a) (List.filter (notAmong b) l) = List.filter (notAmong (b ++ a)) l.
Proof.
  induction l as [|y r IH]; simpl; [reflexivity|].
  rewrite notAmong_app. destruct (notAmong b y); simpl; [|exact IH].
  destruct (notAmong a y); rewrite IH; reflexivity.
Qed.

Lemma dedupeStrings_app (seen : gset string) (l1 l2 : list string) :
  dedupeStrings seen (l1 ++ l2)
  = (dedupeStrings seen l1 ++ List.filter (notAmong l1) (dedupeStrings seen l2))%list.
Proof.
  revert seen. induction l1 as [|y r IH]; intros seen.
  - simpl. symmetry. apply forallb_filter_id. apply forallb_forall. intros x _.
    apply bool_decide_eq_true. apply not_elem_of_nil.
  - change ((y :: r) ++ l2)%list with (y :: (r ++ l2))%list. simpl.
    destruct (Str.isEmpty y || bool_decide (y ∈ seen)) eqn:Hskip.
    + rewrite IH. f_equal. apply filter_ext_in. intros x Hx.
      apply list_elem_of_In, dedupeStrings_elem in Hx as (_ & Hne & Hns).
      unfold notAmong. apply bool_decide_ext. rewrite elem_of_cons.
      split; [|tauto]. intros Hn [-> | Hin]; [|contradiction].
      apply orb_true_iff in Hskip as [He | Hs].
      * apply isEmpty_iff in He. contradiction.
      * apply bool_decide_eq_true in Hs. contradiction.
    + rewrite IH. simpl. f_equal. f_equal.
      replace ({[y]} ∪ seen) with (list_to_set [y] ∪ seen : gset string).
      2:{ simpl. f_equal. apply (right_id_L ∅ (∪)). }
      rewrite dedupeStrings_seen, filter_notAmong_twice. reflexivity.
Qed.

Lemma dedupe_first (pre post : list string) (x : string) :
  x <> "" -> x ∉ pre ->
  dedupe (pre ++ x :: post)
  = (dedupe pre ++ x :: List.filter (notAmong (x :: pre)) (dedupe post))%list.
Proof.
  intros Hne Hpre. unfold dedupe. rewrite dedupeStrings_app. f_equal. simpl.
  destruct (Str.isEmpty x) eqn:He; [apply isEmpty_iff in He; contradiction|].
  rewrite bool_decide_eq_false_2 by apply not_elem_of_empty. simpl.
  unfold notAmong at 1. rewrite bool_decide_eq_true_2 by exact Hpre. f_equal.
  replace ({[x]} ∪ ∅) with (list_to_set [x] ∪ ∅ : gset string).
  2:{ simpl. f_equal. apply (right_id_L ∅ (∪)). }
  rewrite dedupeStrings_seen, filter_notAmong_twice. reflexivity.
Qed.

(** X17.  [dedupe] keeps the first occurrence of each non-empty string, in
    the order of the list: its result has no duplicate, holds exactly the
    non-empty strings of the list, is a sublist of it, and is left
    unchanged by a second [dedupe]; and where a non-empty string [x]
    occurs for the first time, after [pre], the result is the result for
    [pre], then [x], then what the rest of the list adds: the strings of
    its result that are neither [x] nor in [pre]. *)
Theorem dedupe_first_occurrences (l : list string) :
  NoDup (dedupe l)
  /\ (forall x, x ∈ dedupe l <-> x ∈ l /\ x <> "")
  /\ sublist (dedupe l) l
  /\ dedupe (dedupe l) = dedupe l
  /\ (forall pre x post,
        l = (pre ++ x :: post)%list -> x <> "" -> x ∉ pre ->
        dedupe l
        = (dedupe pre ++ x :: List.filter (notAmong (x :: pre)) (dedupe post))%list)
  /\ dedupe ["a"; "b"; ""; "a"; "c"; "b"] = ["a"; "b"; "c"].
Proof.
  split; [apply dedupeStrings_nodup|]. split; [|split; [|split; [|split]]].
  - intros x. unfold dedupe. rewrite dedupeStrings_elem. split; [tauto|].
    intros [? ?]. repeat split; [assumption | assumption | apply not_elem_of_empty].
  - apply dedupeStrings_sublist.
  - apply dedupeStrings_fixed; [apply dedupeStrings_nodup|].
    intros x Hx. apply dedupeStrings_elem in Hx. split; [tauto | apply not_elem_of_empty].
  - intros pre x post -> Hne Hpre. apply dedupe_first; assumption.
  - vm_compute. reflexivity.
Qed.

Lemma dedupeFrom_fixed (seen : gset string) (l : list Candidate) :
  NoDup (List.map url l) -> (forall c, c ∈ l -> url c <> "" /\ url c ∉ seen) ->
  dedupeFrom seen l = l.
Proof.
  revert seen. induction l as [|y r IH]; intros seen Hnd Hl; simpl; [reflexivity|].
  simpl in Hnd. apply NoDup_cons in Hnd as [Hy Hnd].
  destruct (Hl y (list_elem_of_here _ _)) as [Hne Hns].
  destruct (Str.isEmpty (url y)) eqn:He; [apply isEmpty_iff in He; contradiction|].
  rewrite bool_decide_eq_false_2 by exact Hns. f_equal.
  apply IH; [exact Hnd|]. intros x Hx.
  destruct (Hl x (list_elem_of_further _ _ _ Hx)) as [? ?].
  split; [assumption|]. intros Hin. apply elem_of_union in Hin as [Hin | Hin]; [|contradiction].
  apply elem_of_singleton in Hin. apply Hy. rewrite <- Hin.
  apply list_elem_of_fmap. exists x. split; [reflexivity | exact Hx].
Qed.

(** X18.  [dedupeEntries] is idempotent, and every entry it keeps is the
    first of the list with its URL. *)
Theorem dedupeEntries_idempotent (l : list Candidate) :
  dedupeEntries (dedupeEntries l) = dedupeEntries l
  /\ forall c, c ∈ dedupeEntries l ->
       exists pre post, l = (pre ++ c :: post)%list
                        /\ Forall (fun c' => url c' <> url c) pre.
Proof.
  split.
  - unfold dedupeEntries. apply dedupeFrom_fixed; [apply dedupeFrom_nodup|].
    intros c Hc. apply dedupeFrom_elem in Hc as (_ & Hne & _).
    split; [assumption | apply not_elem_of_empty].
  - unfold dedupeEntries.
    assert (Hgen : forall seen c, c ∈ dedupeFrom seen l ->
              exists pre post, l = (pre ++ c :: post)%list
                               /\ Forall (fun c' => url c' <> url c) pre).
    { induction l as [|y r IH]; intros seen c; simpl; [intros H; inversion H|].
      assert (Hskip : c ∈ dedupeFrom seen r -> url y ∈ seen \/ url y = "" ->
                exists pre post, y :: r = (pre ++ c :: post)%list
                                 /\ Forall (fun c' => url c' <> url c) pre).
      { intros Hc Hy. pose proof (dedupeFrom_elem _ _ _ Hc) as (Hns & Hne & _).
        destruct (IH _ _ Hc) as (pre & post & -> & Hpre).
        exists (y :: pre), post. split; [reflexivity|]. constructor; [|exact Hpre].
        intros Heq. rewrite Heq in Hy. destruct Hy; contradiction. }
      destruct (Str.isEmpty (url y)) eqn:He.
      { apply isEmpty_iff in He. intros Hc. apply Hskip; auto. }
      destruct (bool_decide (url y ∈ seen)) eqn:Hs.
      { apply bool_decide_eq_true in Hs. intros Hc. apply Hskip; auto. }
      intros Hc. apply elem_of_cons in Hc as [-> | Hc].
      - exists [], r. split; [reflexivity | constructor].
      - pose proof (dedupeFrom_elem _ _ _ Hc) as (Hns & Hne & _).
        destruct (IH _ _ Hc) as (pre & post & -> & Hpre).
        exists (y :: pre), post. split; [reflexivity|]. constructor; [|exact Hpre].
        intros Heq. apply Hns. rewrite <- Heq.
        apply elem_of_union_l, elem_of_singleton. reflexivity. }
    apply Hgen.
Qed.


(* ===================================================================== *)
(** ** Explicit and discovered entries *)
(* ===================================================================== *)

Lemma valueAt_setValue (p q : string) (v : option Q) (s : Series) :
  valueAt q (setValue p v s)
  = if String.eqb q p then option_map (fun _ => v) (valueAt p s) else valueAt q s.
Proof.
  unfold valueAt. induction s as [|x r IH]; simpl.
  - destruct (String.eqb q p); reflexivity.
  - destruct (String.eqb_spec (period x) p) as [Hx | Hx]; simpl.
    + destruct (String.eqb_spec q p) as [-> | Hq].
      * rewrite Hx, String.eqb_refl. reflexivity.
      * rewrite Hx. destruct (String.eqb_spec p q) as [-> | _]; [congruence | reflexivity].
    + destruct (String.eqb_spec (period x) q) as [Hxq | Hxq].
      * destruct (String.eqb_spec q p) as [-> | _]; [congruence | reflexivity].
      * exact IH.
Qed.

Lemma valueAt_applyAll (p : string) (us : list (option (string * option Q))) (s : Series) :
  valueAt p (applyAll us s)
  = option_map (fun old => default old (lastUpdate p us)) (valueAt p s).
Proof.
  revert s. induction us as [|u rest IH]; intros s; simpl.
  - destruct (valueAt p s); reflexivity.
  - rewrite IH. destruct u as [[q v]|]; simpl.
    + rewrite valueAt_setValue. rewrite (String.eqb_sym p q).
      destruct (String.eqb_spec q p) as [-> | Hne];
        destruct (valueAt p s); simpl; try reflexivity;
        destruct (lastUpdate p rest); reflexivity.
    + destruct (valueAt p s); simpl; [|reflexivity].
      destruct (lastUpdate p rest); reflexivity.
Qed.

Section Entries.

Variable E : Env.

(** X21.  Of the explicit entries for one period, the last one that is
    valid and whose document could be read decides the value the period
    holds after the loop, [null] included; a period that no such entry
    names keeps its value. *)
Theorem last_explicit_entry_wins (kpi : Kpi) (entries : list Entry) (s : Series) (w : World) :
  exists w' s',
    hydrateEntries E kpi entries s w = (w', Ok s')
    /\ forall p,
         valueAt p s'
         = option_map
             (fun old =>
                default old
                  (lastUpdate p (List.map (entryUpdate E (docOf E w) kpi) entries)))
             (valueAt p s).
Proof.
  destruct (hydrateEntries_updates E kpi entries s w) as (w' & H & _).
  eexists w', _. split; [exact H|]. intros p. apply valueAt_applyAll.
Qed.

Lemma discoverMatches_spec (d : DiscoverCfg) (limit : nat) (ms : list RegexMatch)
    (seen : gset string) (entries : list Entry) :
  exists new,
    discoverMatches E d limit ms seen entries = (entries ++ new)%list
    /\ Forall (fun e => isPeriod (e_period e) = true /\ (e_period e ∉ seen)
                        /\ e_pattern e = valuePattern d) new
    /\ NoDup (List.map e_period new)
    /\ length (entries ++ new)%list <= Nat.max limit (S (length entries)).
Proof.
  revert seen entries. induction ms as [|m rest IH]; intros seen entries; simpl.
  - exists []. rewrite app_nil_r. repeat split; [constructor | constructor | lia].
  - set (normalized := Str.filter periodChar
                         (Str.map upperChar (orEmpty (group m (default 1 (periodGroup d)))))).
    destruct (isPeriod normalized && negb (bool_decide (normalized ∈ seen))) eqn:Hfresh.
    + apply andb_true_iff in Hfresh as [Hper Hns].
      apply negb_true_iff, bool_decide_eq_false in Hns.
      set (e := {| e_period := normalized; e_url := _; e_pattern := valuePattern d |}).
      assert (He : isPeriod (e_period e) = true /\ (e_period e ∉ seen)
                   /\ e_pattern e = valuePattern d) by (repeat split; assumption).
      destruct (limit <=? length (entries ++ [e])%list) eqn:Hlim.
      * exists [e]. split; [reflexivity|]. split; [constructor; [exact He | constructor]|].
        split; [constructor; [apply not_elem_of_nil | constructor]|].
        rewrite length_app. simpl. lia.
      * apply Nat.leb_gt in Hlim.
        destruct (IH ({[normalized]} ∪ seen) (entries ++ [e])%list)
          as (new & -> & Hall & Hnd & Hlen).
        exists (e :: new). split; [rewrite <- app_assoc; reflexivity|].
        split; [|split].
        -- constructor; [exact He|]. eapply Forall_impl; [exact Hall|]. simpl.
           intros x (? & Hx & ?). repeat split; try assumption.
           intros Hin. apply Hx, elem_of_union_r, Hin.
        -- simpl. constructor; [|exact Hnd]. intros Hin.
           apply list_elem_of_fmap in Hin as (x & Hx & Hin).
           rewrite Forall_forall in Hall. destruct (Hall x Hin) as (_ & Hn & _).
           apply Hn. rewrite <- Hx. apply elem_of_union_l, elem_of_singleton. reflexivity.
        -- change (entries ++ e :: new)%list with (entries ++ [e] ++ new)%list.
           rewrite app_assoc. rewrite length_app in Hlim. simpl in Hlim.
           rewrite length_app in Hlen. simpl in Hlen.
           rewrite !length_app in *. simpl in *. lia.
    + destruct (limit <=? length entries) eqn:Hlim.
      * exists []. rewrite app_nil_r. repeat split; [constructor | constructor | lia].
      * apply Nat.leb_gt in Hlim. destruct (IH seen entries) as (new & -> & Hall & Hnd & Hlen).
        exists new. repeat split; try assumption.
Qed.

Lemma discoverListing_spec (d : DiscoverCfg) (entries : list Entry) (w : World) :
  exists new,
    tryCatch
      (bind (fetchBuffer E (listUrl d))
         (fun htmlBuf =>
            if negb (regexValid E (linkPattern d)) then throw "Invalid regular expression"
            else ret (discoverMatches E d (default 6 (max d))
                        (regexExecAll E (linkPattern d) htmlBuf) ∅ entries)))
      (fun _ => ret entries) w
    = ({| cache := cache w; requests := listUrl d :: requests w |}, Ok (entries ++ new)%list)
    /\ Forall (fun e => isPeriod (e_period e) = true /\ e_pattern e = valuePattern d) new
    /\ NoDup (List.map e_period new)
    /\ length (entries ++ new)%list <= Nat.max (default 6 (max d)) (S (length entries)).
Proof.
  unfold tryCatch, bind, fetchBuffer, throw, ret.
  destruct (fetch E (listUrl d)) as [res|e].
  2: { exists []. rewrite app_nil_r. split; [reflexivity|].
       repeat split; [constructor | constructor | lia]. }
  destruct (res_ok res).
  2: { exists []. rewrite app_nil_r. split; [reflexivity|].
       repeat split; [constructor | constructor | lia]. }
  destruct (regexValid E (linkPattern d)); simpl.
  2: { exists []. rewrite app_nil_r. split; [reflexivity|].
       repeat split; [constructor | constructor | lia]. }
  destruct (discoverMatches_spec d (default 6 (max d))
              (regexExecAll E (linkPattern d) (res_body res)) ∅ entries)
    as (new & -> & Hall & Hnd & Hlen).
  exists new. split; [reflexivity|]. split; [|split; assumption].
  eapply Forall_impl; [exact Hall|]. simpl. intros e (? & _ & ?). split; assumption.
Qed.

Lemma discoverEntriesFrom_spec (discoverCfg : list DiscoverCfg) (entries : list Entry)
    (w : World) :
  exists w' new asked,
    discoverEntriesFrom E discoverCfg entries w = (w', Ok (entries ++ new)%list)
    /\ Forall (fun e => isPeriod (e_period e) = true
                        /\ e_pattern e <> ""
                        /\ exists d, d ∈ discoverCfg /\ e_pattern e = valuePattern d) new
    /\ requests w' = (asked ++ requests w)%list
    /\ length asked <= length discoverCfg
    /\ Forall (fun u => exists d, d ∈ discoverCfg /\ u = listUrl d) asked.
Proof.
  revert entries w. induction discoverCfg as [|d rest IH]; intros entries w; simpl.
  - exists w, [], []. rewrite app_nil_r. split; [reflexivity|]. split; [constructor|].
    split; [reflexivity|]. split; [simpl; lia | constructor].
  - destruct (Str.isEmpty (listUrl d) || Str.isEmpty (linkPattern d)
              || Str.isEmpty (valuePattern d)) eqn:Hskip.
    + destruct (IH entries w) as (w' & new & asked & -> & Hall & Hreq & Hlen & Hasked).
      exists w', new, asked. split; [reflexivity|]. split; [|split; [exact Hreq|split; [lia|]]].
      * eapply Forall_impl; [exact Hall|]. simpl.
        intros e (? & ? & d' & ? & ?). repeat split; try assumption. exists d'.
        split; [apply list_elem_of_further; assumption | assumption].
      * eapply Forall_impl; [exact Hasked|]. simpl. intros u (d' & ? & ?). exists d'.
        split; [apply list_elem_of_further; assumption | assumption].
    + apply orb_false_iff in Hskip as [_ Hvp].
      assert (Hvp' : valuePattern d <> "") by (intros Heq; rewrite Heq in Hvp; discriminate).
      unfold bind at 1.
      destruct (discoverListing_spec d entries w) as (new1 & -> & Hall1 & _ & _).
      destruct (IH (entries ++ new1)%list
                  {| cache := cache w; requests := listUrl d :: requests w |})
        as (w' & new & asked & -> & Hall & Hreq & Hlen & Hasked).
      exists w', (new1 ++ new)%list, (asked ++ [listUrl d])%list.
      split; [rewrite app_assoc; reflexivity|]. split; [|split; [|split]].
      * apply Forall_app. split.
        -- eapply Forall_impl; [exact Hall1|]. simpl. intros e (? & Hp).
           repeat split; [assumption | rewrite Hp; exact Hvp'|].
           exists d. split; [apply list_elem_of_here | exact Hp].
        -- eapply Forall_impl; [exact Hall|]. simpl.
           intros e (? & ? & d' & ? & ?). repeat split; try assumption. exists d'.
           split; [apply list_elem_of_further; assumption | assumption].
      * rewrite Hreq. simpl. rewrite <- app_assoc. reflexivity.
      * rewrite length_app. simpl. lia.
      * apply Forall_app. split.
        -- eapply Forall_impl; [exact Hasked|]. simpl. intros u (d' & ? & ?). exists d'.
           split; [apply list_elem_of_further; assumption | assumption].
        -- constructor; [|constructor]. exists d. split; [apply list_elem_of_here | reflexivity].
Qed.

(** X19.  [discoverEntries] never throws.  Every entry it returns has a
    period of [PERIODS_Q] and the non-empty value pattern of one of the
    listings, and it sends at most one request per listing, to the URL of
    the listing. *)
Theorem discovered_entries_are_valid (discoverCfg : list DiscoverCfg) (w : World) :
  exists w' found asked,
    discoverEntries E discoverCfg w = (w', Ok found)
    /\ Forall (fun e => isPeriod (e_period e) = true
                        /\ e_pattern e <> ""
                        /\ exists d, d ∈ discoverCfg /\ e_pattern e = valuePattern d) found
    /\ requests w' = (asked ++ requests w)%list
    /\ length asked <= length discoverCfg
    /\ Forall (fun u => exists d, d ∈ discoverCfg /\ u = listUrl d) asked.
Proof.
  unfold discoverEntries.
  destruct (discoverEntriesFrom_spec discoverCfg [] w) as (w' & new & asked & H).
  exists w', new, asked. exact H.
Qed.

(** X20.  One listing gives at most one entry per period, hence at most
    20 entries, and no more entries than its [max] (6 when absent), one
    when [max] is 0. *)
Theorem one_listing_gives_distinct_periods (d : DiscoverCfg) (w : World) :
  exists w' found,
    discoverEntries E [d] w = (w', Ok found)
    /\ NoDup (List.map e_period found)
    /\ length found <= Nat.max 1 (default 6 (max d))
    /\ length found <= 20.
Proof.
  assert (H20 : forall found : list Entry,
            NoDup (List.map e_period found) ->
            Forall (fun e => isPeriod (e_period e) = true) found -> length found <= 20).
  { intros found Hnd Hall.
    rewrite <- (length_map e_period found).
    change 20 with (length PERIODS_Q).
    apply submseteq_length, NoDup_submseteq; [exact Hnd|].
    intros p Hp. apply list_elem_of_fmap in Hp as (e & -> & He).
    rewrite Forall_forall in Hall. specialize (Hall e He).
    unfold isPeriod in Hall. apply existsb_exists in Hall as (q & Hq & Heq).
    apply String.eqb_eq in Heq. subst q. apply list_elem_of_In. exact Hq. }
  unfold discoverEntries. simpl.
  destruct (Str.isEmpty (listUrl d) || Str.isEmpty (linkPattern d)
            || Str.isEmpty (valuePattern d)).
  - exists w, []. split; [reflexivity|]. split; [constructor | simpl; lia].
  - unfold bind at 1.
    destruct (discoverListing_spec d [] w) as (new & -> & Hall & Hnd & Hlen).
    eexists _, new. split; [reflexivity|]. split; [exact Hnd|]. simpl in Hlen.
    split; [lia|]. apply H20; [exact Hnd|].
    eapply Forall_impl; [exact Hall|]. simpl. tauto.
Qed.

End Entries.

(* ===================================================================== *)
(** ** The loop of the automatic search *)
(* ===================================================================== *)

Lemma setValue_lookup (p : string) (v : option Q) (s : Series) (i : nat) (pt : Point) :
  setValue p v s !! i = Some pt ->
  s !! i = Some pt \/ pt = {| period := p; value := v |}.
Proof.
  revert i. induction s as [|x r IH]; intros i; simpl; [auto|].
  destruct (String.eqb (period x) p) eqn:Hx.
  - apply String.eqb_eq in Hx. destruct i as [|i]; simpl; [|auto].
    intros [= <-]. right. rewrite Hx. reflexivity.
  - destruct i as [|i]; simpl; [auto | apply IH].
Qed.

Section AutoSearch.

Variable E : Env.

Lemma ensureOcr_step (kpiMeta : KpiMeta) (autoCfg : AutoCfg) (doc : Document)
    (st st' : OcrState) :
  ensureOcr E kpiMeta autoCfg doc st = Ok st' -> ocrStep autoCfg st st'.
Proof.
  unfold ensureOcr, ocrStep. destruct st as [ocrText r].
  destruct (negb (ocrEnabledOf autoCfg) || negb (isPdfDoc doc) || (r <=? 0)%Z) eqn:Hg.
  { intros [= <-]. left. reflexivity. }
  destruct ocrText as [t|]; [intros [= <-]; left; reflexivity|].
  destruct (ocrPdfBuffer E (buffer doc) (ocrOptsOf kpiMeta autoCfg)) as [t|e]; [|discriminate].
  intros [= <-]. right. simpl.
  apply orb_false_iff in Hg as [Hg Hr]. apply orb_false_iff in Hg as [Hen _].
  apply negb_false_iff in Hen. apply Z.leb_gt in Hr.
  repeat split; [exact Hr | discriminate | exact Hen].
Qed.

Lemma ocrStep_trans (autoCfg : AutoCfg) (r : Z) (st1 st2 : OcrState) :
  ocrStep autoCfg (None, r) st1 -> ocrStep autoCfg st1 st2 ->
  budgetStep r (snd st2) /\ (ocrEnabledOf autoCfg = false -> snd st2 = r).
Proof.
  unfold ocrStep, budgetStep. simpl.
  intros [-> | (_ & Hr & H1 & Hn & Hen)] [-> | (Hf & Hr2 & H2 & _ & Hen2)]; simpl in *.
  - split; [left; reflexivity | reflexivity].
  - split; [right; split; assumption | congruence].
  - split; [right; split; assumption | congruence].
  - contradiction.
Qed.

Lemma ocrRetry_step (kpiMeta : KpiMeta) (autoCfg : AutoCfg) (doc : Document) (p : string)
    (st st' : OcrState) (r : option Q) :
  ocrRetry E kpiMeta autoCfg doc p st = (st', r) ->
  ocrStep autoCfg st st'
  /\ forall v, r = Some v -> inBounds (minValue kpiMeta) (maxValue kpiMeta) v.
Proof.
  unfold ocrRetry.
  destruct (ensureOcr E kpiMeta autoCfg doc st) as [st1|e] eqn:Hens.
  2: { intros [= <- <-]. split; [left; reflexivity | discriminate]. }
  apply ensureOcr_step in Hens.
  destruct (match ocrFoldedOf st1 with
            | Some f => extractBoth E kpiMeta f p false
            | None => Ok None
            end) as [[v|]|e] eqn:Htext.
  - intros [= <- <-]. split; [exact Hens|]. intros v' [= <-].
    destruct (ocrFoldedOf st1); [|discriminate]. eapply extractBoth_bounds; exact Htext.
  - destruct (fst st1) as [t|]; [|intros [= <- <-]; split; [exact Hens | discriminate]].
    destruct (Str.isEmpty t); [intros [= <- <-]; split; [exact Hens | discriminate]|].
    destruct (extractValueFromLines E _ _ _ _ _) as [v|e] eqn:Hl;
      intros [= <- <-]; (split; [exact Hens|]); [|discriminate].
    intros v' ->. apply extractValueFromLines_bounds in Hl. exact Hl.
  - intros [= <- <-]. split; [exact Hens | discriminate].
Qed.

Lemma extractForPeriod_step (kpiMeta : KpiMeta) (autoCfg : AutoCfg) (doc : Document)
    (pu : option string) (p : string) (st st' : OcrState) (r : result (option Q)) :
  extractForPeriod E kpiMeta autoCfg doc pu p st = (st', r) ->
  ocrStep autoCfg st st'
  /\ forall v, r = Ok (Some v) -> inBounds (minValue kpiMeta) (maxValue kpiMeta) v.
Proof.
  unfold extractForPeriod.
  destruct (extractBoth E kpiMeta (folded doc) p true) as [strictValue|e] eqn:Hs.
  2: { intros [= <- <-]. split; [left; reflexivity | discriminate]. }
  destruct (match strictValue, pu with
            | None, Some _ => extractBoth E kpiMeta (folded doc) p false
            | _, _ => Ok strictValue
            end) as [[v|]|e] eqn:Hr.
  - intros [= <- <-]. split; [left; reflexivity|]. intros v' [= <-].
    destruct strictValue as [v0|].
    + injection Hr as ->. eapply extractBoth_bounds; exact Hs.
    + destruct pu; [|discriminate]. eapply extractBoth_bounds; exact Hr.
  - destruct (ocrEnabledOf autoCfg && isPdfDoc doc && (0 <? snd st)%Z).
    + destruct (ocrRetry E kpiMeta autoCfg doc p st) as [st1 v] eqn:Ho.
      intros [= <- <-]. apply ocrRetry_step in Ho as [H1 H2].
      split; [exact H1|]. intros v' [= ->]. apply H2. reflexivity.
    + intros [= <- <-]. split; [left; reflexivity | discriminate].
  - intros [= <- <-]. split; [left; reflexivity | discriminate].
Qed.

Lemma autoItem_effects (kpiMeta : KpiMeta) (autoCfg : AutoCfg) (item : Candidate)
    (a : AutoState) (w : World) :
  exists w' a',
    autoItem E kpiMeta autoCfg item a w = (w', Ok a')
    /\ (w' = w \/ (w' = fst (fetchDocument E (url item) w)
                   /\ worthFetching (a_missing a) item))
    /\ budgetStep (a_ocrRemaining a) (a_ocrRemaining a')
    /\ (ocrEnabledOf autoCfg = false -> a_ocrRemaining a' = a_ocrRemaining a)
    /\ fillsWithin (minValue kpiMeta) (maxValue kpiMeta) a a'.
Proof.
  unfold autoItem, worthFetching, fillsWithin. cbv zeta.
  destruct (match inferPeriodFromString (Some (url item)) with
            | Some p => negb (bool_decide (p ∈ a_missing a))
            | None => false
            end) eqn:Hskip.
  { exists w, a. split; [reflexivity|]. split; [left; reflexivity|].
    split; [left; reflexivity|]. split; [reflexivity | left; split; reflexivity]. }
  assert (Hworth : match inferPeriodFromString (Some (url item)) with
                   | Some p => p ∈ a_missing a
                   | None => True
                   end).
  { destruct (inferPeriodFromString (Some (url item))); [|exact I].
    apply negb_false_iff, bool_decide_eq_true in Hskip. exact Hskip. }
  destruct (fetchDocument E (url item) w) as [w1 [doc|e]] eqn:Hfetch.
  2: { exists w1, a. split; [reflexivity|]. split; [right; split; [reflexivity | exact Hworth]|].
       split; [left; reflexivity|]. split; [reflexivity | left; split; reflexivity]. }
  match goal with
  | |- context [match ?x with Throw _ => _ | Ok _ => _ end] =>
      destruct x as [[st1 per]|e] eqn:Hearly
  end.
  2: { exists w1, a. split; [reflexivity|]. split; [right; split; [reflexivity | exact Hworth]|].
       split; [left; reflexivity|]. split; [reflexivity | left; split; reflexivity]. }
  assert (H1 : ocrStep autoCfg (None, a_ocrRemaining a) st1).
  { destruct (orElse _ _) as [p0|].
    - injection Hearly as <- _. left. reflexivity.
    - destruct (ocrEnabledOf autoCfg && isPdfDoc doc).
      + destruct (ensureOcr E kpiMeta autoCfg doc (None, a_ocrRemaining a)) as [st|e] eqn:Hens;
          [|discriminate].
        injection Hearly as <- _. eapply ensureOcr_step. exact Hens.
      + injection Hearly as <- _. left. reflexivity. }
  clear Hearly.
  assert (Hsame : forall st2, ocrStep autoCfg st1 st2 ->
            exists w' a',
              (w1, Ok {| a_series := a_series a; a_missing := a_missing a;
                         a_ocrRemaining := snd st2 |}) = (w', Ok a')
              /\ (w' = w \/ w' = (w1, Ok doc).1
                            /\ match inferPeriodFromString (Some (url item)) with
                               | Some p => p ∈ a_missing a
                               | None => True
                               end)
              /\ budgetStep (a_ocrRemaining a) (a_ocrRemaining a')
              /\ (ocrEnabledOf autoCfg = false -> a_ocrRemaining a' = a_ocrRemaining a)
              /\ ((a_series a' = a_series a /\ a_missing a' = a_missing a)
                  \/ exists p v, p ∈ a_missing a
                       /\ inBounds (minValue kpiMeta) (maxValue kpiMeta) v
                       /\ a_series a' = setValue p (Some v) (a_series a)
                       /\ a_missing a' = a_missing a ∖ {[p]})).
  { intros st2 H2. destruct (ocrStep_trans autoCfg _ st1 st2 H1 H2) as [Hb Hd].
    eexists _, _. split; [reflexivity|]. simpl.
    split; [right; split; [reflexivity | exact Hworth]|].
    split; [exact Hb|]. split; [exact Hd | left; split; reflexivity]. }
  destruct per as [p|]; [|apply Hsame; left; reflexivity].
  destruct (negb (bool_decide (p ∈ a_missing a))) eqn:Hp; [apply Hsame; left; reflexivity|].
  apply negb_false_iff, bool_decide_eq_true in Hp.
  destruct (extractForPeriod E kpiMeta autoCfg doc _ p st1) as [st2 r] eqn:Hext.
  apply extractForPeriod_step in Hext as [H2 Hv].
  destruct r as [[v|]|e]; try (apply Hsame; exact H2).
  destruct (hasPoint p (a_series a)); [|apply Hsame; exact H2].
  destruct (ocrStep_trans autoCfg _ st1 st2 H1 H2) as [Hb Hd].
  eexists _, _. split; [reflexivity|]. simpl.
  split; [right; split; [reflexivity | exact Hworth]|].
  split; [exact Hb|]. split; [exact Hd|].
  right. exists p, v. repeat split; try assumption; try reflexivity.
  - apply (Hv v eq_refl).
  - apply (Hv v eq_refl).
Qed.

Lemma fetchDocument_world (u : string) (w : World) :
  fst (fetchDocument E u w) = w
  \/ (cache w !! u = None /\ requests (fst (fetchDocument E u w)) = u :: requests w).
Proof.
  destruct (cache w !! u) as [d|] eqn:Hu.
  - left. rewrite (fetchDocument_hit E u w d Hu). reflexivity.
  - right. split; [reflexivity|]. rewrite (fetchDocument_miss E u w Hu).
    destruct (download E u); reflexivity.
Qed.

Lemma fetchDocument_cache_none (u u' : string) (w : World) :
  cache (fst (fetchDocument E u w)) !! u' = None -> cache w !! u' = None.
Proof.
  intros H. destruct (cache w !! u') as [d|] eqn:Hu; [|reflexivity].
  rewrite (fetchDocument_cache_kept E u u' w d Hu) in H. discriminate.
Qed.

(** X22.  The loop over the candidates never throws, and the OCR budget
    is respected: [ocrRemaining] never grows, goes down by at most one per
    candidate, never goes below 0 when it starts at 0 or more, and is not
    touched when OCR is off. *)
Theorem ocr_budget_is_respected (kpiMeta : KpiMeta) (autoCfg : AutoCfg)
    (candidates : list Candidate) (a : AutoState) (w : World) :
  exists w' a',
    autoLoop E kpiMeta autoCfg candidates a w = (w', Ok a')
    /\ (a_ocrRemaining a' <= a_ocrRemaining a)%Z
    /\ (a_ocrRemaining a - a_ocrRemaining a' <= Z.of_nat (length candidates))%Z
    /\ ((0 <= a_ocrRemaining a)%Z -> (0 <= a_ocrRemaining a')%Z)
    /\ (ocrEnabledOf autoCfg = false -> a_ocrRemaining a' = a_ocrRemaining a).
Proof.
  revert a w. induction candidates as [|item rest IH]; intros a w; simpl autoLoop.
  - exists w, a. split; [reflexivity|]. simpl. repeat split; try lia.
  - destruct (bool_decide (a_missing a = ∅)).
    { exists w, a. split; [reflexivity|]. repeat split; try lia. }
    unfold bind.
    destruct (autoItem_effects kpiMeta autoCfg item a w) as (w1 & a1 & -> & _ & Hb & Hd & _).
    destruct (IH a1 w1) as (w2 & a2 & -> & H1 & H2 & H3 & H4).
    exists w2, a2. split; [reflexivity|].
    assert (Hlen : Z.of_nat (length (item :: rest)) = (Z.of_nat (length rest) + 1)%Z)
      by (simpl length; lia).
    rewrite Hlen. unfold budgetStep in Hb.
    repeat split; try lia. intros Hoff. rewrite (H4 Hoff). apply Hd, Hoff.
Qed.

(** X23.  The requests the loop sends: at most one per candidate, each to
    the URL of a candidate that was not in the cache when the loop started
    and whose URL names no period or a period that was missing then.  Once
    nothing is missing the loop sends nothing. *)
Theorem autoLoop_requests (kpiMeta : KpiMeta) (autoCfg : AutoCfg)
    (candidates : list Candidate) (a : AutoState) (w : World) :
  exists w' a' new,
    autoLoop E kpiMeta autoCfg candidates a w = (w', Ok a')
    /\ requests w' = (new ++ requests w)%list
    /\ length new <= length candidates
    /\ Forall (fun u => cache w !! u = None
                        /\ exists c, c ∈ candidates /\ url c = u
                                     /\ worthFetching (a_missing a) c) new
    /\ (a_missing a = ∅ -> w' = w).
Proof.
  revert a w. induction candidates as [|item rest IH]; intros a w; simpl autoLoop.
  - exists w, a, []. split; [reflexivity|]. repeat split; [simpl; lia | constructor].
  - destruct (bool_decide (a_missing a = ∅)) eqn:Hm.
    { exists w, a, []. split; [reflexivity|]. repeat split; [simpl; lia | constructor]. }
    apply bool_decide_eq_false in Hm. unfold bind.
    destruct (autoItem_effects kpiMeta autoCfg item a w)
      as (w1 & a1 & -> & Hw & _ & _ & Hfill).
    destruct (IH a1 w1) as (w2 & a2 & new & -> & Hreq & Hlen & Hall & _).
    assert (Hsub : forall p, p ∈ a_missing a1 -> p ∈ a_missing a).
    { destruct Hfill as [[_ ->] | (p & v & _ & _ & _ & ->)]; [auto|].
      intros q Hq. apply elem_of_difference in Hq as [Hq _]. exact Hq. }
    assert (Hworth : forall c, worthFetching (a_missing a1) c -> worthFetching (a_missing a) c).
    { intros c. unfold worthFetching.
      destruct (inferPeriodFromString (Some (url c))); [apply Hsub | auto]. }
    assert (Hrest : forall w0, (forall u, cache w1 !! u = None -> cache w0 !! u = None) ->
              Forall (fun u => cache w0 !! u = None
                               /\ exists c, c ∈ item :: rest /\ url c = u
                                            /\ worthFetching (a_missing a) c) new).
    { intros w0 Hc. eapply Forall_impl; [exact Hall|]. simpl.
      intros u (Hu & c & Hin & Hcu & Hcw). split; [apply Hc, Hu|].
      exists c. repeat split; [apply list_elem_of_further, Hin | exact Hcu | apply Hworth, Hcw]. }
    destruct Hw as [-> | [-> Hitem]].
    + exists w2, a2, new. split; [reflexivity|]. split; [exact Hreq|].
      split; [simpl; lia|]. split; [apply Hrest; auto | contradiction].
    + destruct (fetchDocument_world (url item) w) as [Hsame | [Hnone Hnew]].
      * rewrite Hsame in *. exists w2, a2, new. split; [reflexivity|]. split; [exact Hreq|].
        split; [simpl; lia|]. split; [apply Hrest; auto | contradiction].
      * exists w2, a2, (new ++ [url item])%list. split; [reflexivity|].
        split; [rewrite Hreq, Hnew, <- app_assoc; reflexivity|].
        split; [rewrite length_app; simpl; lia|].
        split; [|contradiction].
        apply Forall_app. split.
        -- apply Hrest. intros u. apply fetchDocument_cache_none.
        -- constructor; [|constructor]. split; [exact Hnone|].
           exists item. repeat split; [apply list_elem_of_here | exact Hitem].
Qed.

Lemma autoLoop_fills (kpiMeta : KpiMeta) (autoCfg : AutoCfg)
    (candidates : list Candidate) (a : AutoState) (w : World) :
  exists w' a',
    autoLoop E kpiMeta autoCfg candidates a w = (w', Ok a')
    /\ (forall p, p ∈ a_missing a' -> p ∈ a_missing a)
    /\ forall i pt, a_series a' !! i = Some pt ->
         a_series a !! i = Some pt
         \/ exists v, pt = {| period := period pt; value := Some v |}
                      /\ period pt ∈ a_missing a
                      /\ inBounds (minValue kpiMeta) (maxValue kpiMeta) v.
Proof.
  revert a w. induction candidates as [|item rest IH]; intros a w; simpl autoLoop.
  - exists w, a. split; [reflexivity|]. split; auto.
  - destruct (bool_decide (a_missing a = ∅)).
    { exists w, a. split; [reflexivity|]. split; auto. }
    unfold bind.
    destruct (autoItem_effects kpiMeta autoCfg item a w)
      as (w1 & a1 & -> & _ & _ & _ & Hfill).
    destruct (IH a1 w1) as (w2 & a2 & -> & Hsub2 & Hpts).
    exists w2, a2. split; [reflexivity|].
    assert (Hsub : forall p, p ∈ a_missing a1 -> p ∈ a_missing a).
    { destruct Hfill as [[_ ->] | (p & v & _ & _ & _ & ->)]; [auto|].
      intros q Hq. apply elem_of_difference in Hq as [Hq _]. exact Hq. }
    split; [intros p Hp; apply Hsub, Hsub2, Hp|].
    intros i pt Hi. destruct (Hpts i pt Hi) as [Hold | (v & Hpt & Hper & Hb)].
    + destruct Hfill as [[Hs _] | (p & v & Hp & Hb & Hs & _)].
      * left. rewrite <- Hs. exact Hold.
      * rewrite Hs in Hold. apply setValue_lookup in Hold as [Hold | ->]; [left; exact Hold|].
        right. exists v. repeat split; try assumption; apply Hb.
    + right. exists v. repeat split; [exact Hpt | apply Hsub, Hper | apply Hb | apply Hb].
Qed.

(** X24.  [autoFillSeries] never throws, whatever its crawl returns, and
    every point of the series it returns is the point it was given or
    holds a value within [minValue] and [maxValue] of the KPI, at a period
    that held no value before. *)
Theorem auto_filled_values_are_plausible (kpi : Kpi) (w : World) :
  exists w' s',
    autoFillSeries E kpi w = (w', Ok s')
    /\ forall i pt, s' !! i = Some pt ->
         series kpi !! i = Some pt
         \/ exists kpiMeta v,
              KPI_PATTERNS (key kpi) = Some kpiMeta
              /\ value pt = Some v
              /\ inBounds (minValue kpiMeta) (maxValue kpiMeta) v
              /\ period pt ∈ missingPeriods (series kpi).
Proof.
  unfold autoFillSeries. destruct (KPI_PATTERNS (key kpi)) as [kpiMeta|].
  - unfold bind, ret. destruct (crawl E (_ticker kpi) (_auto kpi) w) as [w0 raw].
    match goal with
    | |- context [autoLoop E ?m ?c ?l ?a ?w] =>
        destruct (autoLoop_fills m c l a w) as (w1 & a1 & -> & _ & Hpts)
    end.
    exists w1, (a_series a1). split; [reflexivity|]. intros i pt Hi.
    destruct (Hpts i pt Hi) as [Hold | (v & Hpt & Hper & Hb)]; [left; exact Hold|].
    right. exists kpiMeta, v. simpl in Hper. apply elem_of_list_to_set in Hper.
    repeat split; [rewrite Hpt; reflexivity | apply Hb | apply Hb | exact Hper].
  - exists w, (series kpi). split; [reflexivity|]. intros i pt Hi. left. exact Hi.
Qed.

End AutoSearch.

(* ===================================================================== *)
(** ** The crawl *)
(* ===================================================================== *)

Lemma natOr_pos (x : option nat) (d : nat) : 0 < d -> 0 < natOr x d.
Proof. intros Hd. destruct x as [[|n]|]; simpl; lia. Qed.

Lemma sitemapLocs_spec (limit : nat) (seen : gset string) (locs queue out : list string) :
  exists qnew onew,
    sitemapLocs limit seen locs queue out = ((queue ++ qnew)%list, (out ++ onew)%list)
    /\ Forall (fun u => endsWith u ".xml" = true /\ (u ∉ seen) /\ u ∈ locs) qnew
    /\ Forall (fun u => u ∈ locs) onew
    /\ (length out < limit -> length (out ++ onew)%list <= limit).
Proof.
  revert queue out. induction locs as [|loc rest IH]; intros queue out; simpl.
  - exists [], []. rewrite !app_nil_r. repeat split; [constructor | constructor | lia].
  - destruct (endsWith loc ".xml" && negb (bool_decide (loc ∈ seen))) eqn:Hx.
    + apply andb_true_iff in Hx as [Hxml Hns].
      apply negb_true_iff, bool_decide_eq_false in Hns.
      destruct (IH (queue ++ [loc])%list out) as (qnew & onew & -> & Hq & Ho & Hlen).
      exists (loc :: qnew), onew. rewrite <- app_assoc. split; [reflexivity|].
      split; [|split; [|exact Hlen]].
      * constructor; [repeat split; [exact Hxml | exact Hns | apply list_elem_of_here]|].
        eapply Forall_impl; [exact Hq|]. simpl. intros u (? & ? & ?).
        repeat split; try assumption. apply list_elem_of_further. assumption.
      * eapply Forall_impl; [exact Ho|]. simpl. intros u ?.
        apply list_elem_of_further. assumption.
    + destruct (limit <=? length (out ++ [loc])%list) eqn:Hlim.
      * exists [], [loc]. rewrite app_nil_r. split; [reflexivity|].
        split; [constructor|]. split; [constructor; [apply list_elem_of_here | constructor]|].
        rewrite length_app. simpl. lia.
      * apply Nat.leb_gt in Hlim.
        destruct (IH queue (out ++ [loc])%list) as (qnew & onew & -> & Hq & Ho & Hlen).
        exists qnew, (loc :: onew). rewrite <- app_assoc. split; [reflexivity|].
        split; [|split].
        -- eapply Forall_impl; [exact Hq|]. simpl. intros u (? & ? & ?).
           repeat split; try assumption. apply list_elem_of_further. assumption.
        -- constructor; [apply list_elem_of_here|].
           eapply Forall_impl; [exact Ho|]. simpl. intros u ?.
           apply list_elem_of_further. assumption.
        -- intros _. change (out ++ loc :: onew)%list with (out ++ [loc] ++ onew)%list.
           rewrite app_assoc. apply Hlen. exact Hlim.
Qed.

Section CrawlProperties.

Variable E : Env.

(** One round of the loop on a URL that was not seen: the request is
    logged, and the queue and the output grow as [sitemapLocs] says, or
    stay when the download fails. *)
Lemma sitemapRound_spec (limit : nat) (u : string) (queue' : list string)
    (seen' : gset string) (out : list string) (w : World) :
  exists qnew onew,
    tryCatch
      (bind (fetchBuffer E u)
         (fun buf => ret (sitemapLocs limit seen' (parseSitemapLocs buf) queue' out)))
      (fun _ => ret (queue', out)) w
    = ({| cache := cache w; requests := u :: requests w |},
       Ok ((queue' ++ qnew)%list, (out ++ onew)%list))
    /\ Forall (fun x => endsWith x ".xml" = true /\ x ∉ seen') qnew
    /\ (length out < limit -> length (out ++ onew)%list <= limit).
Proof.
  unfold tryCatch, bind, fetchBuffer, ret.
  assert (Hnone : exists qnew onew : list string,
            (queue', out) = ((queue' ++ qnew)%list, (out ++ onew)%list)
            /\ Forall (fun x => endsWith x ".xml" = true /\ x ∉ seen') qnew
            /\ (length out < limit -> length (out ++ onew)%list <= limit)).
  { exists [], []. rewrite !app_nil_r. repeat split; [constructor | lia]. }
  destruct (fetch E u) as [res|e].
  2: { destruct Hnone as (qnew & onew & Heq & Hrest). exists qnew, onew.
       split; [f_equal; f_equal; exact Heq | exact Hrest]. }
  destruct (res_ok res).
  2: { destruct Hnone as (qnew & onew & Heq & Hrest). exists qnew, onew.
       split; [f_equal; f_equal; exact Heq | exact Hrest]. }
  destruct (sitemapLocs_spec limit seen' (parseSitemapLocs (res_body res)) queue' out)
    as (qnew & onew & -> & Hq & _ & Hlen).
  exists qnew, onew. split; [reflexivity|]. split; [|exact Hlen].
  eapply Forall_impl; [exact Hq|]. simpl. tauto.
Qed.

Lemma sitemapLoop_spec (fuel limit : nat) (queue : list string) (seen : gset string)
    (out : list string) (w : World) :
  exists w' r asked,
    sitemapLoop E fuel limit queue seen out w = (w', Ok r)
    /\ requests w' = (asked ++ requests w)%list
    /\ NoDup asked
    /\ Forall (fun u => (u ∉ seen) /\ u <> ""
                        /\ (u ∈ queue \/ endsWith u ".xml" = true)) asked
    /\ cache w' = cache w
    /\ forall out', r = Some out' ->
         length out <= limit -> length out' <= limit.
Proof.
  revert queue seen out w. induction fuel as [|fuel IH]; intros queue seen out w; simpl.
  { exists w, None, []. repeat split; [constructor | constructor | discriminate]. }
  destruct queue as [|u queue'].
  { exists w, (Some out), []. repeat split; [constructor | constructor|].
    intros out' [= <-] H. exact H. }
  destruct (negb (length out <? limit)) eqn:Hfull.
  { exists w, (Some out), []. repeat split; [constructor | constructor|].
    intros out' [= <-] H. exact H. }
  apply negb_false_iff, Nat.ltb_lt in Hfull.
  destruct (Str.isEmpty u || bool_decide (u ∈ seen)) eqn:Hskip.
  { destruct (IH queue' seen out w) as (w' & r & asked & -> & Hreq & Hnd & Hall & Hc & Hlen).
    exists w', r, asked. repeat split; try assumption.
    eapply Forall_impl; [exact Hall|]. simpl. intros x (? & ? & [? | ?]).
    - repeat split; try assumption. left. apply list_elem_of_further. assumption.
    - repeat split; try assumption. right. assumption. }
  apply orb_false_iff in Hskip as [Hne Hns].
  apply bool_decide_eq_false in Hns.
  assert (Hu : u <> "") by (intros ->; discriminate).
  cbv zeta. unfold bind at 1.
  destruct (sitemapRound_spec limit u queue' ({[u]} ∪ seen) out w)
    as (qnew & onew & -> & Hq & Hlen1).
  cbn [fst snd].
  destruct (IH (queue' ++ qnew)%list ({[u]} ∪ seen) (out ++ onew)%list
              {| cache := cache w; requests := u :: requests w |})
    as (w' & r & asked & -> & Hreq & Hnd & Hall & Hc & Hlen).
  exists w', r, (asked ++ [u])%list. split; [reflexivity|].
  split; [rewrite Hreq; simpl; rewrite <- app_assoc; reflexivity|].
  split; [|split; [|split]].
  - apply NoDup_app. split; [exact Hnd|]. split; [|constructor; [apply not_elem_of_nil | constructor]].
    intros x Hx Hxu. apply list_elem_of_singleton in Hxu. subst x.
    rewrite Forall_forall in Hall. destruct (Hall u Hx) as (Hn & _).
    apply Hn, elem_of_union_l, elem_of_singleton. reflexivity.
  - apply Forall_app. split.
    + eapply Forall_impl; [exact Hall|]. simpl. intros x (Hn & ? & Hin).
      split; [intros Hs; apply Hn, elem_of_union_r, Hs|]. split; [assumption|].
      destruct Hin as [Hin | Hin]; [|right; exact Hin].
      apply elem_of_app in Hin as [Hin | Hin].
      * left. apply list_elem_of_further. exact Hin.
      * right. rewrite Forall_forall in Hq. apply (Hq x Hin).
    + constructor; [|constructor]. repeat split; [exact Hns | exact Hu|].
      left. apply list_elem_of_here.
  - exact Hc.
  - intros out' Hr _. apply (Hlen out' Hr). apply Hlen1. exact Hfull.
Qed.

(** X25.  [fetchSitemapUrls] never throws and leaves the cache alone.
    It requests no URL twice; each URL it requests is a seed or a [loc]
    that ends in ".xml"; and whenever it ends it returns at most [maxUrls]
    URLs (2000 when [maxUrls] is 0). *)
Theorem fetchSitemapUrls_bounds (fuel : nat) (seedUrls : list string) (maxUrls : nat)
    (w : World) :
  exists w' r asked,
    fetchSitemapUrls E fuel seedUrls maxUrls w = (w', Ok r)
    /\ requests w' = (asked ++ requests w)%list
    /\ NoDup asked
    /\ Forall (fun u => u <> "" /\ (u ∈ seedUrls \/ endsWith u ".xml" = true)) asked
    /\ cache w' = cache w
    /\ forall out, r = Some out -> length out <= natOr (Some maxUrls) 2000.
Proof.
  unfold fetchSitemapUrls.
  destruct (sitemapLoop_spec fuel (natOr (Some maxUrls) 2000) seedUrls ∅ [] w)
    as (w' & r & asked & H & Hreq & Hnd & Hall & Hc & Hlen).
  exists w', r, asked. repeat split; try assumption.
  - eapply Forall_impl; [exact Hall|]. simpl. tauto.
  - intros out Hr. apply (Hlen out Hr). simpl. lia.
Qed.

Lemma linkEntries_spec (fuel limit : nat) (baseUrl s : string) (out : list Candidate) :
  exists new,
    linkEntries E fuel limit baseUrl s out = (out ++ new)%list
    /\ (length out < limit -> length (out ++ new)%list <= limit).
Proof.
  revert s out. induction fuel as [|fuel IH]; intros s out; simpl.
  - exists []. rewrite app_nil_r. split; [reflexivity | lia].
  - destruct (matchLink s) as [[[href body] rest]|].
    + match goal with
      | |- context [(out ++ [?c])%list] => set (item := c)
      end.
      destruct (limit <=? length (out ++ [item])%list) eqn:Hlim.
      * exists [item]. split; [reflexivity|]. rewrite length_app. simpl. lia.
      * apply Nat.leb_gt in Hlim. destruct (IH rest (out ++ [item])%list) as (new & -> & Hlen).
        exists (item :: new). rewrite <- app_assoc. split; [reflexivity|].
        intros _. change (out ++ item :: new)%list with (out ++ [item] ++ new)%list.
        rewrite app_assoc. apply Hlen. exact Hlim.
    + destruct s as [|c s'].
      * exists []. rewrite app_nil_r. split; [reflexivity | lia].
      * apply IH.
Qed.

Lemma linkEntries_prefix (fuel m m' : nat) (baseUrl s : string) (out : list Candidate) :
  m <= m' -> length out < m ->
  linkEntries E fuel m baseUrl s out = take m (linkEntries E fuel m' baseUrl s out).
Proof.
  intros Hm. revert s out. induction fuel as [|fuel IH]; intros s out Hout; simpl.
  - rewrite firstn_all2 by lia. reflexivity.
  - destruct (matchLink s) as [[[href body] rest]|].
    + match goal with
      | |- context [(out ++ [?c])%list] => set (item := c)
      end.
      assert (Hlen : length (out ++ [item])%list = S (length out))
        by (rewrite length_app; simpl; lia).
      destruct (m <=? length (out ++ [item])%list) eqn:H1.
      * apply Nat.leb_le in H1.
        destruct (m' <=? length (out ++ [item])%list) eqn:H2.
        -- rewrite firstn_all2 by lia. reflexivity.
        -- destruct (linkEntries_spec fuel m' baseUrl rest (out ++ [item])%list)
             as (new & -> & _).
           rewrite take_app_le by lia. rewrite firstn_all2 by lia. reflexivity.
      * apply Nat.leb_gt in H1.
        destruct (m' <=? length (out ++ [item])%list) eqn:H2;
          [apply Nat.leb_le in H2; lia|].
        apply IH. exact H1.
    + destruct s as [|c s']; [rewrite firstn_all2 by lia; reflexivity | apply IH; exact Hout].
Qed.

(** X27.  The limit of [extractLinkEntriesFromHtml] bounds the number of
    links and only cuts the list short: the links for a smaller limit are
    the front of the links for a larger one; a limit of 0 stands for
    400. *)
Theorem extractLinkEntriesFromHtml_limit (htmlText baseUrl : string) (m m' : nat) :
  0 < m -> m <= m' ->
  length (extractLinkEntriesFromHtml E htmlText baseUrl m) <= m
  /\ extractLinkEntriesFromHtml E htmlText baseUrl m
     = take m (extractLinkEntriesFromHtml E htmlText baseUrl m')
  /\ extractLinkEntriesFromHtml E htmlText baseUrl 0
     = extractLinkEntriesFromHtml E htmlText baseUrl 400.
Proof.
  intros H0 Hm. unfold extractLinkEntriesFromHtml.
  assert (Hn : forall n, 0 < n -> natOr (Some n) 400 = n) by (intros [|n] ?; [lia | reflexivity]).
  rewrite (Hn m H0), (Hn m') by lia. repeat split.
  - destruct (linkEntries_spec (S (String.length htmlText)) m baseUrl htmlText [])
      as (new & -> & Hlen). apply Hlen. simpl. lia.
  - apply linkEntries_prefix; [exact Hm | simpl; lia].
Qed.

Lemma cacheGrown_refl (w w' : World) : cache w' = cache w -> cacheGrown E w w'.
Proof.
  intros H. split; intros u d Hu.
  - rewrite H. exact Hu.
  - unfold docOf. rewrite H in Hu. rewrite Hu. reflexivity.
Qed.

Lemma fetchDocument_grown (w0 w : World) (u : string) :
  cacheGrown E w0 w ->
  cacheGrown E w0 (fst (fetchDocument E u w))
  /\ forall doc, snd (fetchDocument E u w) = Ok doc -> docOf E w0 u = Ok doc.
Proof.
  intros [Hkeep Hfrom]. destruct (cache w !! u) as [d|] eqn:Hu.
  - rewrite (fetchDocument_hit E u w d Hu). simpl. split; [split; assumption|].
    intros doc [= <-]. apply Hfrom, Hu.
  - rewrite (fetchDocument_miss E u w Hu).
    assert (H0 : docOf E w0 u = download E u).
    { unfold docOf. destruct (cache w0 !! u) as [d0|] eqn:H0; [|reflexivity].
      rewrite (Hkeep u d0 H0) in Hu. discriminate. }
    destruct (download E u) as [d|e] eqn:Hd; simpl.
    + split; [|intros doc [= <-]; exact H0]. split.
      * intros u' d' H'. simpl. destruct (String.eqb_spec u u') as [<- | Hne].
        -- rewrite (Hkeep u d' H') in Hu. discriminate.
        -- rewrite lookup_insert_ne by exact Hne. apply Hkeep, H'.
      * intros u' d' H'. simpl in H'. destruct (String.eqb_spec u u') as [<- | Hne].
        -- rewrite lookup_insert_eq in H'. injection H' as <-. exact H0.
        -- rewrite lookup_insert_ne in H' by exact Hne. apply Hfrom, H'.
    + split; [split; assumption | discriminate].
Qed.

Lemma listPageLinks_pages (pages : list string) (maxListLinks : nat)
    (candidates : list Candidate) (w : World) :
  exists w',
    listPageLinks E pages maxListLinks candidates w
    = (w', Ok (candidates ++ flat_map (pageLinks E maxListLinks) pages)%list)
    /\ cache w' = cache w.
Proof.
  revert candidates w. induction pages as [|page rest IH]; intros candidates w; simpl.
  - exists w. rewrite app_nil_r. split; reflexivity.
  - unfold bind at 1, tryCatch, bind, fetchBuffer, ret, pageLinks.
    destruct (fetch E page) as [res|e]; [destruct (res_ok res)|].
    + match goal with
      | |- context [listPageLinks E rest maxListLinks (candidates ++ ?l)%list ?w0] =>
          destruct (IH (candidates ++ l)%list w0) as (w' & -> & Hc); exists w'
      end.
      rewrite <- app_assoc. split; [reflexivity | exact Hc].
    + match goal with
      | |- context [listPageLinks E rest maxListLinks candidates ?w0] =>
          destruct (IH candidates w0) as (w' & -> & Hc); exists w'
      end.
      split; [reflexivity | exact Hc].
    + match goal with
      | |- context [listPageLinks E rest maxListLinks candidates ?w0] =>
          destruct (IH candidates w0) as (w' & -> & Hc); exists w'
      end.
      split; [reflexivity | exact Hc].
Qed.

Lemma expandLinks_found (w0 : World) (items : list Candidate) (expandMax : nat)
    (extra : list Candidate) (w : World) :
  0 < expandMax -> cacheGrown E w0 w ->
  exists w' new,
    expandLinks E items expandMax extra w = (w', Ok (extra ++ new)%list)
    /\ Forall (fun link => exists item, item ∈ items /\ pdfLinkOn E w0 expandMax item link) new
    /\ (length extra < expandMax -> length (extra ++ new)%list < 2 * expandMax).
Proof.
  intros Hpos. revert extra w. induction items as [|item rest IH]; intros extra w Hg; simpl.
  - exists w, []. rewrite app_nil_r. split; [reflexivity|]. split; [constructor | lia].
  - assert (Hmore : forall new : list Candidate,
              Forall (fun link => exists it, it ∈ rest /\ pdfLinkOn E w0 expandMax it link) new ->
              Forall (fun link => exists it, it ∈ item :: rest
                                             /\ pdfLinkOn E w0 expandMax it link) new).
    { intros new Hn. eapply Forall_impl; [exact Hn|]. simpl. intros link (it & Hit & Hl).
      exists it. split; [apply list_elem_of_further, Hit | exact Hl]. }
    unfold bind at 1, tryCatch, bind at 1.
    destruct (fetchDocument_grown w0 w (url item) Hg) as [Hg1 Hdoc].
    destruct (fetchDocument E (url item) w) as [w1 [doc|e]]; cbn [fst snd] in Hg1, Hdoc.
    + destruct (isPdfDoc doc || Str.isEmpty (html doc)) eqn:Hskip; unfold ret at 1.
      * destruct (IH extra w1 Hg1) as (w' & new & -> & Hnew & Hlen).
        exists w', new. split; [reflexivity|]. split; [apply Hmore, Hnew | exact Hlen].
      * apply orb_false_iff in Hskip as [Hnp _].
        set (links := List.filter (fun link => isPdf (url link))
                        (extractLinkEntriesFromHtml E (html doc) (url item) expandMax)).
        assert (Hpdf : Forall (fun link => exists it, it ∈ item :: rest
                                             /\ pdfLinkOn E w0 expandMax it link) links).
        { rewrite Forall_forall. intros l Hl. apply list_elem_of_In in Hl.
          apply filter_In in Hl as [Hin Hl]. exists item.
          split; [apply list_elem_of_here|]. split; [exact Hl|].
          exists doc. split; [apply Hdoc; reflexivity|]. split; [exact Hnp|].
          apply list_elem_of_In, Hin. }
        assert (Hlinks : length links <= expandMax).
        { etransitivity; [apply filter_length_le|].
          unfold extractLinkEntriesFromHtml.
          destruct (linkEntries_spec (S (String.length (html doc)))
                      (natOr (Some expandMax) 400) (url item) (html doc) [])
            as (new & -> & Hlen).
          destruct expandMax as [|k]; [lia|]. apply Hlen. simpl. lia. }
        destruct (expandMax <=? length (extra ++ links)%list) eqn:Hfull.
        -- exists w1, links. split; [reflexivity|]. split; [exact Hpdf|].
           rewrite length_app. lia.
        -- apply Nat.leb_gt in Hfull.
           destruct (IH (extra ++ links)%list w1 Hg1) as (w' & new & -> & Hnew & Hlen).
           exists w', (links ++ new)%list. rewrite app_assoc. split; [reflexivity|].
           split; [apply Forall_app; split; [exact Hpdf | apply Hmore, Hnew]|].
           intros _. apply Hlen, Hfull.
    + unfold ret at 1. destruct (expandMax <=? length extra) eqn:Hfull.
      * exists w1, []. rewrite app_nil_r. split; [reflexivity|]. split; [constructor | lia].
      * destruct (IH extra w1 Hg1) as (w' & new & -> & Hnew & Hlen).
        exists w', new. split; [reflexivity|]. split; [apply Hmore, Hnew | exact Hlen].
Qed.

(** X28.  The raw pool of [autoFillSeries] never throws and, whenever the
    walk over the sitemaps ends (as it does when no sitemap is configured
    or seeded), is made of three parts in this order: the URLs that
    [fetchSitemapUrls] returns for the configured and seeded sitemaps,
    each without a text, at most [maxSitemapUrls] of them (2500 when
    absent); the links of the configured and seeded listing pages, page
    after page, a page that fails giving none; and links that are each a
    PDF link of the HTML page of one of the first [expandFromFirst] (120
    when absent) candidates of the first two parts that are no PDF, fewer
    than twice [expandMax] of them (240 when absent), and none when
    [expandPdfFromHtml] is false. *)
Theorem rawCandidates_pool (fuel : nat) (ticker : string) (autoCfg : AutoCfg) (w : World) :
  exists w' r,
    rawCandidates E fuel ticker autoCfg w = (w', Ok r)
    /\ (seedSitemaps ticker autoCfg = [] -> r <> None)
    /\ forall pool, r = Some pool ->
         exists urls extra,
           pool = (List.map bare urls
                   ++ flat_map (pageLinks E (natOr (maxListLinks autoCfg) 400))
                        (seedListPages ticker autoCfg)
                   ++ extra)%list
           /\ ((seedSitemaps ticker autoCfg = [] /\ urls = [])
               \/ (seedSitemaps ticker autoCfg <> []
                   /\ exists w1,
                        fetchSitemapUrls E fuel (seedSitemaps ticker autoCfg)
                          (natOr (maxSitemapUrls autoCfg) 2500) w
                        = (w1, Ok (Some urls))))
           /\ length urls <= natOr (maxSitemapUrls autoCfg) 2500
           /\ Forall (fun link =>
                        exists item,
                          item ∈ take (natOr (expandFromFirst autoCfg) 120)
                                   (List.filter (fun c => negb (isPdf (url c)))
                                      (List.map bare urls
                                       ++ flat_map
                                            (pageLinks E (natOr (maxListLinks autoCfg) 400))
                                            (seedListPages ticker autoCfg))%list)
                          /\ pdfLinkOn E w (natOr (expandMax autoCfg) 240) item link)
                     extra
           /\ length extra < 2 * natOr (expandMax autoCfg) 240
           /\ (expandPdfFromHtml autoCfg = Some false -> extra = []).
Proof.
  unfold rawCandidates, seedSitemaps, seedListPages. cbv zeta.
  set (sm := dedupe (sitemaps autoCfg ++ (AUTO_SEEDS ticker).1)%list).
  set (lp := dedupe (listPages autoCfg ++ (AUTO_SEEDS ticker).2)%list).
  set (pages := flat_map (pageLinks E (natOr (maxListLinks autoCfg) 400)) lp).
  assert (Hmax : 0 < natOr (expandMax autoCfg) 240) by (apply natOr_pos; lia).
  assert (Htail : forall c1 w1,
            cache w1 = cache w ->
            exists w' pool extra,
              bind (listPageLinks E lp (natOr (maxListLinks autoCfg) 400) c1)
                (fun candidates2 =>
                   if notFalse (expandPdfFromHtml autoCfg) && negb (isNil candidates2)
                   then
                     bind (expandLinks E
                             (take (natOr (expandFromFirst autoCfg) 120)
                                (List.filter (fun item => negb (isPdf (url item)))
                                   candidates2))
                             (natOr (expandMax autoCfg) 240) [])
                       (fun extra =>
                          ret (Some (if isNil extra then candidates2
                                     else (candidates2 ++ extra)%list)))
                   else ret (Some candidates2)) w1 = (w', Ok (Some pool))
              /\ pool = (c1 ++ pages ++ extra)%list
              /\ Forall (fun link =>
                           exists item,
                             item ∈ take (natOr (expandFromFirst autoCfg) 120)
                                      (List.filter (fun c => negb (isPdf (url c)))
                                         (c1 ++ pages)%list)
                             /\ pdfLinkOn E w (natOr (expandMax autoCfg) 240) item link)
                        extra
              /\ length extra < 2 * natOr (expandMax autoCfg) 240
              /\ (expandPdfFromHtml autoCfg = Some false -> extra = [])).
  { intros c1 w1 Hw1. unfold bind at 1.
    destruct (listPageLinks_pages lp (natOr (maxListLinks autoCfg) 400) c1 w1)
      as (w2 & -> & Hw2). fold pages.
    destruct (notFalse (expandPdfFromHtml autoCfg) && negb (isNil (c1 ++ pages)%list))
      eqn:Hexp.
    - unfold bind at 1.
      match goal with
      | |- context [expandLinks E ?items ?m [] w2] =>
          destruct (expandLinks_found w items m [] w2 Hmax) as (w3 & extra & -> & Hpdf & Hlen)
      end.
      { apply cacheGrown_refl. rewrite Hw2. exact Hw1. }
      simpl app in *. exists w3. eexists _, extra. split; [reflexivity|].
      split; [destruct extra; simpl; rewrite ?app_nil_r, ?app_assoc; reflexivity|].
      split; [exact Hpdf|]. split; [apply Hlen; simpl; lia|].
      intros Hoff. rewrite Hoff in Hexp. discriminate.
    - exists w2. eexists _, []. split; [reflexivity|].
      rewrite app_nil_r. split; [reflexivity|]. split; [constructor|].
      split; [simpl; lia | reflexivity]. }
  destruct (isNil sm) eqn:Hsm.
  - unfold bind at 1, ret at 1.
    destruct (Htail [] w eq_refl) as (w' & pool & extra & -> & Hpool & Hfound & Hrest).
    exists w', (Some pool). split; [reflexivity|]. split; [discriminate|].
    intros pool' [= <-]. exists [], extra.
    split; [exact Hpool|]. split; [left; split; [|reflexivity]|].
    { destruct sm; [reflexivity | discriminate]. }
    split; [simpl; lia|]. split; [exact Hfound | exact Hrest].
  - unfold bind at 1, bind at 1.
    assert (Hne : sm <> []) by (intros Heq; rewrite Heq in Hsm; discriminate).
    pose proof (sitemapLoop_spec fuel (natOr (Some (natOr (maxSitemapUrls autoCfg) 2500)) 2000)
                  sm ∅ [] w) as (w1 & r & asked & Hrun & _ & _ & _ & Hc & Hlen).
    unfold fetchSitemapUrls at 1. rewrite Hrun. unfold ret at 1.
    destruct r as [urls|].
    + change (option_map (List.map (fun u => {| url := u; anchor := "" |})) (Some urls))
        with (Some (List.map bare urls)).
      cbv iota.
      destruct (Htail (List.map bare urls) w1 Hc)
        as (w' & pool & extra & -> & Hpool & Hfound & Hrest).
      exists w', (Some pool). split; [reflexivity|]. split; [intros H; destruct (Hne H)|].
      intros pool' [= <-]. exists urls, extra.
      split; [exact Hpool|]. split; [right; split; [exact Hne|]; exists w1; exact Hrun|].
      split; [|split; [exact Hfound | exact Hrest]].
      specialize (Hlen urls eq_refl ltac:(simpl; lia)).
      destruct (maxSitemapUrls autoCfg) as [[|n]|]; simpl in *; lia.
    + exists w1, None. split; [reflexivity|]. split; [intros H; destruct (Hne H) | discriminate].
Qed.

End CrawlProperties.

Lemma rawCandidates_pool_witness :
  exists w' urls extra,
    rawCandidates Site.siteEnv 8 "XYZ" Site.crawlCfg Sample.emptyWorld
    = (w', Ok (Some (List.map bare urls
                     ++ flat_map (pageLinks Site.siteEnv 400)
                          (seedListPages "XYZ" Site.crawlCfg)
                     ++ extra)%list))
    /\ urls = [ "https://a.example.vn/sitemap.xml"; "https://a.example.vn/bctc-2025q3.pdf";
                "https://a.example.vn/ir.html" ]
    /\ flat_map (pageLinks Site.siteEnv 400) (seedListPages "XYZ" Site.crawlCfg)
       = [ {| url := "https://a.example.vn/files/bctc-q4-2025.pdf";
              anchor := "BCTC quy 4 nam 2025" |};
           {| url := "https://a.example.vn/lien-he"; anchor := "Lien he" |} ]
    /\ extra = [ {| url := "https://a.example.vn/files/bctc-q4-2025.pdf";
                    anchor := "BCTC quy 4 nam 2025" |} ].
Proof.
  destruct (rawCandidates_pool Site.siteEnv 8 "XYZ" Site.crawlCfg Sample.emptyWorld)
    as (w' & r & Hrun & _ & Hparts).
  assert (Hr : r = Some [ {| url := "https://a.example.vn/sitemap.xml"; anchor := "" |};
                          {| url := "https://a.example.vn/bctc-2025q3.pdf"; anchor := "" |};
                          {| url := "https://a.example.vn/ir.html"; anchor := "" |};
                          {| url := "https://a.example.vn/files/bctc-q4-2025.pdf";
                             anchor := "BCTC quy 4 nam 2025" |};
                          {| url := "https://a.example.vn/lien-he"; anchor := "Lien he" |};
                          {| url := "https://a.example.vn/files/bctc-q4-2025.pdf";
                             anchor := "BCTC quy 4 nam 2025" |} ]).
  { vm_compute in Hrun. injection Hrun as _ Hr. symmetry. exact Hr. }
  destruct (Hparts _ Hr) as (urls & extra & Hpool & _).
  assert (Hpages : flat_map (pageLinks Site.siteEnv 400) (seedListPages "XYZ" Site.crawlCfg)
                   = [ {| url := "https://a.example.vn/files/bctc-q4-2025.pdf";
                          anchor := "BCTC quy 4 nam 2025" |};
                       {| url := "https://a.example.vn/lien-he"; anchor := "Lien he" |} ])
    by (vm_compute; reflexivity).
  change (natOr (maxListLinks Site.crawlCfg) 400) with 400 in Hpool.
  exists w', urls, extra. rewrite Hrun, Hr, Hpool. split; [reflexivity|].
  rewrite Hpages in Hpool |- *.
  destruct urls as [|u1 [|u2 [|u3 [|u4 urls]]]]; simpl in Hpool;
    try (injection Hpool as <- <- <-; intros; subst; repeat split; reflexivity);
    try discriminate Hpool.
  all: exfalso.
  all: repeat (destruct extra as [|? extra]; simpl in Hpool; try discriminate Hpool).
Defined.

Section SitemapEnds.

Variable E : Env.

Lemma sitemapLocs_queue (limit : nat) (seen : gset string) (locs queue out : list string) :
  length (fst (sitemapLocs limit seen locs queue out)) <= length queue + length locs.
Proof.
  revert queue out. induction locs as [|loc rest IH]; intros queue out; simpl; [lia|].
  destruct (endsWith loc ".xml" && negb (bool_decide (loc ∈ seen))).
  - etransitivity; [apply IH|]. rewrite length_app. simpl. lia.
  - destruct (limit <=? length (out ++ [loc])%list); simpl; [lia|].
    etransitivity; [apply IH|]. lia.
Qed.

Lemma sitemapRound_locs (limit : nat) (u : string) (queue' : list string)
    (seen' : gset string) (out : list string) (w : World) :
  tryCatch
    (bind (fetchBuffer E u)
       (fun buf => ret (sitemapLocs limit seen' (parseSitemapLocs buf) queue' out)))
    (fun _ => ret (queue', out)) w
  = ({| cache := cache w; requests := u :: requests w |},
     Ok (sitemapLocs limit seen' (locsOf E u) queue' out)).
Proof.
  unfold tryCatch, bind, fetchBuffer, ret, locsOf.
  destruct (fetch E u) as [res|e]; [|reflexivity].
  destruct (res_ok res); reflexivity.
Qed.

Lemma locsLeft_seen (universe : list string) (seen : gset string) (u : string) :
  locsLeft E universe ({[u]} ∪ seen) <= locsLeft E universe seen.
Proof.
  induction universe as [|x rest IH]; simpl; [lia|].
  destruct (bool_decide (x ∈ seen)) eqn:Hx.
  - apply bool_decide_eq_true in Hx.
    rewrite bool_decide_eq_true_2 by (apply elem_of_union_r; exact Hx). lia.
  - destruct (bool_decide (x ∈ {[u]} ∪ seen)); lia.
Qed.

Lemma locsLeft_take (universe : list string) (seen : gset string) (u : string) :
  u ∈ universe -> u ∉ seen ->
  locsLeft E universe ({[u]} ∪ seen) + length (locsOf E u) <= locsLeft E universe seen.
Proof.
  intros Hin Hns. induction universe as [|x rest IH]; [inversion Hin|]. simpl.
  destruct (String.eqb_spec x u) as [-> | Hne].
  - rewrite bool_decide_eq_true_2 by (apply elem_of_union_l, elem_of_singleton; reflexivity).
    rewrite bool_decide_eq_false_2 by exact Hns.
    pose proof (locsLeft_seen rest seen u). lia.
  - apply elem_of_cons in Hin as [-> | Hin]; [congruence|].
    specialize (IH Hin).
    destruct (bool_decide (x ∈ seen)) eqn:Hx.
    + apply bool_decide_eq_true in Hx.
      rewrite bool_decide_eq_true_2 by (apply elem_of_union_r; exact Hx). lia.
    + apply bool_decide_eq_false in Hx.
      rewrite bool_decide_eq_false_2; [lia|].
      intros H. apply elem_of_union in H as [H | H]; [|contradiction].
      apply elem_of_singleton in H. contradiction.
Qed.

(** X26.  [fetchSitemapUrls] ends when the URLs whose download holds a
    [loc] are finitely many: it needs no more rounds than there are seeds
    and [loc]s in those downloads. *)
Theorem fetchSitemapUrls_ends (universe : list string) (fuel : nat)
    (seedUrls : list string) (maxUrls : nat) (w : World) :
  (forall u, locsOf E u <> [] -> u ∈ universe) ->
  length seedUrls + locsLeft E universe ∅ < fuel ->
  exists w' out, fetchSitemapUrls E fuel seedUrls maxUrls w = (w', Ok (Some out)).
Proof.
  intros Huniv. unfold fetchSitemapUrls.
  generalize (natOr (Some maxUrls) 2000) as limit.
  generalize (@nil string) as out. generalize (∅ : gset string) as seen.
  revert seedUrls w.
  induction fuel as [|fuel IH]; intros queue w seen out limit Hfuel; [lia|]. simpl.
  destruct queue as [|u queue']; [exists w, out; reflexivity|].
  destruct (negb (length out <? limit)); [exists w, out; reflexivity|].
  destruct (Str.isEmpty u || bool_decide (u ∈ seen)) eqn:Hskip.
  { apply IH. simpl in Hfuel. lia. }
  apply orb_false_iff in Hskip as [_ Hns]. apply bool_decide_eq_false in Hns.
  cbv zeta. unfold bind at 1. rewrite sitemapRound_locs.
  apply IH.
  pose proof (sitemapLocs_queue limit ({[u]} ∪ seen) (locsOf E u) queue' out) as Hq.
  simpl in Hfuel.
  destruct (locsOf E u) as [|l ls] eqn:Hlocs.
  - simpl in *. pose proof (locsLeft_seen universe seen u). lia.
  - assert (Hu : u ∈ universe) by (apply Huniv; rewrite Hlocs; discriminate).
    pose proof (locsLeft_take universe seen u Hu Hns) as Ht. rewrite Hlocs in Ht.
    lia.
Qed.

End SitemapEnds.

Lemma fetchSitemapUrls_ends_witness :
  exists w' out,
    fetchSitemapUrls Site.siteEnv 8 ["https://a.example.vn/sitemap.xml"] 0 Sample.emptyWorld
    = (w', Ok (Some out)).
Proof.
  apply (fetchSitemapUrls_ends Site.siteEnv Site.universe).
  - intros u. unfold locsOf. cbn [fetch Site.siteEnv]. unfold Site.fetchPage, Site.pages.
    cbn [Sample.assoc].
    destruct (String.eqb_spec u "https://a.example.vn/sitemap.xml") as [-> | _];
      [intros _; apply list_elem_of_here|].
    destruct (String.eqb_spec u "https://a.example.vn/sitemap-ir.xml") as [-> | _];
      [intros _; apply list_elem_of_further, list_elem_of_here|].
    destruct (String.eqb_spec u "https://a.example.vn/ir.html") as [-> | _];
      intros H; exfalso; apply H; vm_compute; reflexivity.
  - apply Nat.ltb_lt. vm_compute. reflexivity.
Defined.

Lemma extractLinkEntriesFromHtml_limit_witness :
  length (extractLinkEntriesFromHtml Site.siteEnv
            (default "" (Sample.assoc "https://a.example.vn/ir.html" Site.pages))
            "https://a.example.vn/ir.html" 1) <= 1
  /\ extractLinkEntriesFromHtml Site.siteEnv
       (default "" (Sample.assoc "https://a.example.vn/ir.html" Site.pages))
       "https://a.example.vn/ir.html" 1
     = take 1 [ {| url := "https://a.example.vn/files/bctc-q4-2025.pdf";
                   anchor := "BCTC quy 4 nam 2025" |};
                {| url := "https://a.example.vn/lien-he"; anchor := "Lien he" |} ].
Proof.
  destruct (extractLinkEntriesFromHtml_limit Site.siteEnv
              (default "" (Sample.assoc "https://a.example.vn/ir.html" Site.pages))
              "https://a.example.vn/ir.html" 1 400) as (Hlen & Hcut & _); [lia | lia |].
  split; [exact Hlen|]. rewrite Hcut. vm_compute. reflexivity.
Defined.

(* ===================================================================== *)
(** ** The whole run *)
(* ===================================================================== *)

Section MainProperties.

Variable E : Env.

















End MainProperties.

